(** * Auditoría de permisos de Drive: shallow embedding and verification

    The development follows the script files of the project:
    - [Cfg_Constantes]   global configuration constants;
    - [API_Permisos]     permission normaliser and parent/child comparison;
    - [Legado]           the earlier single-file variant of the same logic;
    - [API_SalidaDrive]  paginated output of findings;
    - [UI_Menu]          the queue-driven, time-bounded traversal.

    Platform calls (DriveApp, SpreadsheetApp, the clock) are inputs of the
    model: a call that may throw is a value of type [option] or a sum with
    an [Error]; sheets are lists of rows. *)

From Stdlib Require Import List String Ascii ZArith Bool Lia Arith DecimalString.
Import ListNotations.
Local Open Scope string_scope.
Local Open Scope list_scope.

(** Template-literal and [+] concatenation of strings. *)
Infix "+++" := String.append (right associativity, at level 60).

(** ** JavaScript values shared by the script files *)

(** A thrown value: constructor name and [message]. *)
Record Error : Type := mkError { errNombre : string; message : string }.

Definition ReferenceError (identificador : string) : Error :=
  mkError "ReferenceError" (identificador +++ " is not defined").

Definition SyntaxError (detalle : string) : Error :=
  mkError "SyntaxError" detalle.

(** A sheet row handed to [appendRow]. *)
Definition Fila : Type := list string.

(** The three access-level literals the scripts assign and compare. *)
Inductive Nivel : Type := Ninguno | Visualizador | Editor.

Definition nivel_texto (n : Nivel) : string :=
  match n with
  | Ninguno => "Ninguno"
  | Visualizador => "Visualizador"
  | Editor => "Editor"
  end.

(** [a === b] on level literals. *)
Definition nivel_eqb (a b : Nivel) : bool :=
  match a, b with
  | Ninguno, Ninguno | Visualizador, Visualizador | Editor, Editor => true
  | _, _ => false
  end.

(** [Array.prototype.includes] / [Set.prototype.has] on strings. *)
Definition includes (l : list string) (x : string) : bool :=
  existsb (String.eqb x) l.

(** [Set.prototype.add]: insertion order, no repetition. *)
Definition Set_add (s : list string) (x : string) : list string :=
  if includes s x then s else s ++ [x].

(** [new Set(iterable)], listed in iteration order. *)
Definition Set_de (l : list string) : list string :=
  fold_left Set_add l [].

(** [Array.prototype.join]. *)
Definition join (sep : string) (l : list string) : string :=
  String.concat sep l.

(** ** Cfg_Constantes.js *)
Module Cfg_Constantes.

Definition NOMBRE_HOJA_REPORTE : string := "Reporte de Permisos".
Definition NOMBRE_HOJA_COLA : string := "Queue_STATE".
Definition TIEMPO_MAXIMO_EJECUCION_MS : Z := 20 * 60 * 1000.
Definition PREFIJO_CARPETA_AUDITORIA : string := "[Auditoría]".
Definition LIMITE_FILAS_POR_HOJA_REPORTE : Z := 50000.
Definition CABECERAS_REPORTE_TECNICO : Fila :=
  ["Ruta Escaneada"; "Enlace"; "Tipo (Doc/Folder)"; "Usuarios Encontrados (Roles)"].
Definition CLAVE_ESTADO_LEGADO : string := "DRIVE_AUDIT_STATE".

(** Every identifier declared at the top level of the script files.  Apps
    Script evaluates all files in one global scope, so this is what a free
    identifier of any function can resolve to besides its own parameters
    and locals (the platform services are listed last). *)
Definition ambito_global : list string :=
  [ "NOMBRE_HOJA_REPORTE"; "NOMBRE_HOJA_COLA"; "TIEMPO_MAXIMO_EJECUCION_MS";
    "PREFIJO_CARPETA_AUDITORIA"; "LIMITE_FILAS_POR_HOJA_REPORTE";
    "CABECERAS_REPORTE_TECNICO"; "CLAVE_ESTADO_LEGADO";
    "obtenerConjuntoPermisos"; "obtenerNivelAccesoUsuario";
    "registrarDiferenciasPermisos";
    "instanciarCarpetaMaestra"; "volcarHallazgoAPaginacion";
    "onOpen"; "crearMenuAuditoria"; "limpiarEstadoAuditoria";
    "iniciarAuditoria"; "continuarAuditoria";
    "SHEET_NAME"; "QUEUE_SHEET_NAME"; "MAX_RUNTIME_MS";
    "LEGACY_STATE_PROPERTY_KEY"; "clearState"; "getPermissionSet";
    "getAccess"; "startAudit"; "processQueue"; "logDifferences";
    "DriveApp"; "Drive"; "SpreadsheetApp"; "PropertiesService"; "Logger";
    "Session"; "Utilities"; "JSON"; "Date"; "Set" ].

(** Identifier resolution from inside a function whose parameters and
    local declarations are [locales]. *)
Definition resuelve (locales : list string) (x : string) : bool :=
  includes (locales ++ ambito_global) x.

End Cfg_Constantes.

(** ** API_Permisos.js *)
Module API_Permisos.
Import Cfg_Constantes.

(** [DriveApp.Access] and [DriveApp.Permission]. *)
Inductive Access : Type :=
  ANYONE | ANYONE_WITH_LINK | DOMAIN | DOMAIN_WITH_LINK | PRIVATE.
Inductive Permission : Type :=
  VIEW | EDIT | COMMENT | OWNER | ORGANIZER | FILE_ORGANIZER | NONE.

(** What the normaliser asks of a File or Folder.  [None] is a call that
    throws; the lists are the e-mail addresses of the users returned
    ([getEmail] is total). *)
Record Elemento : Type := mkElemento {
  getEditors : option (list string);
  getViewers : option (list string);
  getSharingAccess : option Access;
  getSharingPermission : option Permission
}.

Record ConjuntoPermisos : Type := mkConjunto {
  editores : list string;
  visualizadores : list string;
  accesoPublico : Nivel;
  accesoDominio : Nivel
}.

(** The level a link permission grants: [EDIT] and [VIEW] are the two
    cases the code distinguishes, anything else leaves the default. *)
Definition nivel_de_permiso (p : Permission) : Nivel :=
  match p with
  | EDIT => Editor
  | VIEW => Visualizador
  | _ => Ninguno
  end.

Definition obtenerConjuntoPermisos (archivoDrive : Elemento) : ConjuntoPermisos :=
  let editores :=
    match getEditors archivoDrive with
    | Some usuarios => fold_left Set_add usuarios []
    | None => []
    end in
  let visualizadores :=
    match getViewers archivoDrive with
    | Some usuarios => fold_left Set_add usuarios []
    | None => []
    end in
  let enlace :=
    match getSharingAccess archivoDrive, getSharingPermission archivoDrive with
    | Some accesoCompartido, Some permisoCompartido =>
        match accesoCompartido with
        | ANYONE | ANYONE_WITH_LINK => (nivel_de_permiso permisoCompartido, Ninguno)
        | DOMAIN | DOMAIN_WITH_LINK => (Ninguno, nivel_de_permiso permisoCompartido)
        | PRIVATE => (Ninguno, Ninguno)
        end
    | _, _ => (Ninguno, Ninguno)
    end in
  let visualizadoresFinales :=
    filter (fun v => negb (includes editores v)) visualizadores in
  {| editores := editores;
     visualizadores := visualizadoresFinales;
     accesoPublico := fst enlace;
     accesoDominio := snd enlace |}.

Definition obtenerNivelAccesoUsuario (emailUsuario : string)
    (conjuntoPermisos : ConjuntoPermisos) : Nivel :=
  if includes (editores conjuntoPermisos) emailUsuario then Editor
  else if includes (visualizadores conjuntoPermisos) emailUsuario then Visualizador
  else Ninguno.

(** Lines 80-101 of [registrarDiferenciasPermisos]: the value of the flag
    [diferenciasDetectadas] when the rendering starts. *)
Definition diferenciasDetectadas (conjuntoPadre conjuntoHijo : ConjuntoPermisos) : bool :=
  let todosLosUsuarios :=
    Set_de (editores conjuntoPadre ++ visualizadores conjuntoPadre
            ++ editores conjuntoHijo ++ visualizadores conjuntoHijo) in
  let tras_usuarios :=
    fold_left
      (fun bandera usuario =>
         let accesoPadre := obtenerNivelAccesoUsuario usuario conjuntoPadre in
         let accesoHijo := obtenerNivelAccesoUsuario usuario conjuntoHijo in
         if negb (nivel_eqb accesoPadre accesoHijo) then true else bandera)
      todosLosUsuarios false in
  if negb (nivel_eqb (accesoPublico conjuntoPadre) (accesoPublico conjuntoHijo))
     || negb (nivel_eqb (accesoDominio conjuntoPadre) (accesoDominio conjuntoHijo))
  then true else tras_usuarios.

Definition SOLO_HERENCIA : string :=
  "Permisos solo por herencia (pero presenta diferencias en configuración de enlace)".

(** Lines 107-126: [listaUsuariosRoles] is filled by successive [push]
    calls and joined. *)
Definition listaUsuariosRoles (dominioOrganizacion : string)
    (conjuntoHijo : ConjuntoPermisos) : list string :=
  let l0 : list string := [] in
  let l1 :=
    if negb (nivel_eqb (accesoPublico conjuntoHijo) Ninguno)
    then l0 ++ ["Público (Cualquiera con enlace) - " +++ nivel_texto (accesoPublico conjuntoHijo)]
    else l0 in
  let l2 :=
    if negb (nivel_eqb (accesoDominio conjuntoHijo) Ninguno)
    then l1 ++ ["Dominio (" +++ dominioOrganizacion +++ ") - " +++ nivel_texto (accesoDominio conjuntoHijo)]
    else l1 in
  let l3 :=
    fold_left (fun l correo => l ++ [correo +++ " - Editor"]) (editores conjuntoHijo) l2 in
  fold_left (fun l correo => l ++ [correo +++ " - Visualizador"]) (visualizadores conjuntoHijo) l3.

Definition usuariosTexto (dominioOrganizacion : string)
    (conjuntoHijo : ConjuntoPermisos) : string :=
  let lista := listaUsuariosRoles dominioOrganizacion conjuntoHijo in
  if (0 <? List.length lista)%nat then join ", " lista else SOLO_HERENCIA.

(** How a call ends, with what it logged and the rows it appended. *)
Inductive Fin : Type := Normal | Lanza (e : Error).

Record Salida : Type := mkSalida {
  registrado : list string;
  anexadas : list Fila;
  fin : Fin
}.

(** The six formal parameters and the local declarations of
    [registrarDiferenciasPermisos]. *)
Definition locales_registrar : list string :=
  [ "conjuntoPadre"; "conjuntoHijo"; "ruta"; "url"; "tipoItem";
    "dominioOrganizacion"; "todosLosUsuarios"; "diferenciasDetectadas";
    "listaUsuariosRoles"; "usuariosTexto" ].

(** [registrarDiferenciasPermisos].  The row is appended through the
    identifier [hojaReporte], which is neither a parameter nor a local of
    the function: it is looked up in the enclosing (global) scope, and an
    unresolved identifier throws a [ReferenceError] where it is evaluated,
    after the log line and the rendering.  There is no [return]
    statement. *)
Definition registrarDiferenciasPermisos (conjuntoPadre conjuntoHijo : ConjuntoPermisos)
    (ruta url tipoItem dominioOrganizacion : string) : Salida :=
  if diferenciasDetectadas conjuntoPadre conjuntoHijo then
    let aviso := "-> Se encontraron diferencias de permisos en: " +++ ruta in
    let texto := usuariosTexto dominioOrganizacion conjuntoHijo in
    if resuelve locales_registrar "hojaReporte"
    then {| registrado := [aviso]; anexadas := [[ruta; url; tipoItem; texto]]; fin := Normal |}
    else {| registrado := [aviso]; anexadas := []; fin := Lanza (ReferenceError "hojaReporte") |}
  else {| registrado := []; anexadas := []; fin := Normal |}.

End API_Permisos.

(** ** The earlier single-file script (same logic, English names) *)
Module Legado.
Import API_Permisos.

(** The legacy permission object has the fields [editors], [viewers],
    [publicAccess], [domainAccess]; they are carried in the same record,
    in that order. *)
Definition getPermissionSet (driveFile : Elemento) : ConjuntoPermisos :=
  let editors :=
    match getEditors driveFile with
    | Some users => fold_left Set_add users []
    | None => []
    end in
  let viewers :=
    match getViewers driveFile with
    | Some users => fold_left Set_add users []
    | None => []
    end in
  let link :=
    match getSharingAccess driveFile, getSharingPermission driveFile with
    | Some sharingAccess, Some sharingPermission =>
        match sharingAccess with
        | ANYONE | ANYONE_WITH_LINK => (nivel_de_permiso sharingPermission, Ninguno)
        | DOMAIN | DOMAIN_WITH_LINK => (Ninguno, nivel_de_permiso sharingPermission)
        | PRIVATE => (Ninguno, Ninguno)
        end
    | _, _ => (Ninguno, Ninguno)
    end in
  let finalViewers := filter (fun v => negb (includes editors v)) viewers in
  mkConjunto editors finalViewers (fst link) (snd link).

Definition getAccess (userEmail : string) (permissionSet : ConjuntoPermisos) : Nivel :=
  if includes (editores permissionSet) userEmail then Editor
  else if includes (visualizadores permissionSet) userEmail then Visualizador
  else Ninguno.

Definition differencesFound (parentSet childSet : ConjuntoPermisos) : bool :=
  let allUsers :=
    Set_de (editores parentSet ++ visualizadores parentSet
            ++ editores childSet ++ visualizadores childSet) in
  let after_users :=
    fold_left
      (fun found user =>
         if negb (nivel_eqb (getAccess user parentSet) (getAccess user childSet))
         then true else found)
      allUsers false in
  if negb (nivel_eqb (accesoPublico parentSet) (accesoPublico childSet))
     || negb (nivel_eqb (accesoDominio parentSet) (accesoDominio childSet))
  then true else after_users.

Definition userList (domain : string) (childSet : ConjuntoPermisos) : string :=
  let u0 : list string := [] in
  let u1 :=
    if negb (nivel_eqb (accesoPublico childSet) Ninguno)
    then u0 ++ ["Público (Cualquiera con enlace) - " +++ nivel_texto (accesoPublico childSet)]
    else u0 in
  let u2 :=
    if negb (nivel_eqb (accesoDominio childSet) Ninguno)
    then u1 ++ ["Dominio (" +++ domain +++ ") - " +++ nivel_texto (accesoDominio childSet)]
    else u1 in
  let u3 := fold_left (fun l email => l ++ [email +++ " - Editor"]) (editores childSet) u2 in
  let usersWithRole :=
    fold_left (fun l email => l ++ [email +++ " - Visualizador"]) (visualizadores childSet) u3 in
  if (0 <? List.length usersWithRole)%nat
  then join ", " usersWithRole
  else "Permisos solo por herencia (pero con diferencias)".

(** [logDifferences]: here the sheet is the sixth parameter, so the row is
    appended to the sheet the caller passes. *)
Definition logDifferences (parentSet childSet : ConjuntoPermisos)
    (path url type domain : string) : Salida :=
  if differencesFound parentSet childSet then
    {| registrado := ["-> Se encontraron diferencias de permisos en: " +++ path];
       anexadas := [[path; url; type; userList domain childSet]];
       fin := Normal |}
  else {| registrado := []; anexadas := []; fin := Normal |}.

End Legado.

(** ** API_SalidaDrive.js *)
Module API_SalidaDrive.
Import Cfg_Constantes.

(** File ids are opaque to the script; the n-th spreadsheet the platform
    creates is identified by [n]. *)
Definition Id : Type := nat.

Definition decimal (z : Z) : string :=
  DecimalString.NilZero.string_of_int (Z.to_int z).

Record Libro : Type := mkLibro {
  nombreLibro : string;
  filas : list Fila;              (* rows of the first sheet *)
  cabeceraNegrita : bool;
  filasCongeladas : nat;
  ubicacion : option string       (* folder it was moved to; [None] = root *)
}.

Record Plataforma : Type := mkPlataforma {
  libros : list Libro;
  bitacora : list string          (* Logger *)
}.

Record EstadoSalida : Type := mkEstadoSalida {
  idSheet : option Id;            (* [None]: null, undefined or empty *)
  filaActual : Z;
  ramaNombre : string;
  parteActual : Z;
  idCarpetaRaiz : string
}.

(** Line 30: [!estadoActual.idSheet || estadoActual.filaActual >= LIMITE]. *)
Definition necesitaNuevaHoja (estadoActual : EstadoSalida) : bool :=
  match idSheet estadoActual with
  | None => true
  | Some _ => (LIMITE_FILAS_POR_HOJA_REPORTE <=? filaActual estadoActual)%Z
  end.

(** [appendRow] on the first sheet of a book. *)
Definition appendRow (fila : Fila) (l : Libro) : Libro :=
  {| nombreLibro := nombreLibro l;
     filas := filas l ++ [fila];
     cabeceraNegrita := cabeceraNegrita l;
     filasCongeladas := filasCongeladas l;
     ubicacion := ubicacion l |}.

(** Lines 38-52: [SpreadsheetApp.create], the header row in bold and
    frozen, and the move into the audit folder. *)
Definition nuevoLibro (nombreNuevoArchivo idCarpeta : string) : Libro :=
  let nuevoSpreadsheet :=
    {| nombreLibro := nombreNuevoArchivo; filas := [];
       cabeceraNegrita := false; filasCongeladas := 0; ubicacion := None |} in
  let m_sheet := appendRow CABECERAS_REPORTE_TECNICO nuevoSpreadsheet in
  {| nombreLibro := nombreLibro m_sheet;
     filas := filas m_sheet;
     cabeceraNegrita := true;
     filasCongeladas := 1;
     ubicacion := Some idCarpeta |}.

(** Lines 30-53: creation of the next part, taken to succeed. *)
Definition prepararHoja (p : Plataforma) (estadoActual : EstadoSalida)
    : Plataforma * EstadoSalida :=
  if necesitaNuevaHoja estadoActual then
    let parte := (parteActual estadoActual + 1)%Z in
    let nombreNuevoArchivo :=
      "Reporte - " +++ ramaNombre estadoActual +++ " (Parte " +++ decimal parte +++ ")" in
    let nuevoId : Id := List.length (libros p) in
    ({| libros := libros p ++ [nuevoLibro nombreNuevoArchivo (idCarpetaRaiz estadoActual)];
        bitacora := bitacora p |},
     {| idSheet := Some nuevoId;
        filaActual := 2;
        ramaNombre := ramaNombre estadoActual;
        parteActual := parte;
        idCarpetaRaiz := idCarpetaRaiz estadoActual |})
  else (p, estadoActual).

(** [openById(id).getSheets()[0].appendRow(fila)]. *)
Fixpoint anexarEn (id : Id) (fila : Fila) (ls : list Libro) : list Libro :=
  match ls, id with
  | [], _ => []
  | l :: resto, O => appendRow fila l :: resto
  | l :: resto, S id' => l :: anexarEn id' fila resto
  end.

(** What [openById] throws for an id the platform never issued. *)
Definition errorSinDocumento : Error := mkError "Exception" "Document is missing".

(** The outcome of lines 57-59 ([openById], [getSheets], [appendRow]):
    [Some e] when one of them throws [e], in which case no row is stored. *)
Definition intento (escritura : option Error) (p : Plataforma) (id : option Id)
    : option Error :=
  match escritura, id with
  | Some e, _ => Some e
  | None, Some i => if (i <? List.length (libros p))%nat then None else Some errorSinDocumento
  | None, None => Some errorSinDocumento
  end.

Definition textoId (id : option Id) : string :=
  match id with Some i => decimal (Z.of_nat i) | None => "null" end.

Definition volcarHallazgoAPaginacion (escritura : option Error) (p : Plataforma)
    (estadoActual : EstadoSalida) (datosFila : Fila) : Plataforma * EstadoSalida :=
  let '(p1, e1) := prepararHoja p estadoActual in
  match intento escritura p1 (idSheet e1) with
  | None =>
      ({| libros := anexarEn (match idSheet e1 with Some i => i | None => O end)
                             datosFila (libros p1);
          bitacora := bitacora p1 |},
       {| idSheet := idSheet e1;
          filaActual := (filaActual e1 + 1)%Z;
          ramaNombre := ramaNombre e1;
          parteActual := parteActual e1;
          idCarpetaRaiz := idCarpetaRaiz e1 |})
  | Some error =>
      ({| libros := libros p1;
          bitacora := bitacora p1 ++
            ["[DriverError] Fallo al insertar fila en la página " +++ textoId (idSheet e1)
             +++ " de rama " +++ ramaNombre e1 +++ ": " +++ message error] |},
       e1)
  end.

(** Successive calls, each on the state the previous one returned; every
    finding comes with the outcome of its append. *)
Fixpoint volcarHallazgos (hallazgos : list (option Error * Fila))
    (p : Plataforma) (estadoActual : EstadoSalida) : Plataforma * EstadoSalida :=
  match hallazgos with
  | [] => (p, estadoActual)
  | (escritura, datosFila) :: resto =>
      let '(p', e') := volcarHallazgoAPaginacion escritura p estadoActual datosFila in
      volcarHallazgos resto p' e'
  end.

(** The state before the first finding: no sheet yet, no part yet. *)
Definition estadoInicial (rama carpeta : string) (fila : Z) : EstadoSalida :=
  {| idSheet := None; filaActual := fila; ramaNombre := rama;
     parteActual := 0; idCarpetaRaiz := carpeta |}.

End API_SalidaDrive.

(** ** UI_Menu.js: the traversal *)
Module UI_Menu.
Import Cfg_Constantes API_Permisos.

(** *** The Drive tree as the loop sees it *)

Record Archivo : Type := mkArchivo {
  nombreArchivo : string;          (* getName() *)
  urlArchivo : string;             (* getUrl() *)
  permisosArchivo : Elemento
}.

Record SubCarpeta : Type := mkSubCarpeta {
  idSub : string;                  (* getId() *)
  nombreSub : string;
  urlSub : string
}.

(** A FileIterator / FolderIterator: the items it hands out and, when
    [falla] is [Some e], the error thrown by the call that follows them
    (by [getFiles()] / [getFolders()] itself when there are none). *)
Record Iterador (A : Type) : Type := mkIterador {
  entregados : list A;
  falla : option Error
}.
Arguments mkIterador {A}.
Arguments entregados {A}.
Arguments falla {A}.

Record Carpeta : Type := mkCarpeta {
  permisosCarpeta : Elemento;
  getFiles : Iterador Archivo;
  getFolders : Iterador SubCarpeta
}.

(** [DriveApp.getFolderById]: the folder, or the error it throws. *)
Definition Drive : Type := string -> Carpeta + Error.

(** *** The queue sheet *)

(** Column 4 of a queue row, by what [JSON.parse] makes of it: the text
    [JSON.stringify] wrote for a permission object, or a text that
    [JSON.parse] rejects with a SyntaxError of the given message. *)
Inductive Celda : Type :=
| CeldaJSON (c : ConjuntoPermisos)
| CeldaIlegible (texto detalle : string).

Definition JSON_stringify (c : ConjuntoPermisos) : Celda := CeldaJSON c.

Definition JSON_parse (c : Celda) : ConjuntoPermisos + Error :=
  match c with
  | CeldaJSON p => inl p
  | CeldaIlegible _ detalle => inr (SyntaxError detalle)
  end.

Record Entrada : Type := mkEntrada {
  idNode : string;
  rutaArmada : string;
  urlVisita : string;
  permisosCache : Celda;
  banderaRaiz : bool
}.

(** Operations on the queue sheet, in the order the loop performs them:
    reading row 2, writing rows after the last one, deleting row 2. *)
Inductive Evento : Type :=
| LeeFrente (e : Entrada)
| Encola (e : Entrada)
| BorraFrente (e : Entrada).

Inductive Alerta : Type := AlertaPausa | AlertaCompletada.

(** The two sheets (rows below the header), the Logger, the alerts shown,
    and two histories kept for the statements: the queue operations and
    the pairs handed to the comparison. *)
Record Estado : Type := mkEstado {
  hojaDeCola : list Entrada;
  hojaReporte : list Fila;
  registro : list string;
  alertas : list Alerta;
  traza : list Evento;
  comparadas : list (ConjuntoPermisos * ConjuntoPermisos)
}.

Definition conCola (q : list Entrada) (s : Estado) : Estado :=
  mkEstado q (hojaReporte s) (registro s) (alertas s) (traza s) (comparadas s).
Definition anexar (fs : list Fila) (s : Estado) : Estado :=
  mkEstado (hojaDeCola s) (hojaReporte s ++ fs) (registro s) (alertas s) (traza s) (comparadas s).
Definition anotar (ms : list string) (s : Estado) : Estado :=
  mkEstado (hojaDeCola s) (hojaReporte s) (registro s ++ ms) (alertas s) (traza s) (comparadas s).
Definition avisar (a : Alerta) (s : Estado) : Estado :=
  mkEstado (hojaDeCola s) (hojaReporte s) (registro s) (alertas s ++ [a]) (traza s) (comparadas s).
Definition eventos (evs : list Evento) (s : Estado) : Estado :=
  mkEstado (hojaDeCola s) (hojaReporte s) (registro s) (alertas s) (traza s ++ evs) (comparadas s).
Definition comparada (padre hijo : ConjuntoPermisos) (s : Estado) : Estado :=
  mkEstado (hojaDeCola s) (hojaReporte s) (registro s) (alertas s) (traza s)
           (comparadas s ++ [(padre, hijo)]).

(** The calls in this file pass seven arguments,
    [(padre, hijo, ruta, url, tipo, hojaReporte, dominioOrganizacion)], to
    the six-parameter [registrarDiferenciasPermisos]: its sixth formal,
    [dominioOrganizacion], receives the sheet object and the seventh
    actual is dropped.  This is the text the sheet object gives in a
    template literal. *)
Definition textoDeHoja : string := "Sheet".

(** The call itself, with what it leaves in the Logger, in the report and
    in the history of comparisons. *)
Definition llamarRegistrar (padre hijo : ConjuntoPermisos) (ruta url tipoItem : string)
    (s : Estado) : Estado * Fin :=
  let r := registrarDiferenciasPermisos padre hijo ruta url tipoItem textoDeHoja in
  (anexar (anexadas r) (anotar (registrado r) (comparada padre hijo s)), fin r).

(** Lines 269-277: one file of the folder. *)
Definition revisarDocumento (rutaArmada : string) (permisosEntidadLocal : ConjuntoPermisos)
    (s : Estado) (documentoSingular : Archivo) : Estado :=
  let senderoDocTexto := rutaArmada +++ "/" +++ nombreArchivo documentoSingular in
  let enlaceDocSalida := urlArchivo documentoSingular in
  let permisosDelDocumento := obtenerConjuntoPermisos (permisosArchivo documentoSingular) in
  match llamarRegistrar permisosEntidadLocal permisosDelDocumento
                        senderoDocTexto enlaceDocSalida "Documento Unitario" s with
  | (s1, Normal) => s1
  | (s1, Lanza errorlecturadoc) =>
      anexar [[senderoDocTexto; enlaceDocSalida; "Documento Unitario";
               "Alerta de Lectura en Permisología: " +++ message errorlecturadoc]] s1
  end.

(** Lines 266-281. *)
Definition revisarDocumentos (rutaArmada : string) (permisosEntidadLocal : ConjuntoPermisos)
    (listaDocumentosHijos : Iterador Archivo) (s : Estado) : Estado :=
  let s1 := fold_left (revisarDocumento rutaArmada permisosEntidadLocal)
                      (entregados listaDocumentosHijos) s in
  match falla listaDocumentosHijos with
  | None => s1
  | Some errorCargaFolders =>
      anotar ["Problematica al tirar Folders Hijos de Root Folder " +++ rutaArmada
              +++ ": " +++ message errorCargaFolders] s1
  end.

(** Lines 284-303: the rows written after the last row of the queue.  A
    throw while listing the subfolders skips [setValues] altogether. *)
Definition ramificacionesNuevasACola (rutaArmada : string)
    (permisosEntidadLocal : ConjuntoPermisos) (foldersDebajo : Iterador SubCarpeta)
    : list Entrada :=
  match falla foldersDebajo with
  | Some _ => []
  | None =>
      map (fun subSubFolder =>
             {| idNode := idSub subSubFolder;
                rutaArmada := rutaArmada +++ "/" +++ nombreSub subSubFolder;
                urlVisita := urlSub subSubFolder;
                permisosCache := JSON_stringify permisosEntidadLocal;
                banderaRaiz := false |})
          (entregados foldersDebajo)
  end.

Inductive Paso : Type :=
| Sigue (s : Estado)
| Aborta (s : Estado) (e : Error).

(** Lines 226-306: the body of the loop below the time check, on the row
    at the front of the queue. *)
Definition iteracion (drive : Drive) (s : Estado) : Paso :=
  match hojaDeCola s with
  | [] => Sigue s                    (* the loop condition excludes it *)
  | actual :: resto =>
    let s := eventos [LeeFrente actual] s in
    match JSON_parse (permisosCache actual) with
    | inr e =>
        let s := anotar ["JSON Crash parsing en caché fila ruta: " +++ rutaArmada actual
                         +++ ": Detalles JSON: " +++ message e] s in
        Sigue (eventos [BorraFrente actual] (conCola resto s))
    | inl permisosRecuperadosPadre =>
      match drive (idNode actual) with
      | inr errores_api =>
          let s := anotar ["Punto Ciego de Carpeta " +++ rutaArmada actual
                           +++ " (ID Cifrado: " +++ idNode actual
                           +++ "). Fallo Inaccesible vía API: "
                           +++ errNombre errores_api +++ ": " +++ message errores_api] s in
          let s := anexar [[rutaArmada actual; urlVisita actual; "Folder Ciego";
                            "ERROR API Carga: Restricción del propio Google sobre la ID oculta: "
                            +++ message errores_api]] s in
          Sigue (eventos [BorraFrente actual] (conCola resto s))
      | inl objetoCarpetaDrive =>
        let permisosEntidadLocal :=
          obtenerConjuntoPermisos (permisosCarpeta objetoCarpetaDrive) in
        let '(s, salida) :=
          if negb (banderaRaiz actual)
          then llamarRegistrar permisosRecuperadosPadre permisosEntidadLocal
                               (rutaArmada actual) (urlVisita actual) "Carpeta Plegable" s
          else (s, Normal) in
        match salida with
        | Lanza e => Aborta s e      (* not caught: the session ends here *)
        | Normal =>
          let s := revisarDocumentos (rutaArmada actual) permisosEntidadLocal
                                     (getFiles objetoCarpetaDrive) s in
          let nuevas := ramificacionesNuevasACola (rutaArmada actual) permisosEntidadLocal
                                                  (getFolders objetoCarpetaDrive) in
          let s := eventos (map Encola nuevas) (conCola (hojaDeCola s ++ nuevas) s) in
          Sigue (eventos [BorraFrente actual] (conCola (tl (hojaDeCola s)) s))
        end
      end
    end
  end.

Inductive Resultado : Type :=
| Pausada (s : Estado)
| Completada (s : Estado)
| Fallida (s : Estado) (e : Error)
| SinLecturas (s : Estado).        (* the model ran out of clock readings *)

(** Lines 217-316.  [lecturas] are the successive values of
    [new Date().getTime()] at the top of the loop. *)
Fixpoint bucle (drive : Drive) (tiempoEmpezadoMS : Z) (lecturas : list Z)
    (s : Estado) : Resultado :=
  match hojaDeCola s with
  | [] =>
      Completada
        (avisar AlertaCompletada
           (anotar ["Procesamiento completado y analizado en su totalidad del árbol.";
                    "Estado limpiado desde interfaz."] s))
  | _ :: _ =>
      match lecturas with
      | [] => SinLecturas s
      | milisegundosMarcador :: lecturas' =>
          if (TIEMPO_MAXIMO_EJECUCION_MS <? milisegundosMarcador - tiempoEmpezadoMS)%Z
          then Pausada (avisar AlertaPausa s)
          else
            match iteracion drive s with
            | Sigue s' => bucle drive tiempoEmpezadoMS lecturas' s'
            | Aborta s' e => Fallida s' e
            end
      end
  end.

(** [continuarAuditoria] once both sheets are found: the first clock
    reading is [tiempoEmpezadoMS]. *)
Definition continuarAuditoria (drive : Drive) (reloj : list Z) (s : Estado) : Resultado :=
  match reloj with
  | [] => SinLecturas s
  | tiempoEmpezadoMS :: lecturas => bucle drive tiempoEmpezadoMS lecturas s
  end.

(** Lines 177-185 of [iniciarAuditoria]: the only row of a new queue. *)
Definition colaInicial (idRaiz nombreDrive urlRaizDrive : string)
    (carpetaRaizDrive : Elemento) : list Entrada :=
  [ {| idNode := idRaiz;
       rutaArmada := nombreDrive;
       urlVisita := urlRaizDrive;
       permisosCache := JSON_stringify (obtenerConjuntoPermisos carpetaRaizDrive);
       banderaRaiz := true |} ].

(** [k] whole iterations, none of which throws. *)
Fixpoint iterar (drive : Drive) (k : nat) (s : Estado) : option Estado :=
  match k with
  | O => Some s
  | S k' =>
      match hojaDeCola s with
      | [] => None
      | _ :: _ =>
          match iteracion drive s with
          | Sigue s' => iterar drive k' s'
          | Aborta _ _ => None
          end
      end
  end.

End UI_Menu.

(** ** UI_Menu.js: the menu entry points on the spreadsheet *)
Module UI_Sesion.
Import Cfg_Constantes API_Permisos UI_Menu.

(** *** The spreadsheet and the dialogs *)

(** The remedy an access failure is shown with (lines 166-172). *)
Inductive Remedio : Type := HabilitarDriveAPI | PedirAdministrador | SinRemedio.

(** The dialogs of [ui.alert], by the line that shows them. *)
Inductive Aviso : Type :=
| AvisoEstadoLimpiado                                   (* line 50 *)
| AvisoCancelada                                        (* line 67 *)
| AvisoFalla (detalleFalla : string) (remedio : Remedio) (* lines 167-171 *)
| AvisoMotorInicializado                                (* line 187 *)
| AvisoSinCola                                          (* line 204 *)
| AvisoSinReporte                                       (* line 210 *)
| AvisoDelBucle (a : Alerta).                           (* lines 222 and 315 *)

(** The active spreadsheet with what the script keeps beside it: the sheet
    [Queue_STATE] (its rows below the header; [None] when there is no such
    sheet), the sheet [Reporte de Permisos] (all its rows), whether the
    legacy script property is set, the Logger, the dialogs shown, and the
    two histories of the loop. *)
Record HojaCalculo : Type := mkHojaCalculo {
  ssCola : option (list Entrada);
  ssReporte : option (list Fila);
  ssLegado : bool;
  ssRegistro : list string;
  ssAvisos : list Aviso;
  ssTraza : list Evento;
  ssComparadas : list (ConjuntoPermisos * ConjuntoPermisos)
}.

Definition alertar (a : Aviso) (ss : HojaCalculo) : HojaCalculo :=
  mkHojaCalculo (ssCola ss) (ssReporte ss) (ssLegado ss) (ssRegistro ss)
                (ssAvisos ss ++ [a]) (ssTraza ss) (ssComparadas ss).

(** How a menu action ends: without running the loop, or as the loop did. *)
Inductive Desenlace : Type :=
| SinSesion
| Pauso
| Completo
| Fallo (e : Error)
| SinReloj.                       (* the model ran out of clock readings *)

(** [limpiarEstadoAuditoria]: the queue sheet is deleted when it exists, the
    legacy property is deleted, and the dialog is skipped when
    [silencioso]. *)
Definition limpiarEstadoAuditoria (silencioso : bool) (ss : HojaCalculo) : HojaCalculo :=
  {| ssCola := None;
     ssReporte := ssReporte ss;
     ssLegado := false;
     ssRegistro := ssRegistro ss ++ ["Estado limpiado desde interfaz."];
     ssAvisos := ssAvisos ss ++ (if negb silencioso then [AvisoEstadoLimpiado] else []);
     ssTraza := ssTraza ss;
     ssComparadas := ssComparadas ss |}.

(** The sheets as the loop leaves them.  On completion
    [limpiarEstadoAuditoria(true)] has deleted the queue sheet and the legacy
    property (its log line and the final dialog are already in the state of
    the loop). *)
Definition trasElBucle (ss : HojaCalculo) (r : Resultado) : HojaCalculo * Desenlace :=
  let guardar (cola : option (list Entrada)) (legado : bool) (s : Estado) :=
    {| ssCola := cola;
       ssReporte := Some (hojaReporte s);
       ssLegado := legado;
       ssRegistro := registro s;
       ssAvisos := ssAvisos ss ++ map AvisoDelBucle (alertas s);
       ssTraza := traza s;
       ssComparadas := comparadas s |} in
  match r with
  | Pausada s => (guardar (Some (hojaDeCola s)) (ssLegado ss) s, Pauso)
  | Completada s => (guardar None false s, Completo)
  | Fallida s e => (guardar (Some (hojaDeCola s)) (ssLegado ss) s, Fallo e)
  | SinLecturas s => (guardar (Some (hojaDeCola s)) (ssLegado ss) s, SinReloj)
  end.

(** [continuarAuditoria] from the menu (lines 196-316): the clock is read
    first, then the two sheets are looked up. *)
Definition continuarAuditoria (drive : Drive) (reloj : list Z) (ss : HojaCalculo)
    : HojaCalculo * Desenlace :=
  match reloj with
  | [] => (ss, SinReloj)
  | tiempoEmpezadoMS :: lecturas =>
      match ssCola ss with
      | None => (alertar AvisoSinCola ss, SinSesion)
      | Some hojaDeCola =>
          match ssReporte ss with
          | None => (alertar AvisoSinReporte ss, SinSesion)
          | Some hojaReporte =>
              trasElBucle ss
                (bucle drive tiempoEmpezadoMS lecturas
                   (mkEstado hojaDeCola hojaReporte (ssRegistro ss) []
                             (ssTraza ss) (ssComparadas ss)))
          end
      end
  end.

(** *** The summary of the root permissions *)

(** [role] of a Drive permission resource. *)
Inductive Rol : Type := owner | organizer | fileOrganizer | writer | commenter | reader.

Definition rol_texto (r : Rol) : string :=
  match r with
  | owner => "owner" | organizer => "organizer" | fileOrganizer => "fileOrganizer"
  | writer => "writer" | commenter => "commenter" | reader => "reader"
  end.

(** A permission resource as [Drive.Permissions.list] returns it with the
    fields asked for; an absent field is [None], and [permissionDetails]
    holds the [inherited] flag of each detail. *)
Record Permiso : Type := mkPermiso {
  id : string;
  emailAddress : option string;
  role : Rol;
  type : string;
  domain : option string;
  permissionDetails : option (list bool)
}.

(** [toUpperCase] on one ASCII character. *)
Definition toUpperCase (c : ascii) : ascii :=
  if (Ascii.leb "a" c && Ascii.leb c "z")%bool
  then ascii_of_nat (nat_of_ascii c - 32) else c.

(** [s.charAt(0).toUpperCase() + s.slice(1)]. *)
Definition capitalizar (s : string) : string :=
  match s with
  | EmptyString => EmptyString
  | String c resto => String (toUpperCase c) resto
  end.

(** [x || y] on a possibly absent string, and [${x}]. *)
Definition o_bien (x : option string) (y : string) : string :=
  match x with
  | Some s => if String.eqb s "" then y else s
  | None => y
  end.

Definition plantilla (x : option string) : string :=
  match x with Some s => s | None => "undefined" end.

(** Line 120: the permission comes from outside the drive. *)
Definition heredado (permiso : Permiso) : bool :=
  match permissionDetails permiso with
  | Some (inherited :: _) => inherited
  | _ => false
  end.

Definition denominacionRol (permiso : Permiso) : string :=
  capitalizar (rol_texto (role permiso)).

(** Lines 125-137. *)
Definition textoRepresentativo (permiso : Permiso) : option string :=
  if String.eqb (type permiso) "user" then emailAddress permiso
  else if String.eqb (type permiso) "group" then
    Some (o_bien (emailAddress permiso)
                 ("Mailing List/Grupo (ID: " +++ id permiso +++ ")"))
  else if String.eqb (type permiso) "anyone" then
    Some "Extranjero Público (Persona anónima)"
  else if String.eqb (type permiso) "domain" then
    Some ("Colaboradores del Dominio (" +++ o_bien (domain permiso) "Dominio interno" +++ ")")
  else Some (type permiso +++ " (ID Sistema: " +++ id permiso +++ ")").

(** The object [directorioRoles]: its keys in insertion order, which is the
    order [for ... in] visits them, each with its array. *)
Definition Directorio : Type := list (string * list (option string)).

(** Lines 139-142: create the array of the role if there is none, push. *)
Fixpoint anotarEnRol (denominacion : string) (texto : option string) (d : Directorio)
    : Directorio :=
  match d with
  | [] => [(denominacion, [] ++ [texto])]
  | (clave, textos) :: resto =>
      if String.eqb clave denominacion
      then (clave, textos ++ [texto]) :: resto
      else (clave, textos) :: anotarEnRol denominacion texto resto
  end.

(** Lines 118-143. *)
Definition directorioRoles (permisos : list Permiso) : Directorio :=
  fold_left
    (fun d permiso =>
       if heredado permiso then d
       else anotarEnRol (denominacionRol permiso) (textoRepresentativo permiso) d)
    permisos [].

(** Lines 114-157: the rows written below the header when the three API
    calls have succeeded. *)
Definition filasDeLaRaiz (nombreDrive urlRaizDrive : string)
    (permissions : option (list Permiso)) : list Fila :=
  [[nombreDrive; urlRaizDrive; "Unidad Compartida (Raíz/Nivel 0)";
    "--- Base Analizada de Todos los Permisos ---"]]
  ++ (match permissions with
      | Some (p :: ps) =>
          map (fun par =>
                 [nombreDrive; urlRaizDrive; "Permisos Glob. " +++ fst par;
                  join ", " (map (fun correoAsignado =>
                                    plantilla correoAsignado +++ " - [" +++ fst par +++ "]")
                                 (snd par))])
              (directorioRoles (p :: ps))
      | _ =>
          [[nombreDrive; urlRaizDrive; "Unidad (Raíz Padre)";
            "Drive Limpio - Carece de permisos asignados explícitamente a este nivel."]]
      end)
  ++ [["---"; "---"; "---"; "---"];
      ["(Búsqueda de Profundidad) Componentes con esquemas de acceso distintos a su estructura Padre superior:"];
      ["---"; "---"; "---"; "---"]].

(** *** Starting an audit *)

(** [ui.Button]. *)
Inductive Button : Type := OK | CANCEL | CLOSE | YES | NO.

Record PromptResponse : Type := mkPromptResponse {
  getSelectedButton : Button;
  getResponseText : string
}.

(** The root folder as [iniciarAuditoria] uses it. *)
Record CarpetaRaiz : Type := mkCarpetaRaiz {
  comoCarpeta : Carpeta;
  getId : string;
  getUrl : string
}.

(** The calls of step 4: [Drive.Drives.get(id).name],
    [DriveApp.getFolderById(id)] and [Drive.Permissions.list(id).permissions]
    (possibly absent), each with the error it may throw. *)
Record ApiDrive : Type := mkApiDrive {
  Drives_get : string -> string + Error;
  getFolderById : string -> CarpetaRaiz + Error;
  Permissions_list : string -> option (list Permiso) + Error
}.

(** [DriveApp.getFolderById] as the loop uses it. *)
Definition driveDe (api : ApiDrive) : Drive :=
  fun idNode =>
    match getFolderById api idNode with
    | inl c => inl (comoCarpeta c)
    | inr e => inr e
    end.

(** [texto.includes(fragmento)]. *)
Definition contiene (texto fragmento : string) : bool :=
  match String.index 0 fragmento texto with
  | Some _ => true
  | None => false
  end.

Definition cabecerasReporte : Fila :=
  ["Ruta Escaneada"; "Enlace"; "Tipo (Doc/Folder)"; "Usuarios Encontrados (Roles)"].

(** The [try] block of step 4 up to the first row it writes: the name, the
    root folder and the permissions, or the first error thrown. *)
Definition consultarRaiz (api : ApiDrive) (idUnidadDrive : string)
    : (string * CarpetaRaiz * option (list Permiso)) + Error :=
  match Drives_get api idUnidadDrive with
  | inr error => inr error
  | inl nombreDrive =>
      match getFolderById api idUnidadDrive with
      | inr error => inr error
      | inl carpetaRaizDrive =>
          match Permissions_list api idUnidadDrive with
          | inr error => inr error
          | inl permisos => inl (nombreDrive, carpetaRaizDrive, permisos)
          end
      end
  end.

(** [iniciarAuditoria] (lines 57-190).  [trim] is [String.prototype.trim];
    [reloj] is the clock of the session started at the end. *)
Definition iniciarAuditoria (trim : string -> string) (api : ApiDrive)
    (respuestaUsuario : PromptResponse) (reloj : list Z) (ss : HojaCalculo)
    : HojaCalculo * Desenlace :=
  let ss := limpiarEstadoAuditoria true ss in
  if negb (match getSelectedButton respuestaUsuario with OK => true | _ => false end)
     || String.eqb (getResponseText respuestaUsuario) ""
  then (alertar AvisoCancelada ss, SinSesion)
  else
    let idUnidadDrive := trim (getResponseText respuestaUsuario) in
    (* the report sheet is cleared or inserted, the queue sheet inserted;
       each gets its header *)
    let hojaReporte := [] ++ [cabecerasReporte] in
    let hojaDeCola : list Entrada := [] in
    match consultarRaiz api idUnidadDrive with
    | inr error =>
        let detalleFalla :=
          "La conexión con dicha base/unidad Drive falló (ID de Drive proporcionado rechazado). Error de sistema: "
          +++ message error in
        ({| ssCola := Some hojaDeCola;
            ssReporte :=
              Some (hojaReporte ++ [[idUnidadDrive; "ERROR DE CRITICIDAD";
                                     "Problema de Acceso"; detalleFalla]]);
            ssLegado := ssLegado ss;
            ssRegistro := ssRegistro ss ++
              ["API Bloqueada/Falló de forma prematura en acceso central: " +++ message error];
            ssAvisos := ssAvisos ss ++
              [AvisoFalla detalleFalla
                 (if contiene (message error) "Drive API has not been used"
                  then HabilitarDriveAPI
                  else if contiene (message error) "Forbidden"
                       then PedirAdministrador else SinRemedio)];
            ssTraza := ssTraza ss;
            ssComparadas := ssComparadas ss |},
         SinSesion)
    | inl (nombreDrive, carpetaRaizDrive, permisos) =>
        let urlRaizDrive := getUrl carpetaRaizDrive in
        continuarAuditoria (driveDe api) reloj
          {| ssCola :=
               Some (hojaDeCola ++
                     colaInicial (getId carpetaRaizDrive) nombreDrive urlRaizDrive
                                 (permisosCarpeta (comoCarpeta carpetaRaizDrive)));
             ssReporte := Some (hojaReporte ++ filasDeLaRaiz nombreDrive urlRaizDrive permisos);
             ssLegado := ssLegado ss;
             ssRegistro := ssRegistro ss;
             ssAvisos := ssAvisos ss ++ [AvisoMotorInicializado];
             ssTraza := ssTraza ss;
             ssComparadas := ssComparadas ss |}
    end.

End UI_Sesion.

(** ** The legacy script: [processQueue] *)

(** The queue sheet of the legacy script has the same five columns.  In
    this module a cell [CeldaJSON c] stands for the text the legacy
    [JSON.stringify] writes for its own object, whose keys [editors],
    [viewers], [publicAccess], [domainAccess] carry the four facets of [c];
    it is the legacy loop reading the rows the legacy script wrote. *)
Module Legado_Cola.
Import API_Permisos UI_Menu.

Definition MAX_RUNTIME_MS : Z := 20 * 60 * 1000.

(** A call of [logDifferences] with the report sheet as its sixth
    argument: what it leaves in the Logger, in the report and in the
    history of comparisons.  It returns normally. *)
Definition llamarLogDifferences (parentSet childSet : ConjuntoPermisos)
    (path url type domain : string) (s : Estado) : Estado :=
  let r := Legado.logDifferences parentSet childSet path url type domain in
  anexar (anexadas r) (anotar (registrado r) (comparada parentSet childSet s)).

(** One file of the folder.  Neither [getPermissionSet] nor
    [logDifferences] throws, so the [catch] around them is not entered. *)
Definition procesarArchivo (path : string) (currentPermissions : ConjuntoPermisos)
    (domain : string) (s : Estado) (file : Archivo) : Estado :=
  let filePath := path +++ "/" +++ nombreArchivo file in
  let fileUrl := urlArchivo file in
  let filePermissions := Legado.getPermissionSet (permisosArchivo file) in
  llamarLogDifferences currentPermissions filePermissions filePath fileUrl "Archivo" domain s.

(** Step 4 of the loop. *)
Definition procesarArchivos (path : string) (currentPermissions : ConjuntoPermisos)
    (domain : string) (files : Iterador Archivo) (s : Estado) : Estado :=
  let s1 := fold_left (procesarArchivo path currentPermissions domain)
                      (entregados files) s in
  match falla files with
  | None => s1
  | Some e => anotar ["Error al obtener archivos en " +++ path +++ ": " +++ message e] s1
  end.

(** Step 5 of the loop: the rows written after the last row of the queue;
    a throw while listing skips [setValues]. *)
Definition newRows (path : string) (currentPermissions : ConjuntoPermisos)
    (subFolders : Iterador SubCarpeta) : list Entrada :=
  match falla subFolders with
  | Some _ => []
  | None =>
      map (fun subFolder =>
             {| idNode := idSub subFolder;
                rutaArmada := path +++ "/" +++ nombreSub subFolder;
                urlVisita := urlSub subFolder;
                permisosCache := JSON_stringify currentPermissions;
                banderaRaiz := false |})
          (entregados subFolders)
  end.

(** The body of the loop below the time check, on the row at the front of
    the queue.  The columns of the row are those of [Entrada]: id, path,
    url, parentPerms, isRoot. *)
Definition iteracion (drive : Drive) (domain : string) (s : Estado) : Estado :=
  match hojaDeCola s with
  | [] => s                          (* the loop condition excludes it *)
  | values :: resto =>
    let s := eventos [LeeFrente values] s in
    match JSON_parse (permisosCache values) with
    | inr e =>
        let s := anotar ["Error al parsear JSON de permisos para " +++ rutaArmada values
                         +++ ": " +++ message e] s in
        eventos [BorraFrente values] (conCola resto s)
    | inl parentPerms =>
      match drive (idNode values) with
      | inr e =>
          let s := anotar ["No se pudo acceder a la carpeta " +++ rutaArmada values
                           +++ " (ID: " +++ idNode values
                           +++ "). Omitiendo. Error: "
                           +++ errNombre e +++ ": " +++ message e] s in
          let s := anexar [[rutaArmada values; urlVisita values; "Carpeta";
                            "ERROR: No se pudo acceder. " +++ message e]] s in
          eventos [BorraFrente values] (conCola resto s)
      | inl currentFolder =>
        let s := anotar ["Procesando: " +++ rutaArmada values] s in
        let currentPermissions := Legado.getPermissionSet (permisosCarpeta currentFolder) in
        let s :=
          if negb (banderaRaiz values)
          then llamarLogDifferences parentPerms currentPermissions
                                    (rutaArmada values) (urlVisita values) "Carpeta" domain s
          else s in
        let s := procesarArchivos (rutaArmada values) currentPermissions domain
                                  (getFiles currentFolder) s in
        let nuevas := newRows (rutaArmada values) currentPermissions
                              (getFolders currentFolder) in
        let s := eventos (map Encola nuevas) (conCola (hojaDeCola s ++ nuevas) s) in
        let s :=
          match falla (getFolders currentFolder) with
          | None => s
          | Some e => anotar ["Error al obtener carpetas en " +++ rutaArmada values
                              +++ ": " +++ message e] s
          end in
        eventos [BorraFrente values] (conCola (tl (hojaDeCola s)) s)
      end
    end
  end.

(** The loop of [processQueue] and its end.  [lecturas] are the successive
    values of [new Date().getTime()] at the top of the loop; the two
    dialogs are the ones of the pause and of the completion. *)
Fixpoint bucle (drive : Drive) (domain : string) (startTime : Z) (lecturas : list Z)
    (s : Estado) : Resultado :=
  match hojaDeCola s with
  | [] =>
      Completada
        (avisar AlertaCompletada
           (anotar ["Procesamiento completado."; "Estado limpiado."] s))
  | _ :: _ =>
      match lecturas with
      | [] => SinLecturas s
      | currentTime :: lecturas' =>
          if (MAX_RUNTIME_MS <? currentTime - startTime)%Z
          then Pausada (avisar AlertaPausa s)
          else bucle drive domain startTime lecturas' (iteracion drive domain s)
      end
  end.

(** Step 5 of [startAudit]: the only row of a new queue, with the cell
    [JSON.stringify] writes for the legacy object of the root. *)
Definition colaInicial (idRaiz driveName rootUrl : string) (rootFolder : Elemento)
    : list Entrada :=
  [ {| idNode := idRaiz;
       rutaArmada := driveName;
       urlVisita := rootUrl;
       permisosCache := JSON_stringify (Legado.getPermissionSet rootFolder);
       banderaRaiz := true |} ].

(** [processQueue] once both sheets are found. *)
Definition processQueue (drive : Drive) (domain : string) (reloj : list Z) (s : Estado)
    : Resultado :=
  match reloj with
  | [] => SinLecturas s
  | startTime :: lecturas => bucle drive domain startTime lecturas s
  end.

End Legado_Cola.

(** * Vocabulary of the statements *)
Section Vocabulario.
Import Cfg_Constantes API_Permisos UI_Menu API_SalidaDrive.

(** Last character of a string. *)
Fixpoint ultimo (s : string) : option ascii :=
  match s with
  | EmptyString => None
  | String c EmptyString => Some c
  | String _ s' => ultimo s'
  end.

(** [editores ∩ visualizadores = ∅]. *)
Definition disjuntos (c : ConjuntoPermisos) : Prop :=
  forall x, In x (editores c) -> ~ In x (visualizadores c).

(** The e-mail addresses a facet read returned (none when it threw). *)
Definition leidos (faceta : option (list string)) : list string :=
  match faceta with Some l => l | None => [] end.

(** Divergence as the comparison is specified: some identity of the union
    has different access on the two sides, or the public or the domain
    level differs. *)
Definition divergen (P C : ConjuntoPermisos) : Prop :=
  (exists u, In u (editores P ++ visualizadores P ++ editores C ++ visualizadores C)
             /\ obtenerNivelAccesoUsuario u P <> obtenerNivelAccesoUsuario u C)
  \/ accesoPublico P <> accesoPublico C
  \/ accesoDominio P <> accesoDominio C.

(** The rendering, as the comparison is specified: public access, domain
    access, every editor, every viewer, each with its level; the fixed
    sentence when there is nothing to list. *)
Definition entradas_segun_spec (dominio : string) (hijo : ConjuntoPermisos) : list string :=
  (match accesoPublico hijo with
   | Ninguno => []
   | n => ["Público (Cualquiera con enlace) - " +++ nivel_texto n]
   end)
  ++ (match accesoDominio hijo with
      | Ninguno => []
      | n => ["Dominio (" +++ dominio +++ ") - " +++ nivel_texto n]
      end)
  ++ map (fun correo => correo +++ " - " +++ nivel_texto Editor) (editores hijo)
  ++ map (fun correo => correo +++ " - " +++ nivel_texto Visualizador) (visualizadores hijo).

Definition texto_segun_spec (dominio : string) (hijo : ConjuntoPermisos) : string :=
  match entradas_segun_spec dominio hijo with
  | [] => SOLO_HERENCIA
  | entradas => join ", " entradas
  end.

Definition sin_acceso_propio (hijo : ConjuntoPermisos) : Prop :=
  editores hijo = [] /\ visualizadores hijo = []
  /\ accesoPublico hijo = Ninguno /\ accesoDominio hijo = Ninguno.

(** A finding whose append succeeds. *)
Definition escrita (f : Fila) : option Error * Fila := (None, f).

(** Data rows one part takes: the limit less the header row and less one,
    the row pointer being compared with [>=]. *)
Definition filas_por_parte : nat := Z.to_nat (LIMITE_FILAS_POR_HOJA_REPORTE - 2).

(** Platform and state without the Logger. *)
Definition sin_bitacora (r : Plataforma * EstadoSalida) : list Libro * EstadoSalida :=
  (libros (fst r), snd r).

Definition conFilaActual (z : Z) (e : EstadoSalida) : EstadoSalida :=
  {| idSheet := idSheet e; filaActual := z; ramaNombre := ramaNombre e;
     parteActual := parteActual e; idCarpetaRaiz := idCarpetaRaiz e |}.

Definition conFilas (fs : list Fila) (l : Libro) : Libro :=
  {| nombreLibro := nombreLibro l; filas := fs; cabeceraNegrita := cabeceraNegrita l;
     filasCongeladas := filasCongeladas l; ubicacion := ubicacion l |}.

(** The rows an entry sends to the back of the queue when it is visited:
    one per subfolder, none when its cell is unreadable, its folder cannot be
    opened or the listing of subfolders throws. *)
Definition hijos (drive : Drive) (e : Entrada) : list Entrada :=
  match JSON_parse (permisosCache e) with
  | inr _ => []
  | inl _ =>
      match drive (idNode e) with
      | inr _ => []
      | inl carpeta =>
          ramificacionesNuevasACola (rutaArmada e)
            (obtenerConjuntoPermisos (permisosCarpeta carpeta)) (getFolders carpeta)
      end
  end.

(** The queue operations of one whole visit. *)
Definition bloque (drive : Drive) (e : Entrada) : list Evento :=
  LeeFrente e :: map Encola (hijos drive e) ++ [BorraFrente e].

(** Level order from a list of pending entries, [n] levels deep. *)
Fixpoint por_niveles (drive : Drive) (n : nat) (q : list Entrada) : list Entrada :=
  match n with
  | O => []
  | S n' =>
      match q with
      | [] => []
      | _ :: _ => q ++ por_niveles drive n' (flat_map (hijos drive) q)
      end
  end.

Definition estado_final (r : Resultado) : Estado :=
  match r with
  | Pausada s | Completada s | Fallida s _ | SinLecturas s => s
  end.





(** The state a step leaves, whether it returns or throws. *)
Definition tras_paso (p : Paso) : Estado :=
  match p with Sigue s | Aborta s _ => s end.

(** Two arrays with the same elements, whatever the order and the
    repetitions. *)
Definition mismos (l1 l2 : list string) : Prop :=
  forall x, In x l1 <-> In x l2.

(** The rows deleted from the front of the queue and the rows written at
    its back, in the order of the history. *)
Definition borradas (tr : list Evento) : list Entrada :=
  flat_map (fun ev => match ev with BorraFrente e => [e] | _ => [] end) tr.

Definition encoladas (tr : list Evento) : list Entrada :=
  flat_map (fun ev => match ev with Encola e => [e] | _ => [] end) tr.

(** Two states that differ at most in the alerts shown. *)
Definition salvo_alertas (a b : Estado) : Prop :=
  hojaDeCola a = hojaDeCola b /\ hojaReporte a = hojaReporte b
  /\ registro a = registro b /\ traza a = traza b /\ comparadas a = comparadas b.

(** The operator resuming after every pause: each session has its own
    clock ([tiempoEmpezadoMS] and the readings at the top of the loop) and
    starts on the sheets the previous one left. *)
Fixpoint reanudar (drive : Drive) (relojes : list (Z * list Z)) (s : Estado) : Resultado :=
  match relojes with
  | [] => SinLecturas s
  | (tiempoEmpezadoMS, lecturas) :: resto =>
      match bucle drive tiempoEmpezadoMS lecturas s with
      | Pausada s' => reanudar drive resto s'
      | r => r
      end
  end.

(** A change of state carried through the outcome of a visit. *)
Definition paso_con (f : Estado -> Estado) (p : Paso) : Paso :=
  match p with
  | Sigue s => Sigue (f s)
  | Aborta s e => Aborta (f s) e
  end.

(** The data rows of a part: all but the header row. *)
Definition datos (l : Libro) : list Fila := tl (filas l).

(** The findings whose append succeeded, in the order written. *)
Definition fue_escrita (h : option Error * Fila) : bool :=
  match fst h with None => true | Some _ => false end.

Definition exitosas (hallazgos : list (option Error * Fila)) : list Fila :=
  map snd (filter fue_escrita hallazgos).

(** A part starts with the header row and stays below the limit; a closed
    part has one row less than the limit. *)
Definition parte_ok (l : Libro) : Prop :=
  hd_error (filas l) = Some CABECERAS_REPORTE_TECNICO
  /\ (Z.of_nat (List.length (filas l)) < LIMITE_FILAS_POR_HOJA_REPORTE)%Z.

Definition parte_llena (l : Libro) : Prop :=
  Z.of_nat (List.length (filas l)) = (LIMITE_FILAS_POR_HOJA_REPORTE - 1)%Z.

(** What holds between two writes: the parts created so far ([nuevos],
    after the books that were there), the rows they hold, the log, and the
    state pointing at the last part with [filaActual] one past its rows. *)
Definition Inv_salida (previos : list Libro) (escritos : list Fila) (fallos : nat)
    (p : Plataforma) (e : EstadoSalida) : Prop :=
  exists nuevos,
    libros p = previos ++ nuevos
    /\ List.concat (map datos nuevos) = escritos
    /\ Forall parte_ok nuevos
    /\ Forall parte_llena (removelast nuevos)
    /\ parteActual e = Z.of_nat (List.length nuevos)
    /\ List.length (bitacora p) = fallos
    /\ match idSheet e with
       | None => nuevos = []
       | Some i =>
           exists ls l, nuevos = ls ++ [l]
                        /\ i = (List.length previos + List.length ls)%nat
                        /\ filaActual e = (Z.of_nat (List.length (filas l)) + 1)%Z
       end.

(** The summary of the root, said directly: the permissions that are not
    inherited, one entry per role among them in order of first appearance,
    each role with the texts of its permissions in the order listed. *)
Definition propios (permisos : list UI_Sesion.Permiso) : list UI_Sesion.Permiso :=
  filter (fun p => negb (UI_Sesion.heredado p)) permisos.

Definition agrupar_por_rol (ps : list UI_Sesion.Permiso) : UI_Sesion.Directorio :=
  map (fun clave =>
         (clave,
          map UI_Sesion.textoRepresentativo
              (filter (fun p => String.eqb (UI_Sesion.denominacionRol p) clave) ps)))
      (Set_de (map UI_Sesion.denominacionRol ps)).

(** [s'] has everything [s] has in the report, the Logger, the alerts and
    the two histories, in the same places, and possibly more after it. *)
Definition extiende (s s' : Estado) : Prop :=
  (exists x, hojaReporte s' = hojaReporte s ++ x)
  /\ (exists x, registro s' = registro s ++ x)
  /\ (exists x, alertas s' = alertas s ++ x)
  /\ (exists x, traza s' = traza s ++ x)
  /\ (exists x, comparadas s' = comparadas s ++ x).

(** Two states of the traversal with the same queue sheet, the same queue
    operations so far and the same comparisons so far. *)
Definition mismo_recorrido (s s2 : Estado) : Prop :=
  hojaDeCola s = hojaDeCola s2 /\ traza s = traza s2 /\ comparadas s = comparadas s2.

(** Two sessions that end the same way on the same traversal. *)
Definition mismo_desenlace (r r2 : Resultado) : Prop :=
  match r, r2 with
  | Pausada a, Pausada b | Completada a, Completada b | SinLecturas a, SinLecturas b =>
      mismo_recorrido a b
  | _, _ => False
  end.

(** The comparisons that found a divergence, and the rows deleted from the
    queue whose folder could not be opened. *)
Definition divergentes (l : list (ConjuntoPermisos * ConjuntoPermisos)) : nat :=
  List.length (filter (fun par => Legado.differencesFound (fst par) (snd par)) l).

Definition ciega (drive : Drive) (ev : Evento) : bool :=
  match ev with
  | BorraFrente e =>
      match JSON_parse (permisosCache e), drive (idNode e) with
      | inl _, inr _ => true
      | _, _ => false
      end
  | _ => false
  end.

Definition ciegas (drive : Drive) (tr : list Evento) : nat :=
  List.length (filter (ciega drive) tr).

(** Report rows not accounted for by a divergent comparison or by a
    folder that could not be opened. *)
Definition saldo (drive : Drive) (s : Estado) : Z :=
  Z.of_nat (List.length (hojaReporte s))
  - Z.of_nat (divergentes (comparadas s))
  - Z.of_nat (ciegas drive (traza s)).

(** The comparisons made when an entry is visited: the folder against the
    cached set of its parent unless it is the root, then each file against
    the folder. *)
Definition pares (drive : Drive) (e : Entrada)
    : list (ConjuntoPermisos * ConjuntoPermisos) :=
  match JSON_parse (permisosCache e), drive (idNode e) with
  | inl padre, inl carpeta =>
      let local := obtenerConjuntoPermisos (permisosCarpeta carpeta) in
      (if banderaRaiz e then [] else [(padre, local)])
      ++ map (fun d => (local, obtenerConjuntoPermisos (permisosArchivo d)))
             (entregados (getFiles carpeta))
  | _, _ => []
  end.

(** A report row that holds no finding: the row of a folder that could not
    be opened, or the row of a file whose comparison threw. *)
Definition fila_sin_hallazgo (f : Fila) : Prop :=
  exists ruta url detalle,
    f = [ruta; url; "Folder Ciego";
         "ERROR API Carga: Restricción del propio Google sobre la ID oculta: " +++ detalle]
    \/ f = [ruta; url; "Documento Unitario";
            "Alerta de Lectura en Permisología: hojaReporte is not defined"].

(** [s'] has the report of [s] followed by rows without a finding. *)
Definition solo_avisos (s s' : Estado) : Prop :=
  exists filas, hojaReporte s' = hojaReporte s ++ filas /\ Forall fila_sin_hallazgo filas.

(** The link levels as the specification words them: the sharing scope
    (public or domain) crossed with the level (edit or view) gives the
    public or the domain level; any other case, and a scope or a level that
    could not be read, gives Ninguno. *)
Definition enlace_segun_spec (ac : option Access) (pe : option Permission) : Nivel * Nivel :=
  match ac, pe with
  | Some (ANYONE | ANYONE_WITH_LINK), Some EDIT => (Editor, Ninguno)
  | Some (ANYONE | ANYONE_WITH_LINK), Some VIEW => (Visualizador, Ninguno)
  | Some (DOMAIN | DOMAIN_WITH_LINK), Some EDIT => (Ninguno, Editor)
  | Some (DOMAIN | DOMAIN_WITH_LINK), Some VIEW => (Ninguno, Visualizador)
  | _, _ => (Ninguno, Ninguno)
  end.

(** The read of the front row that a session ending by an error leaves
    without its visit. *)
Definition lectura_pendiente (r : Resultado) : list Evento :=
  match r with
  | Fallida sf _ => map LeeFrente (firstn 1 (hojaDeCola sf))
  | _ => []
  end.

(** What a queue row shows apart from its cell, and a queue operation on
    such a row. *)
Definition columnas (e : Entrada) : string * string * string * bool :=
  (idNode e, rutaArmada e, urlVisita e, banderaRaiz e).

Definition operacion (ev : Evento) : string * (string * string * string * bool) :=
  match ev with
  | LeeFrente e => ("lee", columnas e)
  | Encola e => ("encola", columnas e)
  | BorraFrente e => ("borra", columnas e)
  end.

(** Two sessions, each on its own queue sheet, that end the same way after
    the same walk: rows of the same ids, paths, urls and flags pending, the
    same operations on such rows, the same pairs of permission sets
    compared. *)
Definition misma_marcha (r r2 : Resultado) : Prop :=
  match r, r2 with
  | Pausada a, Pausada b | Completada a, Completada b | SinLecturas a, SinLecturas b =>
      map columnas (hojaDeCola a) = map columnas (hojaDeCola b)
      /\ map operacion (traza a) = map operacion (traza b)
      /\ comparadas a = comparadas b
  | _, _ => False
  end.

End Vocabulario.

(** ** A small drive, used to run the statements *)
Module Ejemplo.
Import Cfg_Constantes API_Permisos UI_Menu API_SalidaDrive.

(** alice edits, bob views; alice is also listed as viewer. *)
Definition permisos_base : Elemento :=
  mkElemento (Some ["alice@x.com"]) (Some ["alice@x.com"; "bob@x.com"])
             (Some PRIVATE) (Some NONE).

(** The same, shared with anyone who has the link. *)
Definition permisos_publicos : Elemento :=
  mkElemento (Some ["alice@x.com"]) (Some ["bob@x.com"])
             (Some ANYONE_WITH_LINK) (Some VIEW).

(** Root folder A holds one public file and the subfolder B; B is empty and
    has the permissions of A. *)
Definition carpetaA : Carpeta :=
  {| permisosCarpeta := permisos_base;
     getFiles := mkIterador [mkArchivo "acta.doc" "https://acta" permisos_publicos] None;
     getFolders := mkIterador [mkSubCarpeta "B" "B" "https://b"] None |}.

Definition carpetaB : Carpeta :=
  {| permisosCarpeta := permisos_base;
     getFiles := mkIterador [] None;
     getFolders := mkIterador [] None |}.

(** C is shared by link, unlike the folder that holds it. *)
Definition carpetaC : Carpeta :=
  {| permisosCarpeta := permisos_publicos;
     getFiles := mkIterador [] None;
     getFolders := mkIterador [] None |}.

Definition drive_ej : Drive :=
  fun id =>
    if String.eqb id "A" then inl carpetaA
    else if String.eqb id "B" then inl carpetaB
    else if String.eqb id "C" then inl carpetaC
    else inr (mkError "Exception" "No item with the given ID could be found.").

Definition entrada_A : Entrada :=
  {| idNode := "A"; rutaArmada := "Unidad"; urlVisita := "https://a";
     permisosCache := JSON_stringify (obtenerConjuntoPermisos permisos_base);
     banderaRaiz := true |}.

Definition entrada_B : Entrada :=
  {| idNode := "B"; rutaArmada := "Unidad/B"; urlVisita := "https://b";
     permisosCache := JSON_stringify (obtenerConjuntoPermisos permisos_base);
     banderaRaiz := false |}.

Definition entrada_rota : Entrada :=
  {| idNode := "Z"; rutaArmada := "Unidad/Z"; urlVisita := "https://z";
     permisosCache := CeldaIlegible "{editores:" "Unexpected end of JSON input";
     banderaRaiz := false |}.

Definition entrada_C : Entrada :=
  {| idNode := "C"; rutaArmada := "Unidad/C"; urlVisita := "https://c";
     permisosCache := JSON_stringify (obtenerConjuntoPermisos permisos_base);
     banderaRaiz := false |}.

Definition estado_ej : Estado :=
  mkEstado (colaInicial "A" "Unidad" "https://a" permisos_base) [] [] [] [] [].

Definition estado_roto : Estado :=
  mkEstado [entrada_rota; entrada_B] [] [] [] [] [].

Definition estado_divergente : Estado :=
  mkEstado [entrada_C; entrada_B] [] [] [] [] [].

Definition plataforma_vacia : Plataforma := {| libros := []; bitacora := [] |}.

Definition hallazgo_ej : Fila :=
  ["Unidad/acta.doc"; "https://acta"; "Documento Unitario"; "bob@x.com - Visualizador"].

(** One finding more than the limit. *)
Definition hallazgos_ej : list Fila :=
  repeat hallazgo_ej (Z.to_nat (LIMITE_FILAS_POR_HOJA_REPORTE + 1)).

(** The same drive through the API of the start: its name, its root folder
    A and three permissions on the root, one of them inherited. *)
Definition permisos_raiz_ej : list UI_Sesion.Permiso :=
  [ UI_Sesion.mkPermiso "p1" (Some "alice@x.com") UI_Sesion.organizer "user" None
                        (Some [false]);
    UI_Sesion.mkPermiso "p2" None UI_Sesion.reader "domain" (Some "x.com")
                        (Some [true]);
    UI_Sesion.mkPermiso "p3" (Some "equipo@x.com") UI_Sesion.organizer "group" None None ].

Definition api_ej : UI_Sesion.ApiDrive :=
  {| UI_Sesion.Drives_get := fun id =>
       if String.eqb id "A" then inl "Unidad"
       else inr (mkError "Exception" "Forbidden");
     UI_Sesion.getFolderById := fun id =>
       match drive_ej id with
       | inl c => inl (UI_Sesion.mkCarpetaRaiz c id ("https://" +++ id))
       | inr e => inr e
       end;
     UI_Sesion.Permissions_list := fun id => inl (Some permisos_raiz_ej) |}.

(** A spreadsheet with a paused audit: B is pending. *)
Definition libro_en_pausa : UI_Sesion.HojaCalculo :=
  UI_Sesion.mkHojaCalculo (Some [entrada_B]) (Some [UI_Sesion.cabecerasReporte])
                          false [] [] [] [].

(** Leading and trailing spaces removed, for the identifiers used here. *)
Definition trim_ej (s : string) : string :=
  if String.eqb s " A " then "A" else s.

End Ejemplo.

(** * Properties *)

(** ** Sets and flags *)
Section Conjuntos.

Lemma includes_In (l : list string) (x : string) :
  includes l x = true <-> In x l.
Proof.
  unfold includes. rewrite existsb_exists. split.
  - intros [y [Hy Heq]]. apply String.eqb_eq in Heq. now subst.
  - intros H. exists x. split; [assumption | apply String.eqb_refl].
Qed.

Lemma includes_false (l : list string) (x : string) :
  includes l x = false <-> ~ In x l.
Proof.
  rewrite <- includes_In. destruct (includes l x); split; congruence.
Qed.

Lemma In_Set_add (s : list string) (x y : string) :
  In y (Set_add s x) <-> In y s \/ y = x.
Proof.
  unfold Set_add. destruct (includes s x) eqn:E.
  - apply includes_In in E. split; [tauto | intros [H | ->]; assumption].
  - rewrite in_app_iff. simpl. intuition (subst; auto).
Qed.

Lemma In_fold_Set_add (l acc : list string) (y : string) :
  In y (fold_left Set_add l acc) <-> In y acc \/ In y l.
Proof.
  revert acc. induction l as [| x l IH]; intros acc; simpl.
  - tauto.
  - rewrite IH, In_Set_add. split; intros H; intuition (subst; auto).
Qed.

Lemma In_Set_de (l : list string) (y : string) : In y (Set_de l) <-> In y l.
Proof. unfold Set_de. rewrite In_fold_Set_add. simpl. tauto. Qed.

Lemma nivel_eqb_eq (a b : Nivel) : nivel_eqb a b = true <-> a = b.
Proof. destruct a, b; simpl; split; congruence. Qed.

Lemma nivel_eqb_neq (a b : Nivel) : negb (nivel_eqb a b) = true <-> a <> b.
Proof.
  rewrite negb_true_iff. destruct (nivel_eqb a b) eqn:E.
  - apply nivel_eqb_eq in E. split; congruence.
  - split; [| reflexivity]. intros _ H. apply nivel_eqb_eq in H. congruence.
Qed.

(** A flag that a [forEach] can only raise ends up raised exactly when
    some visited element raises it. *)
Lemma bandera_forEach {A} (p : A -> bool) (l : list A) (b : bool) :
  fold_left (fun bandera x => if p x then true else bandera) l b
  = b || existsb p l.
Proof.
  revert b. induction l as [| x l IH]; intros b; simpl.
  - now rewrite orb_false_r.
  - rewrite IH. destruct (p x), b; reflexivity.
Qed.

(** Successive [push] calls append the pushed items in order. *)
Lemma push_forEach {A B} (f : A -> B) (l : list A) (acc : list B) :
  fold_left (fun r x => r ++ [f x]) l acc = acc ++ map f l.
Proof.
  revert acc. induction l as [| x l IH]; intros acc; simpl.
  - now rewrite app_nil_r.
  - rewrite IH, <- app_assoc. reflexivity.
Qed.

End Conjuntos.

(** ** Text *)
Section Texto.

Lemma ultimo_append (a b : string) :
  b <> EmptyString -> ultimo (a +++ b) = ultimo b.
Proof.
  intros Hb. induction a as [| c a IH]; simpl; [reflexivity |].
  rewrite <- IH. destruct (a +++ b) eqn:E; [| reflexivity].
  destruct a; simpl in E; [congruence | discriminate].
Qed.

Lemma ultimo_Some_no_vacio (s : string) (c : ascii) :
  ultimo s = Some c -> s <> EmptyString.
Proof. intros H ->. discriminate. Qed.

Lemma append_no_vacio (a b : string) : b <> EmptyString -> a +++ b <> EmptyString.
Proof. destruct a; simpl; [auto | discriminate]. Qed.

(** A joined list of texts that all end in [c] ends in [c]. *)
Lemma ultimo_join (sep : string) (c : ascii) (l : list string) :
  l <> [] -> Forall (fun s => ultimo s = Some c) l ->
  ultimo (join sep l) = Some c.
Proof.
  unfold join. induction l as [| x l IH]; intros Hne Hall; [congruence |].
  inversion Hall as [| ? ? Hx Hl]; subst.
  destruct l as [| y l]; simpl; [assumption |].
  assert (Hrec : ultimo (String.concat sep (y :: l)) = Some c)
    by (apply IH; [discriminate | assumption]).
  rewrite ultimo_append.
  - rewrite ultimo_append; [exact Hrec | exact (ultimo_Some_no_vacio _ _ Hrec)].
  - apply append_no_vacio. exact (ultimo_Some_no_vacio _ _ Hrec).
Qed.

End Texto.

(** ** Permission sets: normalisation, comparison, rendering *)
Section Permisos.
Import Cfg_Constantes API_Permisos.

Lemma editores_obtener (e : Elemento) (x : string) :
  In x (editores (obtenerConjuntoPermisos e)) <-> In x (leidos (getEditors e)).
Proof.
  unfold obtenerConjuntoPermisos; simpl.
  destruct (getEditors e); simpl; [| tauto].
  rewrite In_fold_Set_add. simpl. tauto.
Qed.

Lemma visualizadores_obtener (e : Elemento) (x : string) :
  In x (visualizadores (obtenerConjuntoPermisos e))
  <-> In x (leidos (getViewers e)) /\ ~ In x (leidos (getEditors e)).
Proof.
  unfold obtenerConjuntoPermisos; simpl.
  rewrite filter_In, negb_true_iff, includes_false.
  destruct (getViewers e), (getEditors e); simpl;
    rewrite ?In_fold_Set_add; simpl; tauto.
Qed.

Lemma obtener_disjuntos (e : Elemento) : disjuntos (obtenerConjuntoPermisos e).
Proof.
  intros x He Hv. apply editores_obtener in He.
  apply visualizadores_obtener in Hv. tauto.
Qed.

Lemma getPermissionSet_igual (e : Elemento) :
  Legado.getPermissionSet e = obtenerConjuntoPermisos e.
Proof. reflexivity. Qed.

Lemma diferenciasDetectadas_spec (P C : ConjuntoPermisos) :
  diferenciasDetectadas P C = true <-> divergen P C.
Proof.
  unfold diferenciasDetectadas, divergen.
  rewrite (bandera_forEach
             (fun u => negb (nivel_eqb (obtenerNivelAccesoUsuario u P)
                                       (obtenerNivelAccesoUsuario u C)))).
  simpl.
  destruct (negb (nivel_eqb (accesoPublico P) (accesoPublico C))) eqn:Ep; simpl.
  { apply nivel_eqb_neq in Ep. split; [intros _; right; left; exact Ep | reflexivity]. }
  destruct (negb (nivel_eqb (accesoDominio P) (accesoDominio C))) eqn:Ed; simpl.
  { apply nivel_eqb_neq in Ed. split; [intros _; right; right; exact Ed | reflexivity]. }
  apply negb_false_iff, nivel_eqb_eq in Ep, Ed.
  rewrite existsb_exists. split.
  - intros [u [Hu Hne]]. left. exists u. split.
    + exact (proj1 (In_Set_de _ _) Hu).
    + exact (proj1 (nivel_eqb_neq _ _) Hne).
  - intros [[u [Hu Hne]] | [H | H]]; try congruence.
    exists u. split.
    + exact (proj2 (In_Set_de _ _) Hu).
    + exact (proj2 (nivel_eqb_neq _ _) Hne).
Qed.


Lemma divergen_sym (P C : ConjuntoPermisos) : divergen P C -> divergen C P.
Proof.
  unfold divergen. intros [[u [Hu Hne]] | [H | H]]; [left | right; left | right; right];
    try congruence.
  exists u. split; [| congruence].
  rewrite !in_app_iff in *. tauto.
Qed.

Lemma no_divergen_refl (P : ConjuntoPermisos) : ~ divergen P P.
Proof. unfold divergen. intros [[u [_ H]] | [H | H]]; congruence. Qed.

Lemma listaUsuariosRoles_spec (dominio : string) (hijo : ConjuntoPermisos) :
  listaUsuariosRoles dominio hijo = entradas_segun_spec dominio hijo.
Proof.
  unfold listaUsuariosRoles, entradas_segun_spec.
  rewrite !push_forEach.
  destruct (accesoPublico hijo), (accesoDominio hijo); simpl; reflexivity.
Qed.

Lemma entradas_vacias (dominio : string) (hijo : ConjuntoPermisos) :
  entradas_segun_spec dominio hijo = [] <-> sin_acceso_propio hijo.
Proof.
  unfold entradas_segun_spec, sin_acceso_propio. split.
  - intros H.
    apply app_eq_nil in H as [Hp H]. apply app_eq_nil in H as [Hd H].
    apply app_eq_nil in H as [He Hv].
    apply map_eq_nil in He, Hv.
    destruct (accesoPublico hijo), (accesoDominio hijo); try discriminate; auto.
  - intros (-> & -> & -> & ->). reflexivity.
Qed.

Lemma entradas_terminan_en_r (dominio : string) (hijo : ConjuntoPermisos) :
  Forall (fun s => ultimo s = Some "r"%char) (entradas_segun_spec dominio hijo).
Proof.
  assert (Hdom : forall n, n <> Ninguno ->
            ultimo ("Dominio (" +++ dominio +++ ") - " +++ nivel_texto n) = Some "r"%char).
  { intros n Hn.
    change ("Dominio (" +++ dominio +++ ") - " +++ nivel_texto n)
      with ("Dominio (" +++ (dominio +++ (") - " +++ nivel_texto n))).
    rewrite ultimo_append by (apply append_no_vacio; discriminate).
    rewrite ultimo_append by discriminate.
    destruct n; [congruence | reflexivity | reflexivity]. }
  unfold entradas_segun_spec.
  apply Forall_app; split; [| apply Forall_app; split; [| apply Forall_app; split]].
  - destruct (accesoPublico hijo); repeat constructor.
  - destruct (accesoDominio hijo) eqn:E; constructor; try constructor;
      apply Hdom; discriminate.
  - apply Forall_forall. intros s Hs. apply in_map_iff in Hs as [c [<- _]].
    rewrite ultimo_append; [reflexivity | discriminate].
  - apply Forall_forall. intros s Hs. apply in_map_iff in Hs as [c [<- _]].
    rewrite ultimo_append; [reflexivity | discriminate].
Qed.

(** What a call of [registrarDiferenciasPermisos] leaves behind. *)
Lemma registrar_salida P C ruta url tipo dominio :
  registrarDiferenciasPermisos P C ruta url tipo dominio
  = if diferenciasDetectadas P C
    then {| registrado := ["-> Se encontraron diferencias de permisos en: " +++ ruta];
            anexadas := [];
            fin := Lanza (ReferenceError "hojaReporte") |}
    else {| registrado := []; anexadas := []; fin := Normal |}.
Proof.
  unfold registrarDiferenciasPermisos.
  replace (resuelve locales_registrar "hojaReporte") with false by reflexivity.
  reflexivity.
Qed.

End Permisos.

(** ** Claims on the permission model and the comparison *)
Section Afirmaciones_Permisos.
Import Cfg_Constantes API_Permisos.

(** C1, on the code as written.  [registrarDiferenciasPermisos] decides the
    divergence as specified, but the row it builds is appended through
    [hojaReporte], an identifier bound neither in the function nor at the top
    level of any script file: whenever a divergence is detected the call logs
    one line and throws a ReferenceError, and no call ever appends a row.
    At parent [{}] and child [{editores: [bob@x.com]}] the flag is raised and
    the call ends in the throw with nothing appended. *)
Theorem C1_registrar_lanza_sin_anexar :
  (forall P C ruta url tipo dominio,
      anexadas (registrarDiferenciasPermisos P C ruta url tipo dominio) = []
      /\ fin (registrarDiferenciasPermisos P C ruta url tipo dominio)
         = if diferenciasDetectadas P C
           then Lanza (ReferenceError "hojaReporte") else Normal)
  /\ diferenciasDetectadas (mkConjunto [] [] Ninguno Ninguno)
                           (mkConjunto ["bob@x.com"] [] Ninguno Ninguno) = true
  /\ registrarDiferenciasPermisos (mkConjunto [] [] Ninguno Ninguno)
                                  (mkConjunto ["bob@x.com"] [] Ninguno Ninguno)
                                  "Unidad/A" "https://a" "Carpeta Plegable" "Sheet"
     = {| registrado := ["-> Se encontraron diferencias de permisos en: Unidad/A"];
          anexadas := [];
          fin := Lanza (mkError "ReferenceError" "hojaReporte is not defined") |}.
Proof.
  split; [| split; reflexivity].
  intros P C ruta url tipo dominio. rewrite registrar_salida.
  destruct (diferenciasDetectadas P C); split; reflexivity.
Qed.

(** The text rendered in the local [usuariosTexto] lists, in this order, the
    public access (unless Ninguno), the domain access (unless Ninguno), every
    editor and every viewer, each followed by its level; it is the fixed
    inheritance-only sentence exactly when the child has no editor, no viewer
    and both link levels Ninguno. *)
Lemma usuariosTexto_segun_spec :
  forall (dominio : string) (hijo : ConjuntoPermisos),
    usuariosTexto dominio hijo = texto_segun_spec dominio hijo
    /\ (usuariosTexto dominio hijo = SOLO_HERENCIA <-> sin_acceso_propio hijo).
Proof.
  intros dominio hijo.
  assert (Heq : usuariosTexto dominio hijo = texto_segun_spec dominio hijo).
  { unfold usuariosTexto, texto_segun_spec. rewrite listaUsuariosRoles_spec.
    destruct (entradas_segun_spec dominio hijo); reflexivity. }
  split; [exact Heq |].
  rewrite Heq. unfold texto_segun_spec.
  pose proof (entradas_terminan_en_r dominio hijo) as Hr.
  pose proof (entradas_vacias dominio hijo) as Hv.
  destruct (entradas_segun_spec dominio hijo) as [| x l] eqn:E.
  - split; [intros _; apply Hv; reflexivity | reflexivity].
  - split.
    + intros H.
      assert (Hu : ultimo (join ", " (x :: l)) = Some "r"%char)
        by (apply ultimo_join; [discriminate | exact Hr]).
      rewrite H in Hu. vm_compute in Hu. discriminate.
    + intros H. apply Hv in H. discriminate.
Qed.

Lemma filter_sin_editores (l : list string) :
  filter (fun v => negb (includes [] v)) l = l.
Proof. induction l as [| x l IH]; [reflexivity |]. simpl. f_equal. exact IH. Qed.

(** C8: the normaliser always returns a permission set, and each facet of
    it is read on its own.  Whatever reads throw, the editors are the
    addresses the editor read returned (none when it threw), the viewers are
    the addresses the viewer read returned (none when it threw) that are not
    among those editors, and the link levels are the ones the scope and the
    level read give (both Ninguno when either read threw).  So when the
    editor list cannot be read the result has no editor, all the viewers
    read and the link levels read; when the viewer list cannot be read it
    has the editors read, no viewer and the link levels read; and when the
    scope or the level cannot be read it has the editors and the viewers
    read and both link levels Ninguno. *)
Theorem C8_faceta_ilegible_se_degrada :
  forall (ed vi : option (list string)) (ac : option Access) (pe : option Permission),
    (forall x, In x (editores (obtenerConjuntoPermisos (mkElemento ed vi ac pe)))
               <-> In x (leidos ed))
    /\ (forall x, In x (visualizadores (obtenerConjuntoPermisos (mkElemento ed vi ac pe)))
                  <-> In x (leidos vi) /\ ~ In x (leidos ed))
    /\ (accesoPublico (obtenerConjuntoPermisos (mkElemento ed vi ac pe)),
        accesoDominio (obtenerConjuntoPermisos (mkElemento ed vi ac pe)))
       = enlace_segun_spec ac pe
    /\ obtenerConjuntoPermisos (mkElemento None vi ac pe)
       = mkConjunto [] (Set_de (leidos vi))
                    (fst (enlace_segun_spec ac pe)) (snd (enlace_segun_spec ac pe))
    /\ obtenerConjuntoPermisos (mkElemento ed None ac pe)
       = mkConjunto (Set_de (leidos ed)) []
                    (fst (enlace_segun_spec ac pe)) (snd (enlace_segun_spec ac pe))
    /\ obtenerConjuntoPermisos (mkElemento ed vi None pe)
       = mkConjunto (Set_de (leidos ed))
                    (filter (fun v => negb (includes (Set_de (leidos ed)) v))
                            (Set_de (leidos vi)))
                    Ninguno Ninguno
    /\ obtenerConjuntoPermisos (mkElemento ed vi ac None)
       = mkConjunto (Set_de (leidos ed))
                    (filter (fun v => negb (includes (Set_de (leidos ed)) v))
                            (Set_de (leidos vi)))
                    Ninguno Ninguno.
Proof.
  intros ed vi ac pe.
  split; [intros x; exact (editores_obtener (mkElemento ed vi ac pe) x) |].
  split; [intros x; exact (visualizadores_obtener (mkElemento ed vi ac pe) x) |].
  split.
  { unfold obtenerConjuntoPermisos, enlace_segun_spec.
    cbn [getSharingAccess getSharingPermission accesoPublico accesoDominio].
    destruct ac as [[] |], pe as [[] |]; reflexivity. }
  split.
  { unfold obtenerConjuntoPermisos, enlace_segun_spec.
    cbn [getEditors getViewers getSharingAccess getSharingPermission].
    rewrite filter_sin_editores.
    destruct vi, ac as [[] |], pe as [[] |]; reflexivity. }
  split.
  { unfold obtenerConjuntoPermisos, enlace_segun_spec.
    cbn [getEditors getViewers getSharingAccess getSharingPermission filter].
    destruct ed, ac as [[] |], pe as [[] |]; reflexivity. }
  split.
  - unfold obtenerConjuntoPermisos.
    cbn [getEditors getViewers getSharingAccess getSharingPermission].
    destruct ed, vi; reflexivity.
  - unfold obtenerConjuntoPermisos.
    cbn [getEditors getViewers getSharingAccess getSharingPermission].
    destruct ed, vi, ac; reflexivity.
Qed.

(** C10: a divergence is detected for (P, C) exactly when one is detected
    for (C, P), in the current comparison and in the legacy one; the rendered
    text is computed from the child alone. *)
Theorem C10_deteccion_simetrica :
  forall P C : ConjuntoPermisos,
    diferenciasDetectadas P C = diferenciasDetectadas C P
    /\ Legado.differencesFound P C = Legado.differencesFound C P.
Proof.
  assert (H : forall P C, diferenciasDetectadas P C = diferenciasDetectadas C P).
  { intros P C. apply eq_true_iff_eq.
    rewrite !diferenciasDetectadas_spec. split; apply divergen_sym. }
  intros P C. split; [exact (H P C) |].
  change (diferenciasDetectadas P C = diferenciasDetectadas C P). exact (H P C).
Qed.

(** X1: the legacy [logDifferences] appends exactly one row, the finding of
    the child, when the two sets diverge as specified, and none otherwise. *)
Theorem X1_logDifferences_una_fila :
  forall (P C : ConjuntoPermisos) (path url type domain : string),
    (Legado.differencesFound P C = true <-> divergen P C)
    /\ anexadas (Legado.logDifferences P C path url type domain)
       = (if Legado.differencesFound P C
          then [[path; url; type; Legado.userList domain C]] else [])
    /\ fin (Legado.logDifferences P C path url type domain) = Normal.
Proof.
  intros P C path url type domain. split; [apply diferenciasDetectadas_spec |].
  unfold Legado.logDifferences.
  destruct (Legado.differencesFound P C); split; reflexivity.
Qed.

(** X4: a child whose permission set equals its parent's is not reported:
    the comparison, current or legacy, logs nothing, appends nothing and
    returns normally. *)
Theorem X4_linea_base_neutral :
  forall (P : ConjuntoPermisos) (ruta url tipo dominio : string),
    registrarDiferenciasPermisos P P ruta url tipo dominio
      = {| registrado := []; anexadas := []; fin := Normal |}
    /\ Legado.logDifferences P P ruta url tipo dominio
      = {| registrado := []; anexadas := []; fin := Normal |}.
Proof.
  intros P ruta url tipo dominio.
  assert (H : diferenciasDetectadas P P = false).
  { destruct (diferenciasDetectadas P P) eqn:E; [| reflexivity].
    apply diferenciasDetectadas_spec in E. now apply no_divergen_refl in E. }
  split.
  - rewrite registrar_salida, H. reflexivity.
  - unfold Legado.logDifferences.
    change (Legado.differencesFound P P) with (diferenciasDetectadas P P).
    rewrite H. reflexivity.
Qed.

End Afirmaciones_Permisos.

(** ** The paginated output *)
Section Salida.
Import Cfg_Constantes API_SalidaDrive.

Lemma anexarEn_ultimo (ls : list Libro) (l : Libro) (f : Fila) :
  anexarEn (List.length ls) f (ls ++ [l]) = ls ++ [appendRow f l].
Proof. induction ls as [| x ls IH]; simpl; [reflexivity | now rewrite IH]. Qed.

Lemma volcarHallazgos_app (h1 h2 : list (option Error * Fila))
    (p : Plataforma) (e : EstadoSalida) :
  volcarHallazgos (h1 ++ h2) p e
  = volcarHallazgos h2 (fst (volcarHallazgos h1 p e)) (snd (volcarHallazgos h1 p e)).
Proof.
  revert p e. induction h1 as [| [w f] h1 IH]; intros p e; simpl; [reflexivity |].
  destruct (volcarHallazgoAPaginacion w p e f) as [p' e']. apply IH.
Qed.

(** A write that opens a new part. *)
Lemma volcar_abre_parte (p : Plataforma) (e : EstadoSalida) (f : Fila) :
  necesitaNuevaHoja e = true ->
  volcarHallazgoAPaginacion None p e f
  = ({| libros := libros p ++
          [appendRow f (nuevoLibro ("Reporte - " +++ ramaNombre e +++ " (Parte "
                                    +++ decimal (parteActual e + 1) +++ ")")
                                   (idCarpetaRaiz e))];
        bitacora := bitacora p |},
     {| idSheet := Some (List.length (libros p)); filaActual := 3;
        ramaNombre := ramaNombre e; parteActual := (parteActual e + 1)%Z;
        idCarpetaRaiz := idCarpetaRaiz e |}).
Proof.
  intros Hn. unfold volcarHallazgoAPaginacion, prepararHoja. rewrite Hn.
  cbn [intento idSheet libros bitacora filaActual ramaNombre parteActual idCarpetaRaiz].
  rewrite length_app. simpl List.length.
  replace (List.length (libros p) <? List.length (libros p) + 1)%nat with true
    by (symmetry; apply Nat.ltb_lt; lia).
  rewrite anexarEn_ultimo. reflexivity.
Qed.

(** Writes that fit in the current part go to it, one row each. *)
Lemma volcar_llena_parte (fs : list Fila) (ls : list Libro) (l : Libro)
    (b : list string) (e : EstadoSalida) :
  idSheet e = Some (List.length ls) ->
  (filaActual e + Z.of_nat (List.length fs) <= LIMITE_FILAS_POR_HOJA_REPORTE)%Z ->
  volcarHallazgos (map escrita fs) {| libros := ls ++ [l]; bitacora := b |} e
  = ({| libros := ls ++ [conFilas (filas l ++ fs) l]; bitacora := b |},
     conFilaActual (filaActual e + Z.of_nat (List.length fs)) e).
Proof.
  revert l e. induction fs as [| f fs IH]; intros l e Hid Hcabe.
  - simpl. rewrite app_nil_r, Z.add_0_r. destruct l, e; reflexivity.
  - cbn [map volcarHallazgos escrita].
    assert (Hno : necesitaNuevaHoja e = false).
    { unfold necesitaNuevaHoja. rewrite Hid. apply Z.leb_gt.
      rewrite length_cons in Hcabe. lia. }
    unfold volcarHallazgoAPaginacion, prepararHoja. rewrite Hno, Hid.
    cbn [intento libros bitacora].
    rewrite length_app. simpl List.length.
    replace (List.length ls <? List.length ls + 1)%nat with true
      by (symmetry; apply Nat.ltb_lt; lia).
    rewrite anexarEn_ultimo.
    rewrite IH.
    + cbn [filas appendRow conFilas conFilaActual filaActual idSheet ramaNombre
             parteActual idCarpetaRaiz nombreLibro cabeceraNegrita filasCongeladas ubicacion].
      rewrite <- app_assoc. simpl app.
      unfold conFilas, conFilaActual, appendRow.
      cbn [filas filaActual idSheet ramaNombre parteActual idCarpetaRaiz
           nombreLibro cabeceraNegrita filasCongeladas ubicacion].
      rewrite Hid.
      replace (filaActual e + 1 + Z.of_nat (List.length fs))%Z
        with (filaActual e + Z.of_nat (S (List.length fs)))%Z by lia.
      reflexivity.
    + reflexivity.
    + cbn [filaActual]. rewrite length_cons in Hcabe. lia.
Qed.

(** A first write into a new part followed by writes that fit in it. *)
Lemma volcar_parte_entera (f : Fila) (fs : list Fila) (p : Plataforma) (e : EstadoSalida) :
  necesitaNuevaHoja e = true ->
  (3 + Z.of_nat (List.length fs) <= LIMITE_FILAS_POR_HOJA_REPORTE)%Z ->
  volcarHallazgos (map escrita (f :: fs)) p e
  = ({| libros := libros p ++
          [conFilas (CABECERAS_REPORTE_TECNICO :: f :: fs)
             (nuevoLibro ("Reporte - " +++ ramaNombre e +++ " (Parte "
                          +++ decimal (parteActual e + 1) +++ ")") (idCarpetaRaiz e))];
        bitacora := bitacora p |},
     {| idSheet := Some (List.length (libros p));
        filaActual := (3 + Z.of_nat (List.length fs))%Z;
        ramaNombre := ramaNombre e; parteActual := (parteActual e + 1)%Z;
        idCarpetaRaiz := idCarpetaRaiz e |}).
Proof.
  intros Hn Hcabe. cbn [map volcarHallazgos escrita].
  rewrite (volcar_abre_parte p e f Hn).
  rewrite volcar_llena_parte; [reflexivity | reflexivity | exact Hcabe].
Qed.

End Salida.

(** ** Claims on the paginated output *)
Section Afirmaciones_Salida.
Import Cfg_Constantes API_SalidaDrive.

(** One finding more than the limit, written from the initial state: two
    parts, the first with [filas_por_parte] data rows, the second with the
    three that remain. *)
Lemma volcar_limite_mas_uno (p0 : Plataforma) (rama carpeta : string) (f0 : Z)
    (hallazgos : list Fila) :
  Z.of_nat (List.length hallazgos) = (LIMITE_FILAS_POR_HOJA_REPORTE + 1)%Z ->
  volcarHallazgos (map escrita hallazgos) p0 (estadoInicial rama carpeta f0)
  = ({| libros := libros p0 ++
          [conFilas (CABECERAS_REPORTE_TECNICO :: firstn filas_por_parte hallazgos)
                    (nuevoLibro ("Reporte - " +++ rama +++ " (Parte 1)") carpeta);
           conFilas (CABECERAS_REPORTE_TECNICO :: skipn filas_por_parte hallazgos)
                    (nuevoLibro ("Reporte - " +++ rama +++ " (Parte 2)") carpeta)];
        bitacora := bitacora p0 |},
     {| idSheet := Some (S (List.length (libros p0))); filaActual := 5;
        ramaNombre := rama; parteActual := 2; idCarpetaRaiz := carpeta |})
  /\ List.length (firstn filas_por_parte hallazgos) = filas_por_parte
  /\ List.length (skipn filas_por_parte hallazgos) = 3%nat.
Proof.
  intros Hlen.
  assert (HN : Z.of_nat filas_por_parte = 49998%Z) by reflexivity.
  assert (HL : LIMITE_FILAS_POR_HOJA_REPORTE = 50000%Z) by reflexivity.
  assert (Ha : List.length (firstn filas_por_parte hallazgos) = filas_por_parte)
    by (rewrite length_firstn; lia).
  assert (Hb : List.length (skipn filas_por_parte hallazgos) = 3%nat)
    by (rewrite length_skipn; lia).
  split; [| split; assumption].
  rewrite <- (firstn_skipn filas_por_parte hallazgos) at 1.
  destruct (firstn filas_por_parte hallazgos) as [| a A] eqn:EA;
    [simpl in Ha; lia |].
  destruct (skipn filas_por_parte hallazgos) as [| b B] eqn:EB;
    [simpl in Hb; lia |].
  rewrite length_cons in Ha, Hb.
  rewrite map_app, volcarHallazgos_app.
  rewrite (volcar_parte_entera a A p0 (estadoInicial rama carpeta f0));
    [| reflexivity | lia].
  cbn [fst snd].
  rewrite volcar_parte_entera.
  - cbn [libros bitacora ramaNombre parteActual idCarpetaRaiz estadoInicial].
    rewrite <- app_assoc, length_app. simpl app. simpl List.length.
    replace (List.length (libros p0) + 1)%nat with (S (List.length (libros p0))) by lia.
    replace (3 + Z.of_nat (List.length B))%Z with 5%Z by lia.
    reflexivity.
  - unfold necesitaNuevaHoja. cbn [idSheet filaActual]. apply Z.leb_le. lia.
  - lia.
Qed.

(** C2, as the code has it.  With [C = LIMITE_FILAS_POR_HOJA_REPORTE], and
    every append succeeding: after C+1 findings written from the initial
    state exactly two parts have been created, and the second holds its
    header row and three data rows (the first holds the header and C-2 data
    rows: [filaActual] is the 1-based number of the next row, 2 right after
    the header, and a part is closed when it reaches C).  A new part is
    created exactly when there is no current sheet or [filaActual] has
    reached C; it starts with the header row, the part counter is
    incremented and [filaActual] is reset to 2. *)
Theorem C2_particion_al_rebasar :
  forall (p0 : Plataforma) (rama carpeta : string) (f0 : Z) (hallazgos : list Fila),
    Z.of_nat (List.length hallazgos) = (LIMITE_FILAS_POR_HOJA_REPORTE + 1)%Z ->
    let r := volcarHallazgos (map escrita hallazgos) p0 (estadoInicial rama carpeta f0) in
    (exists l1 l2,
        libros (fst r) = libros p0 ++ [l1; l2]
        /\ filas l1 = CABECERAS_REPORTE_TECNICO :: firstn filas_por_parte hallazgos
        /\ filas l2 = CABECERAS_REPORTE_TECNICO :: skipn filas_por_parte hallazgos
        /\ List.length (skipn filas_por_parte hallazgos) = 3%nat)
    /\ parteActual (snd r) = 2%Z
    /\ (forall e, necesitaNuevaHoja e = true
                  <-> idSheet e = None \/ (LIMITE_FILAS_POR_HOJA_REPORTE <= filaActual e)%Z)
    /\ (forall p e, necesitaNuevaHoja e = false -> prepararHoja p e = (p, e))
    /\ (forall p e, necesitaNuevaHoja e = true ->
          exists l, libros (fst (prepararHoja p e)) = libros p ++ [l]
                    /\ filas l = [CABECERAS_REPORTE_TECNICO]
                    /\ idSheet (snd (prepararHoja p e)) = Some (List.length (libros p))
                    /\ parteActual (snd (prepararHoja p e)) = (parteActual e + 1)%Z
                    /\ filaActual (snd (prepararHoja p e)) = 2%Z).
Proof.
  intros p0 rama carpeta f0 hallazgos Hlen r.
  destruct (volcar_limite_mas_uno p0 rama carpeta f0 hallazgos Hlen) as [Hr [_ Hb]].
  subst r. rewrite Hr. cbn [fst snd libros parteActual].
  split; [| split; [reflexivity | split; [| split]]].
  - eexists; eexists. split; [reflexivity |]. split; [reflexivity |].
    split; [reflexivity | exact Hb].
  - intros e. unfold necesitaNuevaHoja. destruct (idSheet e).
    + rewrite Z.leb_le. split; [auto | intros [H | H]; [discriminate | exact H]].
    + split; [auto | reflexivity].
  - intros p e H. unfold prepararHoja. now rewrite H.
  - intros p e H. unfold prepararHoja. rewrite H. cbn [fst snd libros].
    eexists. split; [reflexivity |]. repeat split; reflexivity.
Qed.

Lemma volcar_falla (error : Error) (p : Plataforma) (e : EstadoSalida) (fila : Fila) :
  volcarHallazgoAPaginacion (Some error) p e fila
  = ({| libros := libros (fst (prepararHoja p e));
        bitacora := bitacora (fst (prepararHoja p e)) ++
          ["[DriverError] Fallo al insertar fila en la página "
           +++ textoId (idSheet (snd (prepararHoja p e)))
           +++ " de rama " +++ ramaNombre (snd (prepararHoja p e))
           +++ ": " +++ message error] |},
     snd (prepararHoja p e)).
Proof.
  unfold volcarHallazgoAPaginacion. destruct (prepararHoja p e) as [p1 e1].
  reflexivity.
Qed.

(** C9: when the append throws, the failure is logged, no row is stored,
    [filaActual] stays where the preparation of the sheet left it (unchanged
    when no part was opened, 2 in a part just opened), the state is returned,
    and the next write behaves as if the failed call had not been made. *)
Theorem C9_fallo_al_anexar :
  forall (error : Error) (p : Plataforma) (e : EstadoSalida) (fila : Fila),
    let r := volcarHallazgoAPaginacion (Some error) p e fila in
    libros (fst r) = libros (fst (prepararHoja p e))
    /\ snd r = snd (prepararHoja p e)
    /\ filaActual (snd r) = (if necesitaNuevaHoja e then 2%Z else filaActual e)
    /\ (exists linea, bitacora (fst r) = bitacora p ++ [linea])
    /\ (forall w fila',
          sin_bitacora (volcarHallazgoAPaginacion w (fst r) (snd r) fila')
          = sin_bitacora (volcarHallazgoAPaginacion w p e fila')).
Proof.
  intros error p e fila r. subst r. rewrite volcar_falla.
  destruct (prepararHoja p e) as [p1 e1] eqn:Hprep.
  cbn [fst snd libros bitacora].
  assert (Hb : bitacora p1 = bitacora p).
  { unfold prepararHoja in Hprep. destruct (necesitaNuevaHoja e);
      inversion Hprep; reflexivity. }
  assert (Hf : filaActual e1 = if necesitaNuevaHoja e then 2%Z else filaActual e).
  { unfold prepararHoja in Hprep. destruct (necesitaNuevaHoja e);
      inversion Hprep; reflexivity. }
  assert (Hno : necesitaNuevaHoja e1 = false).
  { unfold prepararHoja in Hprep. destruct (necesitaNuevaHoja e) eqn:E;
      inversion Hprep; subst; [reflexivity | exact E]. }
  split; [reflexivity |]. split; [reflexivity |]. split; [exact Hf |].
  split; [rewrite Hb; eexists; reflexivity |].
  intros w fila'. unfold volcarHallazgoAPaginacion.
  rewrite Hprep. unfold prepararHoja. rewrite Hno.
  unfold intento. cbn [libros bitacora].
  destruct w as [err |]; [reflexivity |].
  destruct (idSheet e1) as [i |]; [| reflexivity].
  destruct (i <? List.length (libros p1))%nat; reflexivity.
Qed.

End Afirmaciones_Salida.

(** ** The traversal *)
Section Recorrido.
Import Cfg_Constantes API_Permisos UI_Menu.

(** *** What the helper steps leave untouched *)

Lemma llamarRegistrar_marco padre hijo ruta url tipo s :
  hojaDeCola (fst (llamarRegistrar padre hijo ruta url tipo s)) = hojaDeCola s
  /\ traza (fst (llamarRegistrar padre hijo ruta url tipo s)) = traza s
  /\ comparadas (fst (llamarRegistrar padre hijo ruta url tipo s))
     = comparadas s ++ [(padre, hijo)].
Proof. repeat split; reflexivity. Qed.

Lemma revisarDocumento_marco ruta local s d :
  hojaDeCola (revisarDocumento ruta local s d) = hojaDeCola s
  /\ traza (revisarDocumento ruta local s d) = traza s
  /\ comparadas (revisarDocumento ruta local s d)
     = comparadas s ++ [(local, obtenerConjuntoPermisos (permisosArchivo d))].
Proof.
  unfold revisarDocumento, llamarRegistrar.
  destruct (fin (registrarDiferenciasPermisos _ _ _ _ _ _)); repeat split; reflexivity.
Qed.

Lemma revisarDocumentos_marco ruta local it s :
  hojaDeCola (revisarDocumentos ruta local it s) = hojaDeCola s
  /\ traza (revisarDocumentos ruta local it s) = traza s
  /\ comparadas (revisarDocumentos ruta local it s)
     = comparadas s
       ++ map (fun d => (local, obtenerConjuntoPermisos (permisosArchivo d))) (entregados it).
Proof.
  unfold revisarDocumentos.
  assert (H : forall l s0,
             hojaDeCola (fold_left (revisarDocumento ruta local) l s0) = hojaDeCola s0
             /\ traza (fold_left (revisarDocumento ruta local) l s0) = traza s0
             /\ comparadas (fold_left (revisarDocumento ruta local) l s0)
                = comparadas s0
                  ++ map (fun d => (local, obtenerConjuntoPermisos (permisosArchivo d))) l).
  { induction l as [| d l IH]; intros s0; simpl.
    - rewrite app_nil_r. auto.
    - destruct (IH (revisarDocumento ruta local s0 d)) as (-> & -> & ->).
      destruct (revisarDocumento_marco ruta local s0 d) as (-> & -> & ->).
      rewrite <- app_assoc. auto. }
  destruct (falla it); cbn [anotar hojaDeCola traza comparadas]; apply H.
Qed.

(** One whole visit: the front row is read, its children are written
    behind every pending row, and the front row is deleted last. *)
Lemma iteracion_visita (drive : Drive) (s s' : Estado) (e : Entrada) (resto : list Entrada) :
  hojaDeCola s = e :: resto ->
  iteracion drive s = Sigue s' ->
  hojaDeCola s' = resto ++ hijos drive e
  /\ traza s' = traza s ++ bloque drive e.
Proof.
  intros Hcola. unfold iteracion, bloque, hijos. rewrite Hcola.
  destruct (JSON_parse (permisosCache e)) as [padre | err].
  2:{ intros H. inversion H; subst; clear H. cbn. rewrite app_nil_r.
      split; [reflexivity |]. now rewrite <- app_assoc. }
  destruct (drive (idNode e)) as [carpeta | err].
  2:{ intros H. inversion H; subst; clear H. cbn. rewrite app_nil_r.
      split; [reflexivity |]. now rewrite <- app_assoc. }
  set (local := obtenerConjuntoPermisos (permisosCarpeta carpeta)).
  set (s0 := eventos [LeeFrente e] s).
  assert (H0 : hojaDeCola s0 = e :: resto /\ traza s0 = traza s ++ [LeeFrente e])
    by (split; [exact Hcola | reflexivity]).
  clearbody s0.
  set (par := if negb (banderaRaiz e)
              then llamarRegistrar padre local (rutaArmada e) (urlVisita e)
                                   "Carpeta Plegable" s0
              else (s0, Normal)).
  assert (H1 : hojaDeCola (fst par) = e :: resto /\ traza (fst par) = traza s ++ [LeeFrente e]).
  { subst par. destruct (negb (banderaRaiz e)); [| exact H0].
    destruct (llamarRegistrar_marco padre local (rutaArmada e) (urlVisita e)
                "Carpeta Plegable" s0) as (-> & -> & _). exact H0. }
  clearbody par. destruct par as [s1 salida]. cbn [fst] in H1.
  destruct salida; [| discriminate].
  intros H. inversion H; subst; clear H.
  destruct (revisarDocumentos_marco (rutaArmada e) local (getFiles carpeta) s1)
    as (Hq & Ht & _).
  destruct H1 as [H1q H1t].
  cbn [eventos conCola hojaDeCola traza]. rewrite Hq, Ht, H1q, H1t.
  cbn [tl app]. split; [reflexivity |].
  rewrite <- !app_assoc. reflexivity.
Qed.




(** *** The loop *)

Lemma bucle_vacia (drive : Drive) (t0 : Z) (lects : list Z) (s : Estado) :
  hojaDeCola s = [] ->
  bucle drive t0 lects s
  = Completada
      (avisar AlertaCompletada
         (anotar ["Procesamiento completado y analizado en su totalidad del árbol.";
                  "Estado limpiado desde interfaz."] s)).
Proof. intros H. destruct lects; simpl; rewrite H; reflexivity. Qed.

Lemma bucle_paso (drive : Drive) (t0 t : Z) (lects : list Z) (s : Estado) :
  hojaDeCola s <> [] ->
  bucle drive t0 (t :: lects) s
  = if (TIEMPO_MAXIMO_EJECUCION_MS <? t - t0)%Z
    then Pausada (avisar AlertaPausa s)
    else match iteracion drive s with
         | Sigue s' => bucle drive t0 lects s'
         | Aborta s' e => Fallida s' e
         end.
Proof. intros H. simpl. destruct (hojaDeCola s); [congruence | reflexivity]. Qed.

Lemma bucle_sin_lecturas (drive : Drive) (t0 : Z) (s : Estado) :
  hojaDeCola s <> [] -> bucle drive t0 [] s = SinLecturas s.
Proof. intros H. simpl. destruct (hojaDeCola s); [congruence | reflexivity]. Qed.

(** A run that completes visits a prefix [xs] of the queue, in order,
    before anything else; what is then pending is the rest of the queue
    followed by the children of [xs]. *)
Lemma bucle_prefijo (drive : Drive) (t0 : Z) (xs : list Entrada) :
  forall (lects : list Z) (s sf : Estado) (ys : list Entrada),
    hojaDeCola s = xs ++ ys ->
    bucle drive t0 lects s = Completada sf ->
    exists lects' s',
      bucle drive t0 lects' s' = Completada sf
      /\ hojaDeCola s' = ys ++ flat_map (hijos drive) xs
      /\ traza s' = traza s ++ flat_map (bloque drive) xs
      /\ (List.length lects' + List.length xs = List.length lects)%nat.
Proof.
  induction xs as [| x xs IH]; intros lects s sf ys Hcola Hrun.
  - exists lects, s. cbn [flat_map List.length]. rewrite !app_nil_r.
    repeat split; [exact Hrun | exact Hcola | lia].
  - assert (Hne : hojaDeCola s <> []) by (rewrite Hcola; discriminate).
    destruct lects as [| t lects].
    { rewrite bucle_sin_lecturas in Hrun by exact Hne. discriminate. }
    rewrite bucle_paso in Hrun by exact Hne.
    destruct (TIEMPO_MAXIMO_EJECUCION_MS <? t - t0)%Z; [discriminate |].
    destruct (iteracion drive s) as [s1 | s1 err] eqn:Hit; [| discriminate].
    destruct (iteracion_visita drive s s1 x (xs ++ ys) Hcola Hit) as [Hq Ht].
    rewrite <- app_assoc in Hq.
    destruct (IH lects s1 sf (ys ++ hijos drive x) Hq Hrun) as (lects' & s' & H1 & H2 & H3 & H4).
    exists lects', s'. cbn [flat_map List.length].
    repeat split.
    + exact H1.
    + rewrite H2, <- app_assoc. reflexivity.
    + rewrite H3, Ht, <- app_assoc. reflexivity.
    + lia.
Qed.

Lemma bucle_por_niveles (drive : Drive) (t0 : Z) (n : nat) :
  forall (lects : list Z) (s sf : Estado),
    (List.length lects <= n)%nat ->
    bucle drive t0 lects s = Completada sf ->
    exists m, traza sf = traza s ++ flat_map (bloque drive) (por_niveles drive m (hojaDeCola s)).
Proof.
  induction n as [| n IH]; intros lects s sf Hn Hrun;
    destruct (hojaDeCola s) as [| e q] eqn:Hcola.
  - rewrite bucle_vacia in Hrun by exact Hcola. inversion Hrun; subst.
    exists O. cbn. now rewrite app_nil_r.
  - destruct lects; [| simpl in Hn; lia].
    rewrite bucle_sin_lecturas in Hrun by (rewrite Hcola; discriminate). discriminate.
  - rewrite bucle_vacia in Hrun by exact Hcola. inversion Hrun; subst.
    exists O. cbn. now rewrite app_nil_r.
  - destruct (bucle_prefijo drive t0 (e :: q) lects s sf [] ) as (lects' & s' & H1 & H2 & H3 & H4).
    { rewrite app_nil_r. exact Hcola. }
    { exact Hrun. }
    cbn [List.length] in H4.
    destruct (IH lects' s' sf) as [m Hm]; [lia | exact H1 |].
    exists (S m). cbn [por_niveles]. rewrite flat_map_app.
    rewrite Hm, H3, H2. cbn [app]. rewrite <- app_assoc. reflexivity.
Qed.

(** A run that pauses has made whole visits only. *)
Lemma bucle_pausada (drive : Drive) (t0 : Z) (lects : list Z) :
  forall (s sf : Estado),
    bucle drive t0 lects s = Pausada sf ->
    exists k s' t,
      iterar drive k s = Some s'
      /\ hojaDeCola s' <> []
      /\ nth_error lects k = Some t
      /\ (TIEMPO_MAXIMO_EJECUCION_MS < t - t0)%Z
      /\ sf = avisar AlertaPausa s'.
Proof.
  induction lects as [| t lects IH]; intros s sf Hrun;
    destruct (hojaDeCola s) as [| e q] eqn:Hcola.
  - rewrite bucle_vacia in Hrun by exact Hcola. discriminate.
  - rewrite bucle_sin_lecturas in Hrun by (rewrite Hcola; discriminate). discriminate.
  - rewrite bucle_vacia in Hrun by exact Hcola. discriminate.
  - rewrite bucle_paso in Hrun by (rewrite Hcola; discriminate).
    destruct (TIEMPO_MAXIMO_EJECUCION_MS <? t - t0)%Z eqn:Ht.
    + inversion Hrun; subst. exists O, s, t. cbn.
      repeat split; [rewrite Hcola; discriminate | now apply Z.ltb_lt].
    + destruct (iteracion drive s) as [s1 | s1 err] eqn:Hit; [| discriminate].
      destruct (IH s1 sf Hrun) as (k & s' & t' & H1 & H2 & H3 & H4 & H5).
      exists (S k), s', t'. cbn [iterar nth_error]. rewrite Hcola, Hit.
      repeat split; assumption.
Qed.

End Recorrido.

(** ** Claims on the traversal *)
Section Afirmaciones_Recorrido.
Import Cfg_Constantes API_Permisos UI_Menu Ejemplo.

(** C3: when the clock reading at the top of the loop exceeds the session
    budget, the session stops there with the queue, the report and the
    history of queue operations as they were (only the alert is added); and
    whenever a session ends paused, its state is the one reached by some
    number of whole visits, none interrupted, with the queue not empty. *)
Theorem C3_pausa_deja_la_cola_intacta :
  forall (drive : Drive) (t0 : Z),
    (forall (t : Z) (lects : list Z) (s : Estado),
        hojaDeCola s <> [] ->
        (TIEMPO_MAXIMO_EJECUCION_MS < t - t0)%Z ->
        bucle drive t0 (t :: lects) s = Pausada (avisar AlertaPausa s)
        /\ hojaDeCola (avisar AlertaPausa s) = hojaDeCola s
        /\ hojaReporte (avisar AlertaPausa s) = hojaReporte s
        /\ traza (avisar AlertaPausa s) = traza s)
    /\ (forall (lects : list Z) (s sf : Estado),
          bucle drive t0 lects s = Pausada sf ->
          exists k s',
            iterar drive k s = Some s'
            /\ hojaDeCola s' <> []
            /\ hojaDeCola sf = hojaDeCola s'
            /\ hojaReporte sf = hojaReporte s'
            /\ traza sf = traza s').
Proof.
  intros drive t0. split.
  - intros t lects s Hne Ht. rewrite bucle_paso by exact Hne.
    apply Z.ltb_lt in Ht. rewrite Ht. repeat split; reflexivity.
  - intros lects s sf Hrun.
    destruct (bucle_pausada drive t0 lects s sf Hrun) as (k & s' & t & H1 & H2 & _ & _ & ->).
    exists k, s'. repeat split; assumption.
Qed.


(** C6: a front row whose permission cell cannot be parsed is deleted
    without a report row, without a comparison and without queueing
    anything; the failure is logged and the loop goes on with the rows that
    were behind it. *)
Theorem C6_entrada_corrupta_se_descarta :
  forall (drive : Drive) (t0 t : Z) (lects : list Z) (s : Estado)
         (e : Entrada) (resto : list Entrada) (err : Error),
    hojaDeCola s = e :: resto ->
    JSON_parse (permisosCache e) = inr err ->
    (t - t0 <= TIEMPO_MAXIMO_EJECUCION_MS)%Z ->
    exists s',
      iteracion drive s = Sigue s'
      /\ hojaDeCola s' = resto
      /\ hojaReporte s' = hojaReporte s
      /\ comparadas s' = comparadas s
      /\ traza s' = traza s ++ [LeeFrente e; BorraFrente e]
      /\ (exists linea, registro s' = registro s ++ [linea])
      /\ bucle drive t0 (t :: lects) s = bucle drive t0 lects s'.
Proof.
  intros drive t0 t lects s e resto err Hcola Hparse Ht.
  assert (Hit : exists s', iteracion drive s = Sigue s'
                           /\ hojaDeCola s' = resto
                           /\ hojaReporte s' = hojaReporte s
                           /\ comparadas s' = comparadas s
                           /\ traza s' = traza s ++ [LeeFrente e; BorraFrente e]
                           /\ (exists linea, registro s' = registro s ++ [linea])).
  { unfold iteracion. rewrite Hcola, Hparse. eexists. split; [reflexivity |].
    cbn. rewrite <- app_assoc. repeat split. eexists. reflexivity. }
  destruct Hit as (s' & Hit & H1 & H2 & H3 & H4 & H5).
  exists s'. repeat split; try assumption.
  rewrite bucle_paso by (rewrite Hcola; discriminate).
  replace (TIEMPO_MAXIMO_EJECUCION_MS <? t - t0)%Z with false
    by (symmetry; apply Z.ltb_ge; exact Ht).
  rewrite Hit. reflexivity.
Qed.

(** X2: when the front row is a folder other than the root whose
    permission set diverges from the cached set of its parent, the session
    ends with the ReferenceError of the comparison: the row stays at the
    front of the queue and nothing is added to the report. *)
Theorem X2_carpeta_divergente_aborta :
  forall (drive : Drive) (t0 t : Z) (lects : list Z) (s : Estado)
         (e : Entrada) (resto : list Entrada) (padre : ConjuntoPermisos) (carpeta : Carpeta),
    hojaDeCola s = e :: resto ->
    JSON_parse (permisosCache e) = inl padre ->
    drive (idNode e) = inl carpeta ->
    banderaRaiz e = false ->
    diferenciasDetectadas padre (obtenerConjuntoPermisos (permisosCarpeta carpeta)) = true ->
    (t - t0 <= TIEMPO_MAXIMO_EJECUCION_MS)%Z ->
    exists s',
      bucle drive t0 (t :: lects) s = Fallida s' (ReferenceError "hojaReporte")
      /\ hojaDeCola s' = e :: resto
      /\ hojaReporte s' = hojaReporte s.
Proof.
  intros drive t0 t lects s e resto padre carpeta Hcola Hparse Hdrive Hraiz Hdiv Ht.
  rewrite bucle_paso by (rewrite Hcola; discriminate).
  replace (TIEMPO_MAXIMO_EJECUCION_MS <? t - t0)%Z with false
    by (symmetry; apply Z.ltb_ge; exact Ht).
  unfold iteracion. rewrite Hcola, Hparse, Hdrive, Hraiz. cbn [negb].
  unfold llamarRegistrar. rewrite registrar_salida, Hdiv.
  cbn [fin anexadas registrado]. eexists. split; [reflexivity |].
  split; [exact Hcola | apply app_nil_r].
Qed.

(** X3: for a file of the folder the ReferenceError is caught, so a file
    whose set diverges from the folder's leaves one row in the report, with
    the alert text in place of the rendered access; a file that does not
    diverge leaves none. *)
Theorem X3_documento_divergente_alerta :
  forall (ruta : string) (local : ConjuntoPermisos) (s : Estado) (doc : Archivo),
    hojaReporte (revisarDocumento ruta local s doc)
    = hojaReporte s ++
      (if diferenciasDetectadas local (obtenerConjuntoPermisos (permisosArchivo doc))
       then [[ruta +++ "/" +++ nombreArchivo doc; urlArchivo doc; "Documento Unitario";
              "Alerta de Lectura en Permisología: hojaReporte is not defined"]]
       else []).
Proof.
  intros ruta local s doc. unfold revisarDocumento, llamarRegistrar.
  rewrite registrar_salida.
  destruct (diferenciasDetectadas local _); cbn; rewrite ?app_nil_r; reflexivity.
Qed.

End Afirmaciones_Recorrido.

(** ** The statements at work on the small drive *)
Section Testigos.
Import Cfg_Constantes API_Permisos UI_Menu API_SalidaDrive Ejemplo.

Lemma hallazgos_ej_longitud :
  Z.of_nat (List.length hallazgos_ej) = (LIMITE_FILAS_POR_HOJA_REPORTE + 1)%Z.
Proof.
  unfold hallazgos_ej. rewrite repeat_length. apply Z2Nat.id.
  vm_compute. discriminate.
Defined.

(** C2 at [hallazgos_ej], on an empty platform. *)
Lemma C2_testigo :
  Z.of_nat (List.length hallazgos_ej) = (LIMITE_FILAS_POR_HOJA_REPORTE + 1)%Z
  /\ exists l1 l2,
       libros (fst (volcarHallazgos (map escrita hallazgos_ej) plataforma_vacia
                                    (estadoInicial "Unidad" "carpeta" 0)))
       = libros plataforma_vacia ++ [l1; l2]
       /\ filas l1 = CABECERAS_REPORTE_TECNICO :: firstn filas_por_parte hallazgos_ej
       /\ filas l2 = CABECERAS_REPORTE_TECNICO :: skipn filas_por_parte hallazgos_ej
       /\ List.length (skipn filas_por_parte hallazgos_ej) = 3%nat.
Proof.
  split; [exact hallazgos_ej_longitud |].
  exact (proj1 (C2_particion_al_rebasar plataforma_vacia "Unidad" "carpeta" 0
                  hallazgos_ej hallazgos_ej_longitud)).
Defined.

(** C2 as stated fails: after [LIMITE_FILAS_POR_HOJA_REPORTE + 1] findings
    the second part holds four rows, the header and three data rows, where
    the claim has the header and one data row. *)
Lemma C2_contraejemplo :
  exists l1 l2,
    libros (fst (volcarHallazgos (map escrita hallazgos_ej) plataforma_vacia
                                 (estadoInicial "Unidad" "carpeta" 0)))
    = [l1; l2]
    /\ List.length (filas l2) = 4%nat.
Proof.
  destruct (volcar_limite_mas_uno plataforma_vacia "Unidad" "carpeta" 0
              hallazgos_ej hallazgos_ej_longitud) as (Hr & _ & Hb).
  rewrite Hr. cbn [fst libros plataforma_vacia app].
  eexists; eexists. split; [reflexivity |].
  cbn [filas conFilas List.length]. rewrite Hb. reflexivity.
Qed.

(** C3 on the small drive: a late first reading pauses at once; a late
    second reading pauses after one whole visit. *)
Lemma C3_testigo :
  (hojaDeCola estado_ej <> []
   /\ (TIEMPO_MAXIMO_EJECUCION_MS < 1200001 - 0)%Z
   /\ bucle drive_ej 0 [1200001%Z] estado_ej = Pausada (avisar AlertaPausa estado_ej))
  /\ (bucle drive_ej 0 [0%Z; 1200001%Z] estado_ej
      = Pausada (estado_final (bucle drive_ej 0 [0%Z; 1200001%Z] estado_ej))
      /\ exists k s',
           iterar drive_ej k estado_ej = Some s'
           /\ hojaDeCola s' <> []
           /\ hojaDeCola (estado_final (bucle drive_ej 0 [0%Z; 1200001%Z] estado_ej))
              = hojaDeCola s'
           /\ hojaReporte (estado_final (bucle drive_ej 0 [0%Z; 1200001%Z] estado_ej))
              = hojaReporte s'
           /\ traza (estado_final (bucle drive_ej 0 [0%Z; 1200001%Z] estado_ej))
              = traza s').
Proof.
  assert (H1 : hojaDeCola estado_ej <> []) by discriminate.
  assert (H2 : (TIEMPO_MAXIMO_EJECUCION_MS < 1200001 - 0)%Z) by reflexivity.
  assert (H3 : bucle drive_ej 0 [0%Z; 1200001%Z] estado_ej
               = Pausada (estado_final (bucle drive_ej 0 [0%Z; 1200001%Z] estado_ej)))
    by (vm_compute; reflexivity).
  split.
  - split; [exact H1 |]. split; [exact H2 |].
    exact (proj1 (proj1 (C3_pausa_deja_la_cola_intacta drive_ej 0)
                        1200001%Z [] estado_ej H1 H2)).
  - split; [exact H3 |].
    exact (proj2 (C3_pausa_deja_la_cola_intacta drive_ej 0) _ _ _ H3).
Defined.


(** C5 as stated fails: B, the child of A, is written to the queue (second
    operation) before the row of A is deleted (third operation). *)
Lemma C5_contraejemplo :
  traza (estado_final (continuarAuditoria drive_ej [0%Z; 0%Z; 0%Z] estado_ej))
  = [LeeFrente entrada_A; Encola entrada_B; BorraFrente entrada_A;
     LeeFrente entrada_B; BorraFrente entrada_B]
  /\ nth_error (traza (estado_final (continuarAuditoria drive_ej [0%Z; 0%Z; 0%Z] estado_ej))) 1
     = Some (Encola entrada_B)
  /\ nth_error (traza (estado_final (continuarAuditoria drive_ej [0%Z; 0%Z; 0%Z] estado_ej))) 2
     = Some (BorraFrente entrada_A).
Proof. vm_compute. repeat split. Qed.

(** C6 on a queue whose front row is unreadable. *)
Lemma C6_testigo :
  hojaDeCola estado_roto = entrada_rota :: [entrada_B]
  /\ JSON_parse (permisosCache entrada_rota) = inr (SyntaxError "Unexpected end of JSON input")
  /\ (0 - 0 <= TIEMPO_MAXIMO_EJECUCION_MS)%Z
  /\ exists s',
       iteracion drive_ej estado_roto = Sigue s'
       /\ hojaDeCola s' = [entrada_B]
       /\ hojaReporte s' = hojaReporte estado_roto
       /\ comparadas s' = comparadas estado_roto
       /\ traza s' = traza estado_roto ++ [LeeFrente entrada_rota; BorraFrente entrada_rota]
       /\ (exists linea, registro s' = registro estado_roto ++ [linea])
       /\ bucle drive_ej 0 [0%Z; 0%Z] estado_roto = bucle drive_ej 0 [0%Z] s'.
Proof.
  assert (H3 : (0 - 0 <= TIEMPO_MAXIMO_EJECUCION_MS)%Z) by (vm_compute; discriminate).
  split; [reflexivity |]. split; [reflexivity |]. split; [exact H3 |].
  exact (C6_entrada_corrupta_se_descarta drive_ej 0%Z 0%Z [0%Z] estado_roto
           entrada_rota [entrada_B] _ eq_refl eq_refl H3).
Defined.

(** X2 on a queue whose front row is the folder C. *)
Lemma X2_testigo :
  hojaDeCola estado_divergente = entrada_C :: [entrada_B]
  /\ JSON_parse (permisosCache entrada_C) = inl (obtenerConjuntoPermisos permisos_base)
  /\ drive_ej (idNode entrada_C) = inl carpetaC
  /\ banderaRaiz entrada_C = false
  /\ diferenciasDetectadas (obtenerConjuntoPermisos permisos_base)
                           (obtenerConjuntoPermisos (permisosCarpeta carpetaC)) = true
  /\ (0 - 0 <= TIEMPO_MAXIMO_EJECUCION_MS)%Z
  /\ exists s',
       bucle drive_ej 0 [0%Z; 0%Z] estado_divergente
       = Fallida s' (ReferenceError "hojaReporte")
       /\ hojaDeCola s' = entrada_C :: [entrada_B]
       /\ hojaReporte s' = hojaReporte estado_divergente.
Proof.
  assert (H : (0 - 0 <= TIEMPO_MAXIMO_EJECUCION_MS)%Z) by (vm_compute; discriminate).
  repeat (split; [reflexivity |]). split; [exact H |].
  exact (X2_carpeta_divergente_aborta drive_ej 0%Z 0%Z [0%Z] estado_divergente
           entrada_C [entrada_B] _ carpetaC eq_refl eq_refl eq_refl eq_refl eq_refl H).
Defined.

End Testigos.

(** ** More on the permission model *)
Section Mas_Permisos.
Import Cfg_Constantes API_Permisos Ejemplo.

Lemma NoDup_Set_add (s : list string) (x : string) :
  NoDup s -> NoDup (Set_add s x).
Proof.
  intros Hs. unfold Set_add. destruct (includes s x) eqn:E; [exact Hs |].
  apply includes_false in E. apply NoDup_app; [exact Hs | repeat constructor; auto |].
  intros a Ha [<- | []]. exact (E Ha).
Qed.

Lemma NoDup_fold_Set_add (l acc : list string) :
  NoDup acc -> NoDup (fold_left Set_add l acc).
Proof.
  revert acc. induction l as [| x l IH]; intros acc Hacc; simpl; [exact Hacc |].
  apply IH, NoDup_Set_add, Hacc.
Qed.

Lemma includes_mismos (l1 l2 : list string) (x : string) :
  mismos l1 l2 -> includes l1 x = includes l2 x.
Proof.
  intros H. apply eq_true_iff_eq. rewrite !includes_In. apply H.
Qed.

Lemma nivel_mismos (P P' : ConjuntoPermisos) (x : string) :
  mismos (editores P) (editores P') ->
  mismos (visualizadores P) (visualizadores P') ->
  obtenerNivelAccesoUsuario x P = obtenerNivelAccesoUsuario x P'.
Proof.
  intros He Hv. unfold obtenerNivelAccesoUsuario.
  now rewrite (includes_mismos _ _ x He), (includes_mismos _ _ x Hv).
Qed.

Lemma nivel_Editor (P : ConjuntoPermisos) (x : string) :
  obtenerNivelAccesoUsuario x P = Editor <-> In x (editores P).
Proof.
  unfold obtenerNivelAccesoUsuario. rewrite <- includes_In.
  destruct (includes (editores P) x); [tauto |].
  destruct (includes (visualizadores P) x); split; discriminate.
Qed.

Lemma nivel_Visualizador (P : ConjuntoPermisos) (x : string) :
  obtenerNivelAccesoUsuario x P = Visualizador
  <-> In x (visualizadores P) /\ ~ In x (editores P).
Proof.
  unfold obtenerNivelAccesoUsuario. rewrite <- includes_In, <- includes_false.
  destruct (includes (editores P) x), (includes (visualizadores P) x);
    split; try discriminate; try tauto; intros [H1 H2]; discriminate.
Qed.

Lemma nivel_Ninguno (P : ConjuntoPermisos) (x : string) :
  obtenerNivelAccesoUsuario x P = Ninguno
  <-> ~ In x (editores P) /\ ~ In x (visualizadores P).
Proof.
  unfold obtenerNivelAccesoUsuario. rewrite <- !includes_false.
  destruct (includes (editores P) x), (includes (visualizadores P) x);
    split; try discriminate; try tauto; intros [H1 H2]; discriminate.
Qed.

(** X5: the normaliser returns sets: no address is repeated among the
    editors nor among the viewers, the editors are exactly the addresses
    read from [getEditors], and the viewers exactly those read from
    [getViewers] that are not editors. *)
Theorem X5_normalizador_devuelve_conjuntos :
  forall e : Elemento,
    NoDup (editores (obtenerConjuntoPermisos e))
    /\ NoDup (visualizadores (obtenerConjuntoPermisos e))
    /\ (forall x, In x (editores (obtenerConjuntoPermisos e))
                  <-> In x (leidos (getEditors e)))
    /\ (forall x, In x (visualizadores (obtenerConjuntoPermisos e))
                  <-> In x (leidos (getViewers e)) /\ ~ In x (leidos (getEditors e))).
Proof.
  intros e. split; [| split; [| split]].
  - unfold obtenerConjuntoPermisos; cbn [editores].
    destruct (getEditors e); [apply NoDup_fold_Set_add |]; constructor.
  - unfold obtenerConjuntoPermisos; cbn [visualizadores]. apply NoDup_filter.
    destruct (getViewers e); [apply NoDup_fold_Set_add |]; constructor.
  - apply editores_obtener.
  - apply visualizadores_obtener.
Qed.

(** X6: of the two link levels at most one is set.  The public level is set
    exactly for the scopes ANYONE and ANYONE_WITH_LINK, the domain level
    exactly for DOMAIN and DOMAIN_WITH_LINK, and in both cases only the
    permissions EDIT and VIEW count: a link that grants any other permission
    (COMMENT, for one) is recorded as Ninguno. *)
Theorem X6_niveles_de_enlace :
  forall (ed vi : option (list string)) (ac : Access) (pe : Permission),
    let r := obtenerConjuntoPermisos (mkElemento ed vi (Some ac) (Some pe)) in
    (accesoPublico r = Ninguno \/ accesoDominio r = Ninguno)
    /\ (accesoPublico r = Editor <-> (ac = ANYONE \/ ac = ANYONE_WITH_LINK) /\ pe = EDIT)
    /\ (accesoPublico r = Visualizador <-> (ac = ANYONE \/ ac = ANYONE_WITH_LINK) /\ pe = VIEW)
    /\ (accesoDominio r = Editor <-> (ac = DOMAIN \/ ac = DOMAIN_WITH_LINK) /\ pe = EDIT)
    /\ (accesoDominio r = Visualizador <-> (ac = DOMAIN \/ ac = DOMAIN_WITH_LINK) /\ pe = VIEW).
Proof.
  intros ed vi ac pe r. subst r. unfold obtenerConjuntoPermisos.
  cbn [getSharingAccess getSharingPermission accesoPublico accesoDominio].
  destruct ac, pe; cbn [fst snd nivel_de_permiso];
    (split; [auto |]);
    repeat split; try discriminate; try tauto;
    intros [[H | H] H']; discriminate.
Qed.

(** X7: on a normalised set the access of an identity is read off the raw
    lists, editor first: Editor exactly for the addresses in the editor
    list, Visualizador exactly for those in the viewer list only, Ninguno
    exactly for those in neither. *)
Theorem X7_nivel_sobre_conjunto_normalizado :
  forall (e : Elemento) (x : string),
    (obtenerNivelAccesoUsuario x (obtenerConjuntoPermisos e) = Editor
     <-> In x (leidos (getEditors e)))
    /\ (obtenerNivelAccesoUsuario x (obtenerConjuntoPermisos e) = Visualizador
        <-> In x (leidos (getViewers e)) /\ ~ In x (leidos (getEditors e)))
    /\ (obtenerNivelAccesoUsuario x (obtenerConjuntoPermisos e) = Ninguno
        <-> ~ In x (leidos (getEditors e)) /\ ~ In x (leidos (getViewers e))).
Proof.
  intros e x.
  rewrite nivel_Editor, nivel_Visualizador, nivel_Ninguno.
  rewrite !visualizadores_obtener, !editores_obtener. tauto.
Qed.

(** X8: between two sets whose editors and viewers are disjoint, no
    divergence is detected exactly when they have the same editors, the same
    viewers (as sets) and the same public and domain levels. *)
Theorem X8_sin_divergencia_sii_iguales :
  forall P C : ConjuntoPermisos,
    disjuntos P -> disjuntos C ->
    (diferenciasDetectadas P C = false
     <-> mismos (editores P) (editores C)
         /\ mismos (visualizadores P) (visualizadores C)
         /\ accesoPublico P = accesoPublico C
         /\ accesoDominio P = accesoDominio C).
Proof.
  intros P C HP HC.
  assert (Hiff : diferenciasDetectadas P C = false <-> ~ divergen P C).
  { rewrite <- diferenciasDetectadas_spec.
    destruct (diferenciasDetectadas P C); split; congruence. }
  rewrite Hiff. unfold divergen. split.
  - intros Hno.
    assert (Hniv : forall u,
               In u (editores P ++ visualizadores P ++ editores C ++ visualizadores C) ->
               obtenerNivelAccesoUsuario u P = obtenerNivelAccesoUsuario u C).
    { intros u Hu.
      destruct (obtenerNivelAccesoUsuario u P) eqn:E1,
               (obtenerNivelAccesoUsuario u C) eqn:E2; try reflexivity;
        exfalso; apply Hno; left; exists u; (split; [exact Hu | congruence]). }
    assert (Hpub : accesoPublico P = accesoPublico C).
    { destruct (accesoPublico P) eqn:E1, (accesoPublico C) eqn:E2; try reflexivity;
        exfalso; apply Hno; right; left; congruence. }
    assert (Hdom : accesoDominio P = accesoDominio C).
    { destruct (accesoDominio P) eqn:E1, (accesoDominio C) eqn:E2; try reflexivity;
        exfalso; apply Hno; right; right; congruence. }
    repeat split; try assumption; intros Hx.
    + apply nivel_Editor. rewrite <- Hniv by (rewrite !in_app_iff; tauto).
      now apply nivel_Editor.
    + apply nivel_Editor. rewrite Hniv by (rewrite !in_app_iff; tauto).
      now apply nivel_Editor.
    + assert (H : obtenerNivelAccesoUsuario x C = Visualizador).
      { rewrite <- Hniv by (rewrite !in_app_iff; tauto).
        apply nivel_Visualizador. split; [exact Hx |]. intros He. exact (HP x He Hx). }
      apply nivel_Visualizador in H. tauto.
    + assert (H : obtenerNivelAccesoUsuario x P = Visualizador).
      { rewrite Hniv by (rewrite !in_app_iff; tauto).
        apply nivel_Visualizador. split; [exact Hx |]. intros He. exact (HC x He Hx). }
      apply nivel_Visualizador in H. tauto.
  - intros (He & Hv & Hpub & Hdom) [[u [_ Hne]] | [H | H]]; try congruence.
    apply Hne. apply nivel_mismos; assumption.
Qed.

(** X9: detection looks at the stored arrays only through membership: two
    parents (or two children) that list the same editors and the same
    viewers, in whatever order and with whatever repetitions, and have the
    same link levels give the same verdict. *)
Theorem X9_deteccion_por_pertenencia :
  forall P P' C C' : ConjuntoPermisos,
    mismos (editores P) (editores P') ->
    mismos (visualizadores P) (visualizadores P') ->
    accesoPublico P = accesoPublico P' ->
    accesoDominio P = accesoDominio P' ->
    mismos (editores C) (editores C') ->
    mismos (visualizadores C) (visualizadores C') ->
    accesoPublico C = accesoPublico C' ->
    accesoDominio C = accesoDominio C' ->
    diferenciasDetectadas P C = diferenciasDetectadas P' C'.
Proof.
  intros P P' C C' HPe HPv HPp HPd HCe HCv HCp HCd.
  apply eq_true_iff_eq. rewrite !diferenciasDetectadas_spec. unfold divergen.
  rewrite HPp, HPd, HCp, HCd.
  assert (Hu : forall u,
             In u (editores P ++ visualizadores P ++ editores C ++ visualizadores C)
             <-> In u (editores P' ++ visualizadores P' ++ editores C' ++ visualizadores C')).
  { intros u. rewrite !in_app_iff.
    rewrite (HPe u), (HPv u), (HCe u), (HCv u). tauto. }
  split; (intros [[u [Hin Hne]] | H]; [left | right; exact H]); exists u.
  - split; [now apply Hu |].
    now rewrite <- (nivel_mismos P P' u HPe HPv), <- (nivel_mismos C C' u HCe HCv).
  - split; [now apply Hu |].
    now rewrite (nivel_mismos P P' u HPe HPv), (nivel_mismos C C' u HCe HCv).
Qed.

(** X8 on the two permission sets of the example. *)
Lemma X8_testigo :
  disjuntos (obtenerConjuntoPermisos permisos_base)
  /\ disjuntos (obtenerConjuntoPermisos permisos_publicos)
  /\ (diferenciasDetectadas (obtenerConjuntoPermisos permisos_base)
                            (obtenerConjuntoPermisos permisos_publicos) = false
      <-> mismos (editores (obtenerConjuntoPermisos permisos_base))
                 (editores (obtenerConjuntoPermisos permisos_publicos))
          /\ mismos (visualizadores (obtenerConjuntoPermisos permisos_base))
                    (visualizadores (obtenerConjuntoPermisos permisos_publicos))
          /\ accesoPublico (obtenerConjuntoPermisos permisos_base)
             = accesoPublico (obtenerConjuntoPermisos permisos_publicos)
          /\ accesoDominio (obtenerConjuntoPermisos permisos_base)
             = accesoDominio (obtenerConjuntoPermisos permisos_publicos)).
Proof.
  split; [apply obtener_disjuntos |]. split; [apply obtener_disjuntos |].
  exact (X8_sin_divergencia_sii_iguales _ _ (obtener_disjuntos permisos_base)
           (obtener_disjuntos permisos_publicos)).
Defined.

(** X9 on a parent stored in another order and with a repetition. *)
Lemma X9_testigo :
  mismos ["a@x.com"; "b@x.com"] ["b@x.com"; "a@x.com"; "b@x.com"]
  /\ mismos ["c@x.com"] ["c@x.com"]
  /\ diferenciasDetectadas (mkConjunto ["a@x.com"; "b@x.com"] ["c@x.com"] Ninguno Editor)
                           (mkConjunto ["a@x.com"] [] Ninguno Editor)
     = diferenciasDetectadas
         (mkConjunto ["b@x.com"; "a@x.com"; "b@x.com"] ["c@x.com"] Ninguno Editor)
         (mkConjunto ["a@x.com"] [] Ninguno Editor).
Proof.
  assert (H1 : mismos ["a@x.com"; "b@x.com"] ["b@x.com"; "a@x.com"; "b@x.com"])
    by (intros x; simpl; tauto).
  assert (H2 : forall l, mismos l l) by (intros l x; tauto).
  split; [exact H1 |]. split; [apply H2 |].
  exact (X9_deteccion_por_pertenencia
           (mkConjunto ["a@x.com"; "b@x.com"] ["c@x.com"] Ninguno Editor)
           (mkConjunto ["b@x.com"; "a@x.com"; "b@x.com"] ["c@x.com"] Ninguno Editor)
           (mkConjunto ["a@x.com"] [] Ninguno Editor)
           (mkConjunto ["a@x.com"] [] Ninguno Editor)
           H1 (H2 _) eq_refl eq_refl (H2 _) (H2 _) eq_refl eq_refl).
Defined.

End Mas_Permisos.

(** ** More on the traversal *)
Section Mas_Recorrido.
Import Cfg_Constantes API_Permisos UI_Menu Ejemplo.

(** The only way a visit throws. *)
Lemma iteracion_aborta (drive : Drive) (s s' : Estado) (err : Error) :
  iteracion drive s = Aborta s' err ->
  exists e resto padre carpeta,
    hojaDeCola s = e :: resto
    /\ JSON_parse (permisosCache e) = inl padre
    /\ drive (idNode e) = inl carpeta
    /\ banderaRaiz e = false
    /\ diferenciasDetectadas padre (obtenerConjuntoPermisos (permisosCarpeta carpeta)) = true
    /\ err = ReferenceError "hojaReporte"
    /\ hojaDeCola s' = hojaDeCola s
    /\ hojaReporte s' = hojaReporte s
    /\ traza s' = traza s ++ [LeeFrente e].
Proof.
  unfold iteracion. destruct (hojaDeCola s) as [| e resto] eqn:Hcola; [discriminate |].
  destruct (JSON_parse (permisosCache e)) as [padre | e1] eqn:Hparse; [| discriminate].
  destruct (drive (idNode e)) as [carpeta | e2] eqn:Hdrive; [| discriminate].
  destruct (banderaRaiz e) eqn:Hraiz; cbn [negb]; [discriminate |].
  unfold llamarRegistrar. rewrite registrar_salida.
  destruct (diferenciasDetectadas padre _) eqn:Hdiv; cbn [fin anexadas registrado];
    [| discriminate].
  intros H. inversion H; subst; clear H.
  exists e, resto, padre, carpeta. cbn. rewrite app_nil_r.
  repeat split; assumption.
Qed.

Lemma iteracion_carpeta_divergente (drive : Drive) (s : Estado) (e : Entrada)
    (resto : list Entrada) (padre : ConjuntoPermisos) (carpeta : Carpeta) :
  hojaDeCola s = e :: resto ->
  JSON_parse (permisosCache e) = inl padre ->
  drive (idNode e) = inl carpeta ->
  banderaRaiz e = false ->
  diferenciasDetectadas padre (obtenerConjuntoPermisos (permisosCarpeta carpeta)) = true ->
  exists s', iteracion drive s = Aborta s' (ReferenceError "hojaReporte")
             /\ hojaDeCola s' = e :: resto
             /\ hojaReporte s' = hojaReporte s.
Proof.
  intros Hcola Hparse Hdrive Hraiz Hdiv.
  unfold iteracion. rewrite Hcola, Hparse, Hdrive, Hraiz. cbn [negb].
  unfold llamarRegistrar. rewrite registrar_salida, Hdiv.
  cbn [fin anexadas registrado]. eexists. split; [reflexivity |].
  split; [exact Hcola | apply app_nil_r].
Qed.

(** In the model of the queue, where a cell holds a permission object of
    this script or a text that cannot be parsed, the visit that ends a
    session is the comparison of a folder with the cached set of its
    parent. *)
Lemma bucle_fallida :
  forall (drive : Drive) (t0 : Z) (lects : list Z) (s sf : Estado) (err : Error),
    bucle drive t0 lects s = Fallida sf err ->
    err = ReferenceError "hojaReporte"
    /\ (exists e resto padre carpeta,
          hojaDeCola sf = e :: resto
          /\ banderaRaiz e = false
          /\ JSON_parse (permisosCache e) = inl padre
          /\ drive (idNode e) = inl carpeta
          /\ diferenciasDetectadas padre
               (obtenerConjuntoPermisos (permisosCarpeta carpeta)) = true)
    /\ (forall (t0' t : Z) (lects' : list Z),
          (t - t0' <= TIEMPO_MAXIMO_EJECUCION_MS)%Z ->
          exists sf',
            bucle drive t0' (t :: lects') sf = Fallida sf' err
            /\ hojaDeCola sf' = hojaDeCola sf
            /\ hojaReporte sf' = hojaReporte sf).
Proof.
  intros drive t0 lects. induction lects as [| t lects IH]; intros s sf err Hrun;
    destruct (hojaDeCola s) as [| e0 q] eqn:Hcola.
  - rewrite bucle_vacia in Hrun by exact Hcola. discriminate.
  - rewrite bucle_sin_lecturas in Hrun by (rewrite Hcola; discriminate). discriminate.
  - rewrite bucle_vacia in Hrun by exact Hcola. discriminate.
  - rewrite bucle_paso in Hrun by (rewrite Hcola; discriminate).
    destruct (TIEMPO_MAXIMO_EJECUCION_MS <? t - t0)%Z; [discriminate |].
    destruct (iteracion drive s) as [s1 | s1 e1] eqn:Hit; [exact (IH s1 sf err Hrun) |].
    inversion Hrun; subst; clear Hrun.
    destruct (iteracion_aborta drive s sf err Hit)
      as (e & resto & padre & carpeta & H1 & H2 & H3 & H4 & H5 & H6 & H7 & H8 & _).
    assert (Hsf : hojaDeCola sf = e :: resto) by (rewrite H7; exact H1).
    split; [exact H6 |]. split.
    + exists e, resto, padre, carpeta. repeat split; assumption.
    + intros t0' t' lects' Ht.
      destruct (iteracion_carpeta_divergente drive sf e resto padre carpeta Hsf H2 H3 H4 H5)
        as (sf' & Hit' & Hq & Hr).
      exists sf'. rewrite bucle_paso by (rewrite Hsf; discriminate).
      replace (TIEMPO_MAXIMO_EJECUCION_MS <? t' - t0')%Z with false
        by (symmetry; apply Z.ltb_ge; exact Ht).
      rewrite Hit', H6. repeat split; [congruence | exact Hr].
Qed.

(** X10: a session that ends by the ReferenceError of the comparison does
    not advance.  It has stopped at a front row that is a folder other than
    the root whose set diverges from the cached set of its parent; that row
    is still at the front of the queue, and every later session that gets
    to run a visit ends by the same error on it, leaving queue and report
    as they are. *)
Theorem X10_sesion_fallida_no_avanza :
  forall (drive : Drive) (t0 : Z) (lects : list Z) (s sf : Estado),
    bucle drive t0 lects s = Fallida sf (ReferenceError "hojaReporte") ->
    (exists e resto padre carpeta,
        hojaDeCola sf = e :: resto
        /\ banderaRaiz e = false
        /\ JSON_parse (permisosCache e) = inl padre
        /\ drive (idNode e) = inl carpeta
        /\ diferenciasDetectadas padre
             (obtenerConjuntoPermisos (permisosCarpeta carpeta)) = true)
    /\ (forall (t0' t : Z) (lects' : list Z),
          (t - t0' <= TIEMPO_MAXIMO_EJECUCION_MS)%Z ->
          exists sf',
            bucle drive t0' (t :: lects') sf = Fallida sf' (ReferenceError "hojaReporte")
            /\ hojaDeCola sf' = hojaDeCola sf
            /\ hojaReporte sf' = hojaReporte sf).
Proof.
  intros drive t0 lects s sf Hrun.
  destruct (bucle_fallida drive t0 lects s sf _ Hrun) as (_ & Hfila & Hmas).
  split; [exact Hfila | exact Hmas].
Qed.

(** *** The queue as a history *)

Lemma borradas_app (a b : list Evento) : borradas (a ++ b) = borradas a ++ borradas b.
Proof. apply flat_map_app. Qed.

Lemma encoladas_app (a b : list Evento) : encoladas (a ++ b) = encoladas a ++ encoladas b.
Proof. apply flat_map_app. Qed.

Lemma encoladas_map (l : list Entrada) : encoladas (map Encola l) = l.
Proof. induction l as [| x l IH]; simpl; [| rewrite IH]; reflexivity. Qed.

Lemma borradas_map (l : list Entrada) : borradas (map Encola l) = [].
Proof. induction l as [| x l IH]; simpl; [| rewrite IH]; reflexivity. Qed.

Lemma conservacion_paso (drive : Drive) (q0 : list Entrada) (s : Estado) :
  borradas (traza s) ++ hojaDeCola s = q0 ++ encoladas (traza s) ->
  borradas (traza (tras_paso (iteracion drive s)))
    ++ hojaDeCola (tras_paso (iteracion drive s))
  = q0 ++ encoladas (traza (tras_paso (iteracion drive s))).
Proof.
  intros H. destruct (iteracion drive s) as [s' | s' err] eqn:Hit; cbn [tras_paso].
  - destruct (hojaDeCola s) as [| e resto] eqn:Hcola.
    + unfold iteracion in Hit. rewrite Hcola in Hit. inversion Hit; subst.
      rewrite Hcola. exact H.
    + destruct (iteracion_visita drive s s' e resto Hcola Hit) as [Hq Ht].
      rewrite Hq, Ht. unfold bloque.
      change (LeeFrente e :: map Encola (hijos drive e) ++ [BorraFrente e])
        with ([LeeFrente e] ++ map Encola (hijos drive e) ++ [BorraFrente e]).
      rewrite !borradas_app, !encoladas_app, borradas_map, encoladas_map. cbn.
      rewrite app_nil_r, !app_assoc, <- H, <- !app_assoc. reflexivity.
  - destruct (iteracion_aborta drive s s' err Hit)
      as (e & resto & _ & _ & _ & _ & _ & _ & _ & _ & Hq & _ & Ht).
    rewrite Hq, Ht, borradas_app, encoladas_app. cbn. rewrite !app_nil_r. exact H.
Qed.

(** X12: rows are neither lost nor duplicated by a session, however it
    ends: the rows deleted from the front followed by the rows still in the
    queue are, in order, the rows the queue started with followed by the
    rows written at its back. *)
Theorem X12_conservacion_de_la_cola :
  forall (drive : Drive) (t0 : Z) (lects : list Z) (q0 : list Entrada) (s : Estado),
    borradas (traza s) ++ hojaDeCola s = q0 ++ encoladas (traza s) ->
    borradas (traza (estado_final (bucle drive t0 lects s)))
      ++ hojaDeCola (estado_final (bucle drive t0 lects s))
    = q0 ++ encoladas (traza (estado_final (bucle drive t0 lects s))).
Proof.
  intros drive t0 lects q0. induction lects as [| t lects IH]; intros s H;
    destruct (hojaDeCola s) as [| e q] eqn:Hcola.
  - rewrite bucle_vacia by exact Hcola. cbn. rewrite Hcola. exact H.
  - rewrite bucle_sin_lecturas by (rewrite Hcola; discriminate). cbn.
    rewrite Hcola. exact H.
  - rewrite bucle_vacia by exact Hcola. cbn. rewrite Hcola. exact H.
  - rewrite bucle_paso by (rewrite Hcola; discriminate).
    destruct (TIEMPO_MAXIMO_EJECUCION_MS <? t - t0)%Z.
    + cbn. rewrite Hcola. exact H.
    + rewrite <- Hcola in H. pose proof (conservacion_paso drive q0 s H) as Hp.
      destruct (iteracion drive s) as [s' | s' err]; cbn [tras_paso] in Hp.
      * apply IH. exact Hp.
      * exact Hp.
Qed.

(** X12 on the small drive, started with an empty history. *)
Lemma X12_testigo :
  borradas (traza estado_ej) ++ hojaDeCola estado_ej
  = hojaDeCola estado_ej ++ encoladas (traza estado_ej)
  /\ borradas (traza (estado_final (bucle drive_ej 0 [0%Z; 1200001%Z] estado_ej)))
       ++ hojaDeCola (estado_final (bucle drive_ej 0 [0%Z; 1200001%Z] estado_ej))
     = hojaDeCola estado_ej
       ++ encoladas (traza (estado_final (bucle drive_ej 0 [0%Z; 1200001%Z] estado_ej))).
Proof.
  assert (H : borradas (traza estado_ej) ++ hojaDeCola estado_ej
              = hojaDeCola estado_ej ++ encoladas (traza estado_ej)) by reflexivity.
  split; [exact H |].
  exact (X12_conservacion_de_la_cola drive_ej 0%Z [0%Z; 1200001%Z] _ estado_ej H).
Defined.

(** X10 on the queue whose front row is the folder C. *)
Lemma X10_testigo :
  bucle drive_ej 0 [0%Z] estado_divergente
  = Fallida (estado_final (bucle drive_ej 0 [0%Z] estado_divergente))
            (ReferenceError "hojaReporte")
  /\ exists e resto,
       hojaDeCola (estado_final (bucle drive_ej 0 [0%Z] estado_divergente)) = e :: resto
       /\ banderaRaiz e = false.
Proof.
  assert (H : bucle drive_ej 0 [0%Z] estado_divergente
              = Fallida (estado_final (bucle drive_ej 0 [0%Z] estado_divergente))
                        (ReferenceError "hojaReporte")) by (vm_compute; reflexivity).
  split; [exact H |].
  destruct (proj1 (X10_sesion_fallida_no_avanza drive_ej 0%Z [0%Z]
                     estado_divergente _ H))
    as (e & resto & _ & _ & Hq & Hr & _).
  exists e, resto. split; assumption.
Defined.

End Mas_Recorrido.

(** ** Resuming a paused audit *)
Section Reanudacion.
Import Cfg_Constantes API_Permisos UI_Menu Ejemplo.

(** *** A visit neither reads nor changes the alerts *)

Ltac reducir_estado :=
  unfold eventos, conCola, anexar, anotar, comparada, avisar;
  cbn [hojaDeCola hojaReporte registro alertas traza comparadas].


Lemma revisarDocumento_alertas ruta local q r g t c d :
  exists r' g' c',
    forall al, revisarDocumento ruta local (mkEstado q r g al t c) d
               = mkEstado q r' g' al t c'.
Proof.
  unfold revisarDocumento, llamarRegistrar.
  destruct (fin (registrarDiferenciasPermisos _ _ _ _ _ _));
    do 3 eexists; intros al; unfold anexar, anotar, comparada;
    cbn [hojaDeCola hojaReporte registro alertas traza comparadas];
    reflexivity.
Qed.

Lemma revisarDocumentos_alertas ruta local it q r g t c :
  exists r' g' c',
    forall al, revisarDocumentos ruta local it (mkEstado q r g al t c)
               = mkEstado q r' g' al t c'.
Proof.
  unfold revisarDocumentos.
  assert (H : forall l r0 g0 c0,
             exists r' g' c',
               forall al, fold_left (revisarDocumento ruta local) l (mkEstado q r0 g0 al t c0)
                          = mkEstado q r' g' al t c').
  { induction l as [| d l IH]; intros r0 g0 c0; simpl.
    - do 3 eexists; intros al; reflexivity.
    - destruct (revisarDocumento_alertas ruta local q r0 g0 t c0 d) as (r1 & g1 & c1 & H1).
      destruct (IH r1 g1 c1) as (r2 & g2 & c2 & H2).
      exists r2, g2, c2. intros al. rewrite H1. apply H2. }
  destruct (H (entregados it) r g c) as (r1 & g1 & c1 & H1).
  destruct (falla it); do 3 eexists; intros al; rewrite H1; unfold anotar;
    cbn [hojaDeCola hojaReporte registro alertas traza comparadas]; reflexivity.
Qed.

Lemma iteracion_alertas (drive : Drive) q r g t c :
  (exists q' r' g' t' c',
      forall al, iteracion drive (mkEstado q r g al t c)
                 = Sigue (mkEstado q' r' g' al t' c'))
  \/ (exists q' r' g' t' c' err,
        forall al, iteracion drive (mkEstado q r g al t c)
                   = Aborta (mkEstado q' r' g' al t' c') err).
Proof.
  unfold iteracion. cbn [hojaDeCola].
  destruct q as [| e resto];
    [left; do 5 eexists; intros al; reducir_estado; reflexivity |].
  destruct (JSON_parse (permisosCache e)) as [padre | e1];
    [| left; do 5 eexists; intros al; reducir_estado; reflexivity].
  destruct (drive (idNode e)) as [carpeta | e2];
    [| left; do 5 eexists; intros al; reducir_estado; reflexivity].
  destruct (banderaRaiz e); cbn [negb].
  - destruct (revisarDocumentos_alertas (rutaArmada e)
                (obtenerConjuntoPermisos (permisosCarpeta carpeta)) (getFiles carpeta)
                (e :: resto) r g (t ++ [LeeFrente e]) c) as (r1 & g1 & c1 & H1).
    left. do 5 eexists. intros al. reducir_estado.
    rewrite H1. reducir_estado. reflexivity.
  - unfold llamarRegistrar. rewrite registrar_salida.
    destruct (diferenciasDetectadas padre _); cbn [fin anexadas registrado].
    + right. do 6 eexists. intros al. reducir_estado. reflexivity.
    + destruct (revisarDocumentos_alertas (rutaArmada e)
                  (obtenerConjuntoPermisos (permisosCarpeta carpeta)) (getFiles carpeta)
                  (e :: resto) (r ++ []) (g ++ [])
                  (t ++ [LeeFrente e])
                  (c ++ [(padre, obtenerConjuntoPermisos (permisosCarpeta carpeta))]))
        as (r1 & g1 & c1 & H1).
      left. do 5 eexists. intros al. reducir_estado.
      rewrite H1. reducir_estado. reflexivity.
Qed.

Lemma iteracion_avisar (drive : Drive) (a : Alerta) (s : Estado) :
  iteracion drive (avisar a s) = paso_con (avisar a) (iteracion drive s).
Proof.
  destruct s as [q r g al t c]. unfold avisar at 1.
  cbn [hojaDeCola hojaReporte registro alertas traza comparadas].
  destruct (iteracion_alertas drive q r g t c)
    as [(q' & r' & g' & t' & c' & H) | (q' & r' & g' & t' & c' & err & H)];
    rewrite (H (al ++ [a])), (H al); reflexivity.
Qed.

Lemma iterar_avisar (drive : Drive) (a : Alerta) (k : nat) :
  forall s, iterar drive k (avisar a s) = option_map (avisar a) (iterar drive k s).
Proof.
  induction k as [| k IH]; intros s; [reflexivity |].
  cbn [iterar]. rewrite iteracion_avisar.
  change (hojaDeCola (avisar a s)) with (hojaDeCola s).
  destruct (hojaDeCola s); [reflexivity |].
  destruct (iteracion drive s) as [s' | s' err]; cbn [paso_con]; [apply IH | reflexivity].
Qed.

(** *** Sessions as runs of whole visits *)

Lemma iterar_suma (drive : Drive) (k1 k2 : nat) :
  forall s s', iterar drive k1 s = Some s' ->
               iterar drive (k1 + k2) s = iterar drive k2 s'.
Proof.
  induction k1 as [| k1 IH]; intros s s' H; cbn [iterar Nat.add] in *.
  - now inversion H.
  - destruct (hojaDeCola s); [discriminate |].
    destruct (iteracion drive s) as [s1 | s1 err]; [apply IH; exact H | discriminate].
Qed.

Lemma iterar_unico (drive : Drive) (k : nat) :
  forall k' s s1 s2,
    iterar drive k s = Some s1 -> hojaDeCola s1 = [] ->
    iterar drive k' s = Some s2 -> hojaDeCola s2 = [] ->
    s1 = s2.
Proof.
  induction k as [| k IH]; intros k' s s1 s2 H1 Hq1 H2 Hq2; cbn [iterar] in H1.
  - inversion H1; subst. destruct k'; cbn [iterar] in H2; [now inversion H2 |].
    rewrite Hq1 in H2. discriminate.
  - destruct (hojaDeCola s) as [| e q] eqn:Hcola; [discriminate |].
    destruct k'; cbn [iterar] in H2.
    + inversion H2; subst. congruence.
    + rewrite Hcola in H2.
      destruct (iteracion drive s) as [s' | s' err]; [| discriminate].
      exact (IH k' s' s1 s2 H1 Hq1 H2 Hq2).
Qed.

Lemma bucle_completada (drive : Drive) (t0 : Z) (lects : list Z) :
  forall s sf,
    bucle drive t0 lects s = Completada sf ->
    exists k s',
      iterar drive k s = Some s'
      /\ hojaDeCola s' = []
      /\ salvo_alertas sf
           (anotar ["Procesamiento completado y analizado en su totalidad del árbol.";
                    "Estado limpiado desde interfaz."] s').
Proof.
  induction lects as [| t lects IH]; intros s sf Hrun;
    destruct (hojaDeCola s) as [| e q] eqn:Hcola.
  - rewrite bucle_vacia in Hrun by exact Hcola. inversion Hrun; subst.
    exists O, s. repeat split; assumption.
  - rewrite bucle_sin_lecturas in Hrun by (rewrite Hcola; discriminate). discriminate.
  - rewrite bucle_vacia in Hrun by exact Hcola. inversion Hrun; subst.
    exists O, s. repeat split; assumption.
  - rewrite bucle_paso in Hrun by (rewrite Hcola; discriminate).
    destruct (TIEMPO_MAXIMO_EJECUCION_MS <? t - t0)%Z; [discriminate |].
    destruct (iteracion drive s) as [s1 | s1 err] eqn:Hit; [| discriminate].
    destruct (IH s1 sf Hrun) as (k & s' & H1 & H2 & H3).
    exists (S k), s'. cbn [iterar]. rewrite Hcola, Hit. repeat split; try assumption.
    all: apply H3.
Qed.

Lemma reanudar_completada (drive : Drive) (relojes : list (Z * list Z)) :
  forall s sf,
    reanudar drive relojes s = Completada sf ->
    exists k s',
      iterar drive k s = Some s'
      /\ hojaDeCola s' = []
      /\ salvo_alertas sf
           (anotar ["Procesamiento completado y analizado en su totalidad del árbol.";
                    "Estado limpiado desde interfaz."] s').
Proof.
  induction relojes as [| [t0 lects] resto IH]; intros s sf Hrun; [discriminate |].
  cbn [reanudar] in Hrun.
  destruct (bucle drive t0 lects s) as [s1 | s1 | s1 e1 | s1] eqn:Hb; try discriminate.
  - destruct (bucle_pausada drive t0 lects s s1 Hb) as (k1 & s0 & t & H1 & _ & _ & _ & ->).
    destruct (IH _ sf Hrun) as (k2 & s2 & H2 & Hq & Hs).
    rewrite iterar_avisar in H2.
    destruct (iterar drive k2 s0) as [s0' |] eqn:H0; [| discriminate].
    cbn [option_map] in H2. inversion H2; subst; clear H2.
    exists (k1 + k2)%nat, s0'. split; [rewrite (iterar_suma drive k1 k2 s s0 H1); exact H0 |].
    split; [exact Hq |].
    destruct Hs as (A & B & C & D & E). repeat split; assumption.
  - inversion Hrun; subst. exact (bucle_completada drive t0 lects s sf Hb).
Qed.

(** X11: an audit that is paused any number of times and resumed until it
    completes ends with the same report, the same log, the same queue
    history and the same comparisons as a single session that completes
    from the same sheets: only the pause alerts differ. *)
Theorem X11_reanudar_no_cambia_el_resultado :
  forall (drive : Drive) (relojes : list (Z * list Z)) (t0 : Z) (lects : list Z)
         (s sB sA : Estado),
    reanudar drive relojes s = Completada sB ->
    bucle drive t0 lects s = Completada sA ->
    salvo_alertas sB sA.
Proof.
  intros drive relojes t0 lects s sB sA HB HA.
  destruct (reanudar_completada drive relojes s sB HB) as (kB & sB' & H1 & Hq1 & HsB).
  destruct (bucle_completada drive t0 lects s sA HA) as (kA & sA' & H2 & Hq2 & HsA).
  assert (Heq : sB' = sA') by exact (iterar_unico drive kB kA s sB' sA' H1 Hq1 H2 Hq2).
  subst sB'.
  destruct HsB as (A1 & B1 & C1 & D1 & E1). destruct HsA as (A2 & B2 & C2 & D2 & E2).
  repeat split; congruence.
Qed.

(** X11 on the small drive: one pause after the first visit, then a
    session that completes, against a single session. *)
Lemma X11_testigo :
  reanudar drive_ej [(0%Z, [0%Z; 1200001%Z]); (5%Z, [5%Z; 5%Z])] estado_ej
  = Completada (estado_final
                  (reanudar drive_ej [(0%Z, [0%Z; 1200001%Z]); (5%Z, [5%Z; 5%Z])] estado_ej))
  /\ bucle drive_ej 0 [0%Z; 0%Z] estado_ej
     = Completada (estado_final (bucle drive_ej 0 [0%Z; 0%Z] estado_ej))
  /\ salvo_alertas
       (estado_final
          (reanudar drive_ej [(0%Z, [0%Z; 1200001%Z]); (5%Z, [5%Z; 5%Z])] estado_ej))
       (estado_final (bucle drive_ej 0 [0%Z; 0%Z] estado_ej)).
Proof.
  assert (HB : reanudar drive_ej [(0%Z, [0%Z; 1200001%Z]); (5%Z, [5%Z; 5%Z])] estado_ej
               = Completada
                   (estado_final
                      (reanudar drive_ej [(0%Z, [0%Z; 1200001%Z]); (5%Z, [5%Z; 5%Z])]
                                estado_ej)))
    by (vm_compute; reflexivity).
  assert (HA : bucle drive_ej 0 [0%Z; 0%Z] estado_ej
               = Completada (estado_final (bucle drive_ej 0 [0%Z; 0%Z] estado_ej)))
    by (vm_compute; reflexivity).
  split; [exact HB |]. split; [exact HA |].
  exact (X11_reanudar_no_cambia_el_resultado drive_ej _ _ _ estado_ej _ _ HB HA).
Defined.

End Reanudacion.

(** ** The paginated output, for any sequence of writes *)
Section Mas_Salida.
Import Cfg_Constantes API_SalidaDrive Ejemplo.

Lemma anexarEn_en_ultimo (previos ls : list Libro) (l : Libro) (f : Fila) :
  anexarEn (List.length previos + List.length ls) f (previos ++ ls ++ [l])
  = previos ++ ls ++ [appendRow f l].
Proof.
  rewrite <- length_app, !app_assoc. apply anexarEn_ultimo.
Qed.

Lemma intento_en_ultimo (p : Plataforma) (previos ls : list Libro) (l : Libro) :
  libros p = previos ++ ls ++ [l] ->
  intento None p (Some (List.length previos + List.length ls)%nat) = None.
Proof.
  intros H. unfold intento. rewrite H, !length_app. cbn [List.length].
  replace (_ <? _)%nat with true; [reflexivity |].
  symmetry. apply Nat.ltb_lt. lia.
Qed.

Lemma nuevoLibro_ok (nombre carpeta : string) :
  parte_ok (nuevoLibro nombre carpeta)
  /\ datos (nuevoLibro nombre carpeta) = [].
Proof. repeat split. Qed.

Lemma nuevoLibro_con_fila_ok (nombre carpeta : string) (f : Fila) :
  parte_ok (appendRow f (nuevoLibro nombre carpeta))
  /\ datos (appendRow f (nuevoLibro nombre carpeta)) = [f].
Proof. repeat split. Qed.

(** Opening a part keeps the invariant, with the state on the new part. *)
Lemma preparar_abre (previos : list Libro) (escritos : list Fila) (fallos : nat)
    (p : Plataforma) (e : EstadoSalida) (nuevos : list Libro) :
  libros p = previos ++ nuevos ->
  Forall parte_llena nuevos ->
  parteActual e = Z.of_nat (List.length nuevos) ->
  necesitaNuevaHoja e = true ->
  exists nl,
    prepararHoja p e
    = ({| libros := previos ++ nuevos ++ [nl]; bitacora := bitacora p |},
       {| idSheet := Some (List.length previos + List.length nuevos)%nat;
          filaActual := 2; ramaNombre := ramaNombre e;
          parteActual := Z.of_nat (List.length (nuevos ++ [nl]));
          idCarpetaRaiz := idCarpetaRaiz e |})
    /\ parte_ok nl /\ datos nl = []
    /\ (forall f, parte_ok (appendRow f nl) /\ datos (appendRow f nl) = [f])
    /\ List.length (filas nl) = 1%nat.
Proof.
  intros Hl _ Hp Hn. unfold prepararHoja. rewrite Hn.
  eexists. split.
  - rewrite Hl, <- app_assoc, !length_app, Hp. cbn [List.length].
    replace (Z.of_nat (List.length nuevos) + 1)%Z
      with (Z.of_nat (List.length nuevos + 1)) by lia.
    reflexivity.
  - split; [apply nuevoLibro_ok |]. split; [apply nuevoLibro_ok |].
    split; [intros f; apply nuevoLibro_con_fila_ok | reflexivity].
Qed.

Lemma Inv_salida_paso (previos : list Libro) (escritos : list Fila) (fallos : nat)
    (w : option Error) (f : Fila) (p : Plataforma) (e : EstadoSalida) :
  Inv_salida previos escritos fallos p e ->
  Inv_salida previos
    (escritos ++ (if fue_escrita (w, f) then [f] else []))
    (fallos + (if fue_escrita (w, f) then 0 else 1))
    (fst (volcarHallazgoAPaginacion w p e f))
    (snd (volcarHallazgoAPaginacion w p e f)).
Proof.
  intros (nuevos & Hl & Hc & Hok & Hll & Hp & Hb & Hid).
  assert (HL : LIMITE_FILAS_POR_HOJA_REPORTE = 50000%Z) by reflexivity.
  (* the state after the sheet is prepared *)
  assert (Hprep : exists p1 e1 nuevos1 ls l,
             prepararHoja p e = (p1, e1)
             /\ nuevos1 = ls ++ [l]
             /\ libros p1 = previos ++ ls ++ [l]
             /\ bitacora p1 = bitacora p
             /\ List.concat (map datos nuevos1) = escritos
             /\ Forall parte_ok nuevos1
             /\ Forall parte_llena ls
             /\ parteActual e1 = Z.of_nat (List.length nuevos1)
             /\ idSheet e1 = Some (List.length previos + List.length ls)%nat
             /\ filaActual e1 = (Z.of_nat (List.length (filas l)) + 1)%Z
             /\ (parte_ok (appendRow f l) /\ datos (appendRow f l) = datos l ++ [f])).
  { destruct (idSheet e) as [i |] eqn:Ei.
    - destruct Hid as (ls & l & -> & -> & Hf).
      rewrite removelast_last in Hll.
      apply Forall_app in Hok as Hok'. destruct Hok' as [Hokls Hokl].
      inversion Hokl as [| l0 l1 [Hhd Hlt] _ [Hl0 Hl1]].
      destruct (necesitaNuevaHoja e) eqn:Hn.
      + (* the current part is full: a new one is opened *)
        assert (Hfull : parte_llena l).
        { unfold necesitaNuevaHoja in Hn. rewrite Ei in Hn. apply Z.leb_le in Hn.
          unfold parte_llena. lia. }
        destruct (preparar_abre previos escritos fallos p e (ls ++ [l]) Hl) as
          (nl & Hpr & Hnl1 & Hnl2 & Hnl3 & Hnl4).
        { apply Forall_app. split; [exact Hll | constructor; [exact Hfull | constructor]]. }
        { exact Hp. }
        { exact Hn. }
        eexists _, _, ((ls ++ [l]) ++ [nl]), (ls ++ [l]), nl. rewrite Hpr.
        split; [reflexivity |]. split; [reflexivity |].
        cbn [libros bitacora parteActual idSheet filaActual ramaNombre].
        split; [now rewrite <- !app_assoc |]. split; [reflexivity |].
        split; [rewrite map_app, concat_app, Hc; cbn; rewrite Hnl2; now rewrite !app_nil_r |].
        split; [apply Forall_app; split; [exact Hok | constructor; [exact Hnl1 | constructor]] |].
        split; [apply Forall_app; split; [exact Hll | constructor; [exact Hfull | constructor]] |].
        split; [reflexivity |]. split; [reflexivity |].
        split; [rewrite Hnl4; reflexivity |].
        destruct (Hnl3 f) as [A B]. split; [exact A |]. now rewrite B, Hnl2.
      + (* the current part has room *)
        unfold prepararHoja. rewrite Hn.
        eexists p, e, (ls ++ [l]), ls, l.
        split; [reflexivity |]. split; [reflexivity |].
        split; [now rewrite Hl |]. split; [reflexivity |].
        split; [exact Hc |]. split; [exact Hok |]. split; [exact Hll |].
        split; [exact Hp |]. split; [exact Ei |]. split; [exact Hf |].
        unfold necesitaNuevaHoja in Hn. rewrite Ei in Hn. apply Z.leb_gt in Hn.
        unfold parte_ok, datos, appendRow. cbn [filas].
        destruct (filas l) as [| c0 fs] eqn:Efs; [discriminate |].
        cbn [hd_error tl app]. split; [| reflexivity].
        split; [exact Hhd |]. rewrite length_cons, length_app in *. cbn [List.length] in *. lia.
    - (* no sheet yet *)
      subst nuevos.
      destruct (preparar_abre previos escritos fallos p e [] Hl) as
        (nl & Hpr & Hnl1 & Hnl2 & Hnl3 & Hnl4).
      { constructor. }
      { exact Hp. }
      { unfold necesitaNuevaHoja. now rewrite Ei. }
      eexists _, _, [nl], [], nl. rewrite Hpr.
      split; [reflexivity |]. split; [reflexivity |].
      cbn [libros bitacora parteActual idSheet filaActual ramaNombre app List.length].
      split; [reflexivity |]. split; [reflexivity |].
      split; [cbn; rewrite Hnl2; cbn in Hc; now rewrite <- Hc |].
      split; [constructor; [exact Hnl1 | constructor] |].
      split; [constructor |].
      split; [reflexivity |]. split; [reflexivity |].
      split; [rewrite Hnl4; reflexivity |].
      destruct (Hnl3 f) as [A B]. split; [exact A |]. now rewrite B, Hnl2. }
  destruct Hprep as (p1 & e1 & nuevos1 & ls & l & Hpr & -> & Hl1 & Hb1 & Hc1 & Hok1 & Hll1
                     & Hp1 & Hid1 & Hf1 & Hap1 & Hap2).
  unfold volcarHallazgoAPaginacion. rewrite Hpr, Hid1.
  destruct w as [err |].
  - (* the append throws *)
    cbn [intento fst snd fue_escrita]. rewrite app_nil_r.
    exists (ls ++ [l]). cbn [libros bitacora].
    split; [exact Hl1 |]. split; [exact Hc1 |]. split; [exact Hok1 |].
    split; [now rewrite removelast_last |]. split; [exact Hp1 |].
    split; [rewrite length_app, Hb1, Hb; reflexivity |].
    rewrite Hid1. exists ls, l. repeat split; assumption.
  - (* the row is stored *)
    rewrite (intento_en_ultimo p1 previos ls l Hl1).
    cbn [fst snd fue_escrita libros bitacora idSheet filaActual parteActual].
    rewrite Hl1, anexarEn_en_ultimo.
    exists (ls ++ [appendRow f l]).
    split; [reflexivity |].
    split.
    { rewrite map_app, concat_app in *. cbn [map List.concat] in *.
      rewrite app_nil_r in *. rewrite Hap2, app_assoc, Hc1. reflexivity. }
    apply Forall_app in Hok1 as [Hokls _].
    split; [apply Forall_app; split; [exact Hokls | constructor; [exact Hap1 | constructor]] |].
    split; [now rewrite removelast_last |].
    split; [rewrite Hp1, !length_app; reflexivity |].
    split; [cbn [bitacora]; rewrite Hb1, Hb; lia |].
    exists ls, (appendRow f l). split; [reflexivity |]. split; [reflexivity |].
    cbn [filaActual]. rewrite Hf1. unfold appendRow. cbn [filas].
    rewrite length_app. cbn [List.length]. lia.
Qed.

Lemma Inv_salida_volcar (hallazgos : list (option Error * Fila)) :
  forall previos escritos fallos p e,
    Inv_salida previos escritos fallos p e ->
    Inv_salida previos (escritos ++ exitosas hallazgos)
      (fallos + (List.length hallazgos - List.length (exitosas hallazgos)))
      (fst (volcarHallazgos hallazgos p e)) (snd (volcarHallazgos hallazgos p e)).
Proof.
  induction hallazgos as [| [w f] hs IH]; intros previos escritos fallos p e H.
  - cbn. rewrite app_nil_r, Nat.add_0_r. exact H.
  - cbn [volcarHallazgos].
    pose proof (Inv_salida_paso previos escritos fallos w f p e H) as H1.
    destruct (volcarHallazgoAPaginacion w p e f) as [p' e']. cbn [fst snd] in H1.
    pose proof (IH _ _ _ _ _ H1) as H2.
    assert (Hlen : (List.length (exitosas hs) <= List.length hs)%nat).
    { unfold exitosas. rewrite length_map. apply filter_length_le. }
    unfold exitosas in *. cbn [filter].
    destruct (fue_escrita (w, f)); cbn [map snd List.length] in *.
    + rewrite <- app_assoc in H2. cbn [app] in H2.
      replace (fallos + (S (List.length hs) - S (List.length (map snd (filter fue_escrita hs)))))%nat
        with (fallos + 0 + (List.length hs - List.length (map snd (filter fue_escrita hs))))%nat
        by lia.
      exact H2.
    + rewrite app_nil_r in H2.
      replace (fallos + (S (List.length hs) - List.length (map snd (filter fue_escrita hs))))%nat
        with (fallos + 1 + (List.length hs - List.length (map snd (filter fue_escrita hs))))%nat
        by lia.
      exact H2.
Qed.

(** X13: whatever findings are written from the initial state, and
    whichever appends fail, the parts created hold, in order, exactly the
    findings whose append succeeded, none lost and none repeated; every part
    starts with the header row and has fewer rows than the limit; a part is
    opened only when the one before it holds one row less than the limit;
    the part counter is the number of parts created; and the log has one
    line per failed append. *)
Theorem X13_paginacion_conserva_los_hallazgos :
  forall (hallazgos : list (option Error * Fila)) (p0 : Plataforma)
         (rama carpeta : string) (f0 : Z),
    let r := volcarHallazgos hallazgos p0 (estadoInicial rama carpeta f0) in
    exists nuevos,
      libros (fst r) = libros p0 ++ nuevos
      /\ List.concat (map datos nuevos) = exitosas hallazgos
      /\ Forall parte_ok nuevos
      /\ Forall parte_llena (removelast nuevos)
      /\ parteActual (snd r) = Z.of_nat (List.length nuevos)
      /\ List.length (bitacora (fst r))
         = (List.length (bitacora p0)
            + (List.length hallazgos - List.length (exitosas hallazgos)))%nat.
Proof.
  intros hallazgos p0 rama carpeta f0 r. subst r.
  assert (H0 : Inv_salida (libros p0) [] (List.length (bitacora p0)) p0
                          (estadoInicial rama carpeta f0)).
  { exists []. cbn. rewrite app_nil_r. repeat split; constructor. }
  destruct (Inv_salida_volcar hallazgos _ _ _ _ _ H0)
    as (nuevos & H1 & H2 & H3 & H4 & H5 & H6 & _).
  exists nuevos. repeat split; assumption.
Qed.

End Mas_Salida.

(** ** A session only appends *)
Section Solo_Anexa.
Import Cfg_Constantes API_Permisos UI_Menu.

Lemma extiende_refl (s : Estado) : extiende s s.
Proof. repeat split; exists []; now rewrite app_nil_r. Qed.

Lemma extiende_trans (a b c : Estado) : extiende a b -> extiende b c -> extiende a c.
Proof.
  intros ([x1 H1] & [x2 H2] & [x3 H3] & [x4 H4] & [x5 H5])
         ([y1 G1] & [y2 G2] & [y3 G3] & [y4 G4] & [y5 G5]).
  repeat split.
  - exists (x1 ++ y1). now rewrite G1, H1, app_assoc.
  - exists (x2 ++ y2). now rewrite G2, H2, app_assoc.
  - exists (x3 ++ y3). now rewrite G3, H3, app_assoc.
  - exists (x4 ++ y4). now rewrite G4, H4, app_assoc.
  - exists (x5 ++ y5). now rewrite G5, H5, app_assoc.
Qed.

Ltac paso_extiende :=
  intros H; apply (extiende_trans _ _ _ H);
  repeat split; cbn; first [eexists; reflexivity | exists []; now rewrite app_nil_r].

Lemma extiende_anexar s x fs : extiende s x -> extiende s (anexar fs x).
Proof. paso_extiende. Qed.

Lemma extiende_anotar s x ms : extiende s x -> extiende s (anotar ms x).
Proof. paso_extiende. Qed.

Lemma extiende_avisar s x a : extiende s x -> extiende s (avisar a x).
Proof. paso_extiende. Qed.

Lemma extiende_eventos s x evs : extiende s x -> extiende s (eventos evs x).
Proof. paso_extiende. Qed.

Lemma extiende_comparada s x p h : extiende s x -> extiende s (comparada p h x).
Proof. paso_extiende. Qed.

Lemma extiende_conCola s x q : extiende s x -> extiende s (conCola q x).
Proof. paso_extiende. Qed.

Create HintDb extiende.
#[local] Hint Resolve extiende_refl extiende_anexar extiende_anotar extiende_avisar
  extiende_eventos extiende_comparada extiende_conCola : extiende.

Lemma extiende_llamarRegistrar s x padre hijo ruta url tipo :
  extiende s x -> extiende s (fst (llamarRegistrar padre hijo ruta url tipo x)).
Proof. intros H. unfold llamarRegistrar. cbn [fst]. auto with extiende. Qed.

Lemma extiende_revisarDocumento s x ruta local d :
  extiende s x -> extiende s (revisarDocumento ruta local x d).
Proof.
  intros H. unfold revisarDocumento.
  pose proof (extiende_llamarRegistrar s x local
                (obtenerConjuntoPermisos (permisosArchivo d))
                (ruta +++ "/" +++ nombreArchivo d) (urlArchivo d) "Documento Unitario" H) as H1.
  destruct (llamarRegistrar _ _ _ _ _ x) as [s1 f]. cbn [fst] in H1.
  destruct f; auto with extiende.
Qed.

Lemma extiende_revisarDocumentos s x ruta local it :
  extiende s x -> extiende s (revisarDocumentos ruta local it x).
Proof.
  intros H. unfold revisarDocumentos.
  assert (Hf : forall l y, extiende s y ->
                           extiende s (fold_left (revisarDocumento ruta local) l y)).
  { induction l as [| d l IH]; intros y Hy; simpl; [exact Hy |].
    apply IH, extiende_revisarDocumento, Hy. }
  destruct (falla it); auto with extiende.
Qed.

#[local] Hint Resolve extiende_revisarDocumentos : extiende.

Lemma iteracion_extiende (drive : Drive) (s : Estado) :
  extiende s (tras_paso (iteracion drive s)).
Proof.
  unfold iteracion.
  destruct (hojaDeCola s) as [| e resto]; [apply extiende_refl |].
  destruct (JSON_parse (permisosCache e)) as [padre | e1];
    [| cbn [tras_paso]; auto 10 with extiende].
  destruct (drive (idNode e)) as [carpeta | e2];
    [| cbn [tras_paso]; auto 10 with extiende].
  set (s0 := eventos [LeeFrente e] s).
  assert (H0 : extiende s s0) by (subst s0; auto with extiende).
  clearbody s0.
  set (par := if negb (banderaRaiz e)
              then llamarRegistrar padre (obtenerConjuntoPermisos (permisosCarpeta carpeta))
                                   (rutaArmada e) (urlVisita e) "Carpeta Plegable" s0
              else (s0, Normal)).
  assert (H1 : extiende s (fst par)).
  { subst par. destruct (negb (banderaRaiz e)); [| exact H0].
    apply extiende_llamarRegistrar, H0. }
  clearbody par. destruct par as [s1 salida]. cbn [fst] in H1.
  destruct salida; cbn [tras_paso]; [| exact H1].
  auto 10 with extiende.
Qed.

Lemma bucle_extiende (drive : Drive) (t0 : Z) (lects : list Z) :
  forall s, extiende s (estado_final (bucle drive t0 lects s)).
Proof.
  induction lects as [| t lects IH]; intros s;
    destruct (hojaDeCola s) as [| e q] eqn:Hcola.
  - rewrite bucle_vacia by exact Hcola. cbn [estado_final]. auto with extiende.
  - rewrite bucle_sin_lecturas by (rewrite Hcola; discriminate). apply extiende_refl.
  - rewrite bucle_vacia by exact Hcola. cbn [estado_final]. auto with extiende.
  - rewrite bucle_paso by (rewrite Hcola; discriminate).
    destruct (TIEMPO_MAXIMO_EJECUCION_MS <? t - t0)%Z;
      [cbn [estado_final]; auto with extiende |].
    pose proof (iteracion_extiende drive s) as Hi.
    destruct (iteracion drive s) as [s' | s' err]; cbn [tras_paso] in Hi.
    + exact (extiende_trans _ _ _ Hi (IH s')).
    + exact Hi.
Qed.

(** X20: a session only appends.  However it ends, the report, the Logger,
    the alerts and the two histories it leaves start with what was there
    before it: no report row is removed, rewritten or reordered. *)
Theorem X20_la_sesion_solo_anexa :
  forall (drive : Drive) (t0 : Z) (lects : list Z) (s : Estado),
    extiende s (estado_final (bucle drive t0 lects s)).
Proof. intros drive t0 lects s. apply bucle_extiende. Qed.

End Solo_Anexa.

(** ** The menu actions: start, resume, clear *)
Section Sesion.
Import Cfg_Constantes API_Permisos UI_Menu UI_Sesion.

(** *** The summary of the root permissions *)

Lemma directorioRoles_propios (permisos : list Permiso) :
  directorioRoles permisos
  = fold_left (fun d permiso =>
                 anotarEnRol (denominacionRol permiso) (textoRepresentativo permiso) d)
              (propios permisos) [].
Proof.
  unfold directorioRoles, propios. generalize (@nil (string * list (option string))).
  induction permisos as [| p ps IH]; intros d; simpl; [reflexivity |].
  destruct (heredado p); simpl; apply IH.
Qed.

Lemma Set_de_app (l : list string) (x : string) :
  Set_de (l ++ [x]) = Set_add (Set_de l) x.
Proof. unfold Set_de. rewrite fold_left_app. reflexivity. Qed.

Lemma NoDup_Set_de (l : list string) : NoDup (Set_de l).
Proof. unfold Set_de. apply NoDup_fold_Set_add. constructor. Qed.

(** Pushing under a role, on a directory given by its keys. *)
Lemma anotarEnRol_map (k : string) (v : option string)
    (G : string -> list (option string)) (K : list string) :
  NoDup K ->
  anotarEnRol k v (map (fun c => (c, G c)) K)
  = map (fun c => (c, G c ++ (if String.eqb c k then [v] else []))) K
    ++ (if includes K k then [] else [(k, [v])]).
Proof.
  induction K as [| c K IH]; intros Hnd; [reflexivity |].
  inversion Hnd as [| c' K' Hc HK]; subst.
  cbn [map anotarEnRol]. unfold includes. cbn [existsb].
  rewrite (String.eqb_sym k c).
  destruct (String.eqb c k) eqn:E.
  - apply String.eqb_eq in E. subst c. cbn [orb]. rewrite app_nil_r.
    cbn [app]. f_equal. apply map_ext_in. intros c Hin.
    destruct (String.eqb c k) eqn:E'.
    + apply String.eqb_eq in E'. subst c. contradiction.
    + now rewrite app_nil_r.
  - cbn [orb]. rewrite (IH HK). rewrite app_nil_r. reflexivity.
Qed.

Lemma agrupar_por_rol_paso (l : list Permiso) (p : Permiso) :
  anotarEnRol (denominacionRol p) (textoRepresentativo p) (agrupar_por_rol l)
  = agrupar_por_rol (l ++ [p]).
Proof.
  unfold agrupar_por_rol.
  rewrite (anotarEnRol_map (denominacionRol p) (textoRepresentativo p)
             (fun clave => map textoRepresentativo
                             (filter (fun q => String.eqb (denominacionRol q) clave) l)))
    by apply NoDup_Set_de.
  rewrite map_app. cbn [map]. rewrite Set_de_app. unfold Set_add.
  assert (Hf : forall c,
             map textoRepresentativo
                 (filter (fun q => String.eqb (denominacionRol q) c) (l ++ [p]))
             = map textoRepresentativo
                   (filter (fun q => String.eqb (denominacionRol q) c) l)
               ++ (if String.eqb c (denominacionRol p) then [textoRepresentativo p] else [])).
  { intros c. rewrite filter_app, map_app. cbn [filter].
    rewrite (String.eqb_sym (denominacionRol p) c).
    destruct (String.eqb c (denominacionRol p)); reflexivity. }
  destruct (includes (Set_de (map denominacionRol l)) (denominacionRol p)) eqn:E.
  - rewrite app_nil_r. apply map_ext. intros c. now rewrite Hf.
  - rewrite map_app. cbn [map]. f_equal.
    + apply map_ext. intros c. now rewrite Hf.
    + rewrite Hf, String.eqb_refl.
      apply includes_false in E. rewrite In_Set_de in E.
      assert (Hnil : filter (fun q => String.eqb (denominacionRol q) (denominacionRol p)) l
                     = []).
      { clear Hf. induction l as [| q l IH]; [reflexivity |].
        cbn [filter]. destruct (String.eqb (denominacionRol q) (denominacionRol p)) eqn:Eq.
        - apply String.eqb_eq in Eq. exfalso. apply E. left. exact Eq.
        - apply IH. intros Hin. apply E. right. exact Hin. }
      rewrite Hnil. reflexivity.
Qed.

Lemma fold_agrupar_por_rol (l2 : list Permiso) :
  forall l1,
    fold_left (fun d permiso =>
                 anotarEnRol (denominacionRol permiso) (textoRepresentativo permiso) d)
              l2 (agrupar_por_rol l1)
    = agrupar_por_rol (l1 ++ l2).
Proof.
  induction l2 as [| p l2 IH]; intros l1; cbn [fold_left].
  - now rewrite app_nil_r.
  - rewrite agrupar_por_rol_paso, IH, <- app_assoc. reflexivity.
Qed.

(** X14: the tabulation of the root permissions groups by role.  The
    object built with [forEach] holds exactly the permissions that are not
    inherited; it has one key per role among them, in order of first
    appearance, and under each key the texts of the permissions of that
    role in the order listed. *)
Theorem X14_tabulacion_por_rol :
  forall permisos : list Permiso,
    directorioRoles permisos = agrupar_por_rol (propios permisos).
Proof.
  intros permisos. rewrite directorioRoles_propios.
  exact (fold_agrupar_por_rol (propios permisos) []).
Qed.

(** X15: a root whose listed permissions are all inherited gets neither a
    role row nor the row of the clean drive: the summary is the base row
    followed by the three separator rows. *)
Theorem X15_raiz_solo_heredados :
  forall (nombreDrive urlRaizDrive : string) (permisos : list Permiso),
    permisos <> [] ->
    propios permisos = [] ->
    filasDeLaRaiz nombreDrive urlRaizDrive (Some permisos)
    = [[nombreDrive; urlRaizDrive; "Unidad Compartida (Raíz/Nivel 0)";
        "--- Base Analizada de Todos los Permisos ---"];
       ["---"; "---"; "---"; "---"];
       ["(Búsqueda de Profundidad) Componentes con esquemas de acceso distintos a su estructura Padre superior:"];
       ["---"; "---"; "---"; "---"]].
Proof.
  intros nombreDrive urlRaizDrive permisos Hne Hprop.
  unfold filasDeLaRaiz. destruct permisos as [| p ps]; [congruence |].
  rewrite directorioRoles_propios, Hprop. reflexivity.
Qed.

(** *** Sessions from the menu *)

Lemma bucle_cola_final (drive : Drive) (t0 : Z) (lects : list Z) :
  forall s,
    match bucle drive t0 lects s with
    | Pausada sf => hojaDeCola sf <> []
    | Completada _ => True
    | Fallida sf err =>
        exists e q, hojaDeCola sf = e :: q /\ banderaRaiz e = false
                    /\ err = ReferenceError "hojaReporte"
    | SinLecturas sf => hojaDeCola sf <> []
    end.
Proof.
  induction lects as [| t lects IH]; intros s;
    destruct (hojaDeCola s) as [| e q] eqn:Hcola.
  - rewrite bucle_vacia by exact Hcola. exact I.
  - rewrite bucle_sin_lecturas by (rewrite Hcola; discriminate).
    rewrite Hcola. discriminate.
  - rewrite bucle_vacia by exact Hcola. exact I.
  - rewrite bucle_paso by (rewrite Hcola; discriminate).
    destruct (TIEMPO_MAXIMO_EJECUCION_MS <? t - t0)%Z.
    + cbn. rewrite Hcola. discriminate.
    + destruct (iteracion drive s) as [s' | s' err] eqn:Hit; [apply IH |].
      destruct (iteracion_aborta _ _ _ _ Hit)
        as (e' & resto & padre & carpeta & H1 & _ & _ & H4 & _ & H6 & H7 & _).
      exists e', resto. rewrite H7. auto.
Qed.

Lemma trasElBucle_guarda (ss : HojaCalculo) (r : Resultado) :
  ssReporte (fst (trasElBucle ss r)) = Some (hojaReporte (estado_final r))
  /\ ssAvisos (fst (trasElBucle ss r))
     = ssAvisos ss ++ map AvisoDelBucle (alertas (estado_final r))
  /\ ssTraza (fst (trasElBucle ss r)) = traza (estado_final r).
Proof. destruct r; repeat split; reflexivity. Qed.

Lemma continuar_sin_cola (drive : Drive) (t : Z) (lects : list Z) (ss : HojaCalculo) :
  ssCola ss = None ->
  continuarAuditoria drive (t :: lects) ss = (alertar AvisoSinCola ss, SinSesion).
Proof. intros H. unfold continuarAuditoria. now rewrite H. Qed.

Lemma no_cancelada (r : PromptResponse) :
  getSelectedButton r = OK -> getResponseText r <> "" ->
  negb (match getSelectedButton r with OK => true | _ => false end)
  || String.eqb (getResponseText r) "" = false.
Proof.
  intros Hb Ht. rewrite Hb. cbn [negb orb].
  apply String.eqb_neq. exact Ht.
Qed.

(** X16: a cancelled start is not harmless.  When the prompt is dismissed
    or left empty, the queue sheet has already been deleted: the report is
    as it was, no session runs, and a paused audit can no longer be
    resumed, since the next resume only shows that the queue is missing. *)
Theorem X16_inicio_cancelado_borra_la_cola :
  forall (trim : string -> string) (api : ApiDrive) (r : PromptResponse)
         (reloj : list Z) (ss : HojaCalculo),
    getSelectedButton r <> OK \/ getResponseText r = "" ->
    snd (iniciarAuditoria trim api r reloj ss) = SinSesion
    /\ ssCola (fst (iniciarAuditoria trim api r reloj ss)) = None
    /\ ssReporte (fst (iniciarAuditoria trim api r reloj ss)) = ssReporte ss
    /\ ssAvisos (fst (iniciarAuditoria trim api r reloj ss))
       = ssAvisos ss ++ [AvisoCancelada]
    /\ forall (drive : Drive) (t : Z) (lects : list Z),
         continuarAuditoria drive (t :: lects) (fst (iniciarAuditoria trim api r reloj ss))
         = (alertar AvisoSinCola (fst (iniciarAuditoria trim api r reloj ss)), SinSesion).
Proof.
  intros trim api r reloj ss Hc.
  assert (E : iniciarAuditoria trim api r reloj ss
              = (alertar AvisoCancelada (limpiarEstadoAuditoria true ss), SinSesion)).
  { unfold iniciarAuditoria.
    destruct Hc as [Hb | Ht].
    - destruct (getSelectedButton r); try reflexivity. congruence.
    - rewrite Ht. cbn. now rewrite orb_true_r. }
  rewrite E. cbn [fst snd].
  split; [reflexivity |]. split; [reflexivity |]. split; [reflexivity |].
  split.
  - cbn. now rewrite app_nil_r.
  - intros drive t lects. apply continuar_sin_cola. reflexivity.
Qed.

(** X17: a start whose Drive calls fail leaves a report with the header
    and one error row, and an empty queue sheet; no session runs.  The
    resume that follows finds the queue empty: it visits nothing, leaves
    the report as it is, deletes the queue sheet and announces that the
    audit has finished. *)
Theorem X17_inicio_fallido_y_reanudacion :
  forall (trim : string -> string) (api : ApiDrive) (r : PromptResponse)
         (reloj : list Z) (ss : HojaCalculo) (error : Error),
    getSelectedButton r = OK ->
    getResponseText r <> "" ->
    consultarRaiz api (trim (getResponseText r)) = inr error ->
    snd (iniciarAuditoria trim api r reloj ss) = SinSesion
    /\ ssCola (fst (iniciarAuditoria trim api r reloj ss)) = Some []
    /\ ssReporte (fst (iniciarAuditoria trim api r reloj ss))
       = Some [cabecerasReporte;
               [trim (getResponseText r); "ERROR DE CRITICIDAD"; "Problema de Acceso";
                "La conexión con dicha base/unidad Drive falló (ID de Drive proporcionado rechazado). Error de sistema: "
                +++ message error]]
    /\ forall (drive : Drive) (t : Z) (lects : list Z),
         snd (continuarAuditoria drive (t :: lects)
                (fst (iniciarAuditoria trim api r reloj ss))) = Completo
         /\ ssCola (fst (continuarAuditoria drive (t :: lects)
                           (fst (iniciarAuditoria trim api r reloj ss)))) = None
         /\ ssReporte (fst (continuarAuditoria drive (t :: lects)
                              (fst (iniciarAuditoria trim api r reloj ss))))
            = ssReporte (fst (iniciarAuditoria trim api r reloj ss))
         /\ ssTraza (fst (continuarAuditoria drive (t :: lects)
                            (fst (iniciarAuditoria trim api r reloj ss))))
            = ssTraza ss
         /\ exists avisos,
              ssAvisos (fst (continuarAuditoria drive (t :: lects)
                               (fst (iniciarAuditoria trim api r reloj ss))))
              = avisos ++ [AvisoDelBucle AlertaCompletada].
Proof.
  intros trim api r reloj ss error Hb Ht Hapi.
  unfold iniciarAuditoria. rewrite (no_cancelada r Hb Ht), Hapi.
  cbn [fst snd ssCola ssReporte app].
  split; [reflexivity |]. split; [reflexivity |]. split; [reflexivity |].
  intros drive t lects. unfold continuarAuditoria.
  cbn [ssCola ssReporte ssRegistro ssTraza ssComparadas].
  rewrite bucle_vacia by reflexivity.
  cbn [trasElBucle fst snd ssCola ssReporte ssTraza ssAvisos].
  split; [reflexivity |]. split; [reflexivity |]. split; [reflexivity |].
  split; [reflexivity |].
  eexists. cbn. reflexivity.
Qed.

(** X18: how a session from the menu leaves the queue sheet.  After a
    completed session the queue sheet and the legacy property are gone and
    a further resume does nothing but show that the queue is missing;
    after a pause the queue sheet has a pending row; after a session that
    ends by the ReferenceError of the comparison the queue sheet still has
    the row it stopped at, a folder other than the root. *)
Theorem X18_la_cola_al_terminar :
  forall (drive : Drive) (reloj : list Z) (ss ss' : HojaCalculo) (d : Desenlace),
    continuarAuditoria drive reloj ss = (ss', d) ->
    match d with
    | Completo =>
        ssCola ss' = None /\ ssLegado ss' = false
        /\ forall (drive' : Drive) (t : Z) (lects : list Z),
             continuarAuditoria drive' (t :: lects) ss'
             = (alertar AvisoSinCola ss', SinSesion)
    | Pauso => exists e q, ssCola ss' = Some (e :: q)
    | Fallo err =>
        err = ReferenceError "hojaReporte" ->
        exists e q, ssCola ss' = Some (e :: q) /\ banderaRaiz e = false
    | SinSesion =>
        (ssCola ss = None \/ ssReporte ss = None)
        /\ ssCola ss' = ssCola ss /\ ssReporte ss' = ssReporte ss
    | SinReloj => True
    end.
Proof.
  intros drive reloj ss ss' d H. unfold continuarAuditoria in H.
  destruct reloj as [| t0 lects]; [inversion H; subst; exact I |].
  destruct (ssCola ss) as [cola |] eqn:Hcola.
  2: { inversion H; subst. cbn. rewrite Hcola. auto. }
  destruct (ssReporte ss) as [reporte |] eqn:Hrep.
  2: { inversion H; subst. cbn. rewrite Hcola, Hrep. auto. }
  pose proof (bucle_cola_final drive t0 lects
                (mkEstado cola reporte (ssRegistro ss) [] (ssTraza ss) (ssComparadas ss)))
    as Hfin.
  destruct (bucle drive t0 lects _) as [sf | sf | sf err | sf];
    cbn in H; inversion H; subst; cbn.
  - destruct (hojaDeCola sf) as [| e q]; [congruence |]. now exists e, q.
  - split; [reflexivity |]. split; [reflexivity |].
    intros drive' t lects'. reflexivity.
  - intros _. destruct Hfin as (e & q & Hq & Hr & _).
    exists e, q. rewrite Hq. auto.
  - exact I.
Qed.

(** X19: a start that is not cancelled does not depend on what the
    spreadsheet held: whatever the queue sheet, the report sheet and the
    legacy property were, the sheets and the outcome are the same, so the
    rows of an earlier audit are discarded. *)
Theorem X19_inicio_descarta_lo_anterior :
  forall (trim : string -> string) (api : ApiDrive) (r : PromptResponse)
         (reloj : list Z) (ss : HojaCalculo)
         (cola : option (list Entrada)) (reporte : option (list Fila)) (legado : bool),
    getSelectedButton r = OK ->
    getResponseText r <> "" ->
    iniciarAuditoria trim api r reloj
      (mkHojaCalculo cola reporte legado (ssRegistro ss) (ssAvisos ss)
                     (ssTraza ss) (ssComparadas ss))
    = iniciarAuditoria trim api r reloj ss.
Proof.
  intros trim api r reloj ss cola reporte legado Hb Ht.
  unfold iniciarAuditoria. rewrite (no_cancelada r Hb Ht).
  destruct (consultarRaiz api (trim (getResponseText r))) as [[[n c] p] | error];
    reflexivity.
Qed.

(** X21: after a start whose Drive calls succeed, the report begins with
    the header and the summary of the root, whatever the session that
    follows adds; the dialog of the start is shown before any dialog of
    the session, and the session runs. *)
Theorem X21_inicio_con_exito :
  forall (trim : string -> string) (api : ApiDrive) (r : PromptResponse)
         (t : Z) (lects : list Z) (ss : HojaCalculo)
         (nombreDrive : string) (carpetaRaizDrive : CarpetaRaiz)
         (permisos : option (list Permiso)),
    getSelectedButton r = OK ->
    getResponseText r <> "" ->
    consultarRaiz api (trim (getResponseText r))
    = inl (nombreDrive, carpetaRaizDrive, permisos) ->
    (exists filas,
        ssReporte (fst (iniciarAuditoria trim api r (t :: lects) ss))
        = Some (cabecerasReporte
                  :: filasDeLaRaiz nombreDrive (getUrl carpetaRaizDrive) permisos
                  ++ filas))
    /\ (exists avisos,
           ssAvisos (fst (iniciarAuditoria trim api r (t :: lects) ss))
           = ssAvisos ss ++ AvisoMotorInicializado :: map AvisoDelBucle avisos)
    /\ snd (iniciarAuditoria trim api r (t :: lects) ss) <> SinSesion.
Proof.
  intros trim api r t lects ss nombreDrive carpetaRaizDrive permisos Hb Ht Hapi.
  unfold iniciarAuditoria. rewrite (no_cancelada r Hb Ht), Hapi.
  unfold continuarAuditoria.
  cbn [ssCola ssReporte ssRegistro ssTraza ssComparadas ssAvisos limpiarEstadoAuditoria].
  match goal with
  | |- context [trasElBucle ?a (bucle ?dr ?t0 ?l ?s)] =>
      destruct (trasElBucle_guarda a (bucle dr t0 l s)) as (Hr & Hav & _);
      destruct (bucle_extiende dr t0 l s) as ([x Hx] & _);
      set (fin := bucle dr t0 l s) in *;
      set (antes := a) in *
  end.
  split; [| split].
  - exists x. rewrite Hr, Hx. reflexivity.
  - exists (alertas (estado_final fin)).
    rewrite Hav. subst antes. cbn [ssAvisos negb]. rewrite app_nil_r, <- app_assoc.
    reflexivity.
  - destruct fin; cbn; discriminate.
Qed.

End Sesion.

(** ** The menu actions on the small drive *)
Section Testigos_Sesion.
Import Cfg_Constantes API_Permisos UI_Menu UI_Sesion Ejemplo.

(** X15 on a root whose only listed permission comes from the domain. *)
Lemma X15_testigo :
  propios [mkPermiso "p2" None reader "domain" (Some "x.com") (Some [true])] = []
  /\ List.length
       (filasDeLaRaiz "Unidad" "https://A"
          (Some [mkPermiso "p2" None reader "domain" (Some "x.com") (Some [true])]))
     = 4%nat.
Proof.
  split; [reflexivity |].
  rewrite (X15_raiz_solo_heredados "Unidad" "https://A"
             [mkPermiso "p2" None reader "domain" (Some "x.com") (Some [true])]).
  - reflexivity.
  - discriminate.
  - reflexivity.
Defined.

(** X16 on the paused audit: the prompt is cancelled. *)
Lemma X16_testigo :
  ssCola libro_en_pausa = Some [entrada_B]
  /\ ssCola (fst (iniciarAuditoria trim_ej api_ej (mkPromptResponse CANCEL "A") [0%Z]
                    libro_en_pausa)) = None.
Proof.
  split; [reflexivity |].
  apply (X16_inicio_cancelado_borra_la_cola trim_ej api_ej (mkPromptResponse CANCEL "A")
           [0%Z] libro_en_pausa).
  left. discriminate.
Defined.

(** X17 on an identifier the API rejects. *)
Lemma X17_testigo :
  consultarRaiz api_ej (trim_ej "Z") = inr (mkError "Exception" "Forbidden")
  /\ snd (continuarAuditoria drive_ej [0%Z]
            (fst (iniciarAuditoria trim_ej api_ej (mkPromptResponse OK "Z") [0%Z]
                    libro_en_pausa))) = Completo.
Proof.
  split; [reflexivity |].
  apply (X17_inicio_fallido_y_reanudacion trim_ej api_ej (mkPromptResponse OK "Z") [0%Z]
           libro_en_pausa (mkError "Exception" "Forbidden")).
  - reflexivity.
  - discriminate.
  - reflexivity.
Defined.

(** X18 on a resume whose second clock reading is past the limit. *)
Lemma X18_testigo :
  snd (continuarAuditoria drive_ej [0%Z; 2000000%Z] libro_en_pausa) = Pauso
  /\ exists e q,
       ssCola (fst (continuarAuditoria drive_ej [0%Z; 2000000%Z] libro_en_pausa))
       = Some (e :: q).
Proof.
  split; [reflexivity |].
  exact (X18_la_cola_al_terminar drive_ej [0%Z; 2000000%Z] libro_en_pausa
           (fst (continuarAuditoria drive_ej [0%Z; 2000000%Z] libro_en_pausa)) Pauso
           eq_refl).
Defined.

(** X19 on the paused audit against an empty spreadsheet. *)
Lemma X19_testigo :
  iniciarAuditoria trim_ej api_ej (mkPromptResponse OK " A ") [0%Z; 0%Z; 0%Z; 0%Z]
    (mkHojaCalculo None None true [] [] [] [])
  = iniciarAuditoria trim_ej api_ej (mkPromptResponse OK " A ") [0%Z; 0%Z; 0%Z; 0%Z]
      libro_en_pausa.
Proof.
  apply (X19_inicio_descarta_lo_anterior trim_ej api_ej (mkPromptResponse OK " A ")
           [0%Z; 0%Z; 0%Z; 0%Z] libro_en_pausa None None true).
  - reflexivity.
  - discriminate.
Defined.

(** X21 on the small drive, started with its identifier between spaces. *)
Lemma X21_testigo :
  consultarRaiz api_ej (trim_ej " A ")
  = inl ("Unidad", mkCarpetaRaiz carpetaA "A" "https://A", Some permisos_raiz_ej)
  /\ exists filas,
       ssReporte (fst (iniciarAuditoria trim_ej api_ej (mkPromptResponse OK " A ")
                         [0%Z; 0%Z; 0%Z; 0%Z] libro_en_pausa))
       = Some (cabecerasReporte
                 :: filasDeLaRaiz "Unidad" "https://A" (Some permisos_raiz_ej) ++ filas).
Proof.
  split; [reflexivity |].
  apply (X21_inicio_con_exito trim_ej api_ej (mkPromptResponse OK " A ") 0%Z
           [0%Z; 0%Z; 0%Z] libro_en_pausa "Unidad"
           (mkCarpetaRaiz carpetaA "A" "https://A") (Some permisos_raiz_ej)).
  - reflexivity.
  - discriminate.
  - reflexivity.
Defined.

End Testigos_Sesion.

(** ** The legacy loop *)
Section Legado_Recorrido.
Import Cfg_Constantes API_Permisos UI_Menu.

(** *** What the helper steps leave untouched *)

Lemma llamarLogDifferences_marco padre hijo path url type domain s :
  hojaDeCola (Legado_Cola.llamarLogDifferences padre hijo path url type domain s)
  = hojaDeCola s
  /\ traza (Legado_Cola.llamarLogDifferences padre hijo path url type domain s) = traza s
  /\ comparadas (Legado_Cola.llamarLogDifferences padre hijo path url type domain s)
     = comparadas s ++ [(padre, hijo)].
Proof. repeat split; reflexivity. Qed.

Lemma procesarArchivos_marco path local domain it s :
  hojaDeCola (Legado_Cola.procesarArchivos path local domain it s) = hojaDeCola s
  /\ traza (Legado_Cola.procesarArchivos path local domain it s) = traza s
  /\ comparadas (Legado_Cola.procesarArchivos path local domain it s)
     = comparadas s
       ++ map (fun d => (local, obtenerConjuntoPermisos (permisosArchivo d))) (entregados it).
Proof.
  unfold Legado_Cola.procesarArchivos.
  assert (H : forall l s0,
             hojaDeCola (fold_left (Legado_Cola.procesarArchivo path local domain) l s0)
             = hojaDeCola s0
             /\ traza (fold_left (Legado_Cola.procesarArchivo path local domain) l s0)
                = traza s0
             /\ comparadas (fold_left (Legado_Cola.procesarArchivo path local domain) l s0)
                = comparadas s0
                  ++ map (fun d => (local, obtenerConjuntoPermisos (permisosArchivo d))) l).
  { induction l as [| d l IH]; intros s0; simpl.
    - rewrite app_nil_r. auto.
    - destruct (IH (Legado_Cola.procesarArchivo path local domain s0 d)) as (-> & -> & ->).
      unfold Legado_Cola.procesarArchivo.
      destruct (llamarLogDifferences_marco local
                  (Legado.getPermissionSet (permisosArchivo d))
                  (path +++ "/" +++ nombreArchivo d) (urlArchivo d) "Archivo" domain s0)
        as (-> & -> & ->).
      rewrite getPermissionSet_igual, <- app_assoc. auto. }
  destruct (falla it); cbn [anotar hojaDeCola traza comparadas]; apply H.
Qed.

Lemma newRows_igual path (carpeta : Carpeta) :
  Legado_Cola.newRows path (Legado.getPermissionSet (permisosCarpeta carpeta))
                      (getFolders carpeta)
  = ramificacionesNuevasACola path (obtenerConjuntoPermisos (permisosCarpeta carpeta))
                              (getFolders carpeta).
Proof. rewrite getPermissionSet_igual. reflexivity. Qed.

(** One whole visit of the legacy loop. *)
Lemma legado_iteracion_visita (drive : Drive) (domain : string) (s : Estado)
    (e : Entrada) (resto : list Entrada) :
  hojaDeCola s = e :: resto ->
  hojaDeCola (Legado_Cola.iteracion drive domain s) = resto ++ hijos drive e
  /\ traza (Legado_Cola.iteracion drive domain s) = traza s ++ bloque drive e
  /\ comparadas (Legado_Cola.iteracion drive domain s) = comparadas s ++ pares drive e.
Proof.
  intros Hcola. unfold Legado_Cola.iteracion, bloque, hijos, pares. rewrite Hcola.
  destruct (JSON_parse (permisosCache e)) as [padre | err].
  2:{ cbn. rewrite !app_nil_r. split; [reflexivity |].
      split; [now rewrite <- app_assoc | reflexivity]. }
  destruct (drive (idNode e)) as [carpeta | err].
  2:{ cbn. rewrite !app_nil_r. split; [reflexivity |].
      split; [now rewrite <- app_assoc | reflexivity]. }
  rewrite newRows_igual.
  set (local := Legado.getPermissionSet (permisosCarpeta carpeta)).
  set (s0 := anotar ["Procesando: " +++ rutaArmada e] (eventos [LeeFrente e] s)).
  assert (H0 : hojaDeCola s0 = e :: resto /\ traza s0 = traza s ++ [LeeFrente e]
               /\ comparadas s0 = comparadas s)
    by (split; [exact Hcola | split; reflexivity]).
  clearbody s0.
  set (s1 := if negb (banderaRaiz e)
             then Legado_Cola.llamarLogDifferences padre local (rutaArmada e) (urlVisita e)
                                                   "Carpeta" domain s0
             else s0).
  assert (H1 : hojaDeCola s1 = e :: resto /\ traza s1 = traza s ++ [LeeFrente e]
               /\ comparadas s1
                  = comparadas s ++ (if banderaRaiz e then [] else [(padre, local)])).
  { subst s1. destruct H0 as (Hq & Ht & Hc).
    destruct (banderaRaiz e); cbn [negb].
    - rewrite app_nil_r. auto.
    - destruct (llamarLogDifferences_marco padre local (rutaArmada e) (urlVisita e)
                  "Carpeta" domain s0) as (-> & -> & ->).
      rewrite Hc. auto. }
  clearbody s1.
  destruct (procesarArchivos_marco (rutaArmada e) local domain (getFiles carpeta) s1)
    as (Hq & Ht & Hc).
  destruct H1 as (H1q & H1t & H1c).
  set (s2 := Legado_Cola.procesarArchivos (rutaArmada e) local domain (getFiles carpeta) s1)
    in *.
  clearbody s2.
  destruct (falla (getFolders carpeta)) eqn:Hfalla;
    cbn [eventos conCola anotar hojaDeCola traza comparadas];
    rewrite Hq, Ht, Hc, H1q, H1t, H1c; subst local;
    change (Legado.getPermissionSet (permisosCarpeta carpeta))
      with (obtenerConjuntoPermisos (permisosCarpeta carpeta));
    cbn [tl app]; (split; [reflexivity |]);
    (split; [rewrite <- !app_assoc; reflexivity | rewrite <- !app_assoc; reflexivity]).
Qed.

(** The comparisons of one visit of the current loop. *)
Lemma iteracion_pares (drive : Drive) (s s' : Estado) (e : Entrada) (resto : list Entrada) :
  hojaDeCola s = e :: resto ->
  iteracion drive s = Sigue s' ->
  comparadas s' = comparadas s ++ pares drive e.
Proof.
  intros Hcola. unfold iteracion, pares. rewrite Hcola.
  destruct (JSON_parse (permisosCache e)) as [padre | err].
  2:{ intros H. inversion H; subst; clear H. cbn. now rewrite app_nil_r. }
  destruct (drive (idNode e)) as [carpeta | err].
  2:{ intros H. inversion H; subst; clear H. cbn. now rewrite app_nil_r. }
  set (local := obtenerConjuntoPermisos (permisosCarpeta carpeta)).
  set (s0 := eventos [LeeFrente e] s).
  assert (H0 : comparadas s0 = comparadas s) by reflexivity.
  clearbody s0.
  set (par := if negb (banderaRaiz e)
              then llamarRegistrar padre local (rutaArmada e) (urlVisita e)
                                   "Carpeta Plegable" s0
              else (s0, Normal)).
  assert (H1 : comparadas (fst par)
               = comparadas s ++ (if banderaRaiz e then [] else [(padre, local)])).
  { subst par. destruct (banderaRaiz e); cbn [negb fst].
    - now rewrite app_nil_r.
    - destruct (llamarRegistrar_marco padre local (rutaArmada e) (urlVisita e)
                  "Carpeta Plegable" s0) as (_ & _ & ->). now rewrite H0. }
  clearbody par. destruct par as [s1 salida]. cbn [fst] in H1.
  destruct salida; [| discriminate].
  intros H. inversion H; subst; clear H.
  destruct (revisarDocumentos_marco (rutaArmada e) local (getFiles carpeta) s1)
    as (_ & _ & Hc).
  cbn [eventos conCola comparadas]. rewrite Hc, H1, <- app_assoc. reflexivity.
Qed.

Lemma legado_bucle_vacia (drive : Drive) (domain : string) (t0 : Z) (lects : list Z)
    (s : Estado) :
  hojaDeCola s = [] ->
  Legado_Cola.bucle drive domain t0 lects s
  = Completada (avisar AlertaCompletada
                  (anotar ["Procesamiento completado."; "Estado limpiado."] s)).
Proof. intros H. destruct lects; simpl; rewrite H; reflexivity. Qed.

Lemma legado_bucle_paso (drive : Drive) (domain : string) (t0 t : Z) (lects : list Z)
    (s : Estado) :
  hojaDeCola s <> [] ->
  Legado_Cola.bucle drive domain t0 (t :: lects) s
  = if (TIEMPO_MAXIMO_EJECUCION_MS <? t - t0)%Z
    then Pausada (avisar AlertaPausa s)
    else Legado_Cola.bucle drive domain t0 lects (Legado_Cola.iteracion drive domain s).
Proof. intros H. simpl. destruct (hojaDeCola s); [congruence | reflexivity]. Qed.

Lemma legado_bucle_sin_lecturas (drive : Drive) (domain : string) (t0 : Z) (s : Estado) :
  hojaDeCola s <> [] -> Legado_Cola.bucle drive domain t0 [] s = SinLecturas s.
Proof. intros H. simpl. destruct (hojaDeCola s); [congruence | reflexivity]. Qed.

(** The two loop bodies step together: on queues whose rows each loop reads
    as the same ids, paths, urls, flags and permission sets, a session of
    the current loop that does not end by an error and the session of the
    legacy loop make the same queue operations and the same comparisons. *)
Lemma bucle_mismo_recorrido :
  forall (drive : Drive) (domain : string) (t0 : Z) (lects : list Z) (s s2 : Estado),
    mismo_recorrido s s2 ->
    (forall sf err, bucle drive t0 lects s <> Fallida sf err) ->
    mismo_desenlace (bucle drive t0 lects s) (Legado_Cola.bucle drive domain t0 lects s2).
Proof.
  intros drive domain t0 lects. induction lects as [| t lects IH];
    intros s s2 (Hq & Ht & Hc) Hno;
    destruct (hojaDeCola s) as [| e q] eqn:Hcola.
  - rewrite bucle_vacia by exact Hcola.
    rewrite legado_bucle_vacia by (symmetry; exact Hq).
    repeat split; cbn; congruence.
  - rewrite bucle_sin_lecturas by (rewrite Hcola; discriminate).
    rewrite legado_bucle_sin_lecturas by (rewrite <- Hq; discriminate).
    repeat split; cbn; congruence.
  - rewrite bucle_vacia by exact Hcola.
    rewrite legado_bucle_vacia by (symmetry; exact Hq).
    repeat split; cbn; congruence.
  - rewrite bucle_paso in Hno |- * by (rewrite Hcola; discriminate).
    rewrite legado_bucle_paso by (rewrite <- Hq; discriminate).
    destruct (TIEMPO_MAXIMO_EJECUCION_MS <? t - t0)%Z;
      [repeat split; cbn; congruence |].
    destruct (iteracion drive s) as [s' | s' err] eqn:Hit.
    2:{ exfalso. exact (Hno s' err eq_refl). }
    apply IH; [| exact Hno].
    destruct (iteracion_visita drive s s' e q Hcola Hit) as (Hq' & Ht').
    pose proof (iteracion_pares drive s s' e q Hcola Hit) as Hc'.
    symmetry in Hq.
    destruct (legado_iteracion_visita drive domain s2 e q Hq) as (Lq & Lt & Lc).
    unfold mismo_recorrido. rewrite Hq', Ht', Hc', Lq, Lt, Lc, Ht, Hc. auto.
Qed.

Lemma mismo_desenlace_misma_marcha (r r2 : Resultado) :
  mismo_desenlace r r2 -> misma_marcha r r2.
Proof.
  destruct r, r2; cbn; try contradiction;
    intros (Hq & Ht & Hc); rewrite Hq, Ht, Hc; auto.
Qed.

(** X22: an audit of the current script walks the drive as an audit of
    the legacy script does.  Each from the queue its own start leaves (the
    root row alone, its cell written by the script that reads it) and with
    the same clock, a session of [continuarAuditoria] that does not end by
    an error ends as the session of [processQueue] does (paused or
    completed), with rows of the same ids, paths, urls and flags left in the
    queue, the same queue operations on such rows in the same order, and
    the same pairs of permission sets compared. *)
Theorem X22_mismo_recorrido_que_el_legado :
  forall (drive : Drive) (domain : string) (t0 : Z) (lects : list Z)
         (idRaiz nombre url : string) (raiz : Elemento)
         (reporte reporte2 : list Fila) (registro registro2 : list string)
         (alertas alertas2 : list Alerta),
    (forall sf err,
        bucle drive t0 lects
              (mkEstado (colaInicial idRaiz nombre url raiz) reporte registro alertas [] [])
        <> Fallida sf err) ->
    misma_marcha
      (bucle drive t0 lects
             (mkEstado (colaInicial idRaiz nombre url raiz) reporte registro alertas [] []))
      (Legado_Cola.bucle drive domain t0 lects
             (mkEstado (Legado_Cola.colaInicial idRaiz nombre url raiz)
                       reporte2 registro2 alertas2 [] [])).
Proof.
  intros drive domain t0 lects idRaiz nombre url raiz reporte reporte2
         registro registro2 alertas alertas2 Hno.
  apply mismo_desenlace_misma_marcha.
  apply bucle_mismo_recorrido; [| exact Hno].
  repeat split.
Qed.

(** *** Accounting of the report rows *)

Lemma ciegas_app (drive : Drive) (a b : list Evento) :
  ciegas drive (a ++ b) = (ciegas drive a + ciegas drive b)%nat.
Proof. unfold ciegas. now rewrite filter_app, length_app. Qed.

Lemma ciegas_encola (drive : Drive) (l : list Entrada) :
  ciegas drive (map Encola l) = 0%nat.
Proof. unfold ciegas. induction l as [| x l IH]; [reflexivity | exact IH]. Qed.

Lemma divergentes_app (a b : list (ConjuntoPermisos * ConjuntoPermisos)) :
  divergentes (a ++ b) = (divergentes a + divergentes b)%nat.
Proof. unfold divergentes. now rewrite filter_app, length_app. Qed.

Lemma saldo_anotar drive ms s : saldo drive (anotar ms s) = saldo drive s.
Proof. reflexivity. Qed.

Lemma saldo_conCola drive q s : saldo drive (conCola q s) = saldo drive s.
Proof. reflexivity. Qed.


Lemma saldo_eventos drive evs s :
  saldo drive (eventos evs s) = (saldo drive s - Z.of_nat (ciegas drive evs))%Z.
Proof. unfold saldo, eventos. cbn [hojaReporte comparadas traza]. rewrite ciegas_app. lia. Qed.

Lemma saldo_anexar drive fs s :
  saldo drive (anexar fs s) = (saldo drive s + Z.of_nat (List.length fs))%Z.
Proof. unfold saldo, anexar. cbn [hojaReporte comparadas traza]. rewrite length_app. lia. Qed.

Lemma saldo_llamarLogDifferences drive padre hijo path url type domain s :
  saldo drive (Legado_Cola.llamarLogDifferences padre hijo path url type domain s)
  = saldo drive s.
Proof.
  unfold Legado_Cola.llamarLogDifferences, Legado.logDifferences, saldo.
  destruct (Legado.differencesFound padre hijo) eqn:E;
    cbn [anexadas registrado anexar anotar comparada hojaReporte comparadas traza];
    rewrite length_app, divergentes_app; unfold divergentes at 2;
    cbn [filter fst snd]; rewrite E; cbn [List.length]; lia.
Qed.

Lemma saldo_procesarArchivos drive path local domain it s :
  saldo drive (Legado_Cola.procesarArchivos path local domain it s) = saldo drive s.
Proof.
  unfold Legado_Cola.procesarArchivos.
  assert (H : forall l s0,
             saldo drive (fold_left (Legado_Cola.procesarArchivo path local domain) l s0)
             = saldo drive s0).
  { induction l as [| d l IH]; intros s0; simpl; [reflexivity |].
    rewrite IH. apply saldo_llamarLogDifferences. }
  destruct (falla it); [rewrite saldo_anotar |]; apply H.
Qed.

Lemma saldo_iteracion (drive : Drive) (domain : string) (s : Estado) :
  saldo drive (Legado_Cola.iteracion drive domain s) = saldo drive s.
Proof.
  unfold Legado_Cola.iteracion.
  destruct (hojaDeCola s) as [| e resto]; [reflexivity |].
  destruct (JSON_parse (permisosCache e)) as [padre | err] eqn:Hp.
  2:{ rewrite !saldo_eventos, saldo_conCola, saldo_anotar, saldo_eventos.
      unfold ciegas. cbn [filter ciega]. rewrite Hp. cbn. lia. }
  destruct (drive (idNode e)) as [carpeta | err] eqn:Hd.
  2:{ rewrite !saldo_eventos, saldo_conCola, saldo_anexar, saldo_anotar, saldo_eventos.
      unfold ciegas. cbn [filter ciega]. rewrite Hp, Hd. cbn. lia. }
  rewrite saldo_eventos, saldo_conCola.
  assert (Hf : forall s3 : Estado,
             saldo drive (match falla (getFolders carpeta) with
                          | None => s3
                          | Some err => anotar ["Error al obtener carpetas en "
                                                +++ rutaArmada e +++ ": " +++ message err] s3
                          end) = saldo drive s3).
  { intros s3. destruct (falla (getFolders carpeta)); reflexivity. }
  rewrite Hf, saldo_eventos, saldo_conCola, saldo_procesarArchivos, ciegas_encola.
  assert (H1 : forall s0,
             saldo drive (if negb (banderaRaiz e)
                          then Legado_Cola.llamarLogDifferences padre
                                 (Legado.getPermissionSet (permisosCarpeta carpeta))
                                 (rutaArmada e) (urlVisita e) "Carpeta" domain s0
                          else s0) = saldo drive s0).
  { intros s0. destruct (negb (banderaRaiz e)); [apply saldo_llamarLogDifferences |].
    reflexivity. }
  rewrite H1, saldo_anotar, saldo_eventos.
  unfold ciegas. cbn [filter ciega]. rewrite Hp, Hd. cbn. lia.
Qed.

Lemma saldo_bucle (drive : Drive) (domain : string) (t0 : Z) (lects : list Z) :
  forall s, saldo drive (estado_final (Legado_Cola.bucle drive domain t0 lects s))
            = saldo drive s.
Proof.
  induction lects as [| t lects IH]; intros s;
    destruct (hojaDeCola s) as [| e q] eqn:Hcola.
  - rewrite legado_bucle_vacia by exact Hcola. reflexivity.
  - rewrite legado_bucle_sin_lecturas by (rewrite Hcola; discriminate). reflexivity.
  - rewrite legado_bucle_vacia by exact Hcola. reflexivity.
  - rewrite legado_bucle_paso by (rewrite Hcola; discriminate).
    destruct (TIEMPO_MAXIMO_EJECUCION_MS <? t - t0)%Z; [reflexivity |].
    rewrite IH. apply saldo_iteracion.
Qed.

(** X23: every row of a legacy session is accounted for.  However the
    session of [processQueue] ends, the number of rows it has added to the
    report is the number of comparisons that found a divergence plus the
    number of queue rows whose folder could not be opened. *)
Theorem X23_cuenta_de_filas_del_legado :
  forall (drive : Drive) (domain : string) (t0 : Z) (lects : list Z) (s : Estado),
    (Z.of_nat (List.length
                 (hojaReporte (estado_final (Legado_Cola.bucle drive domain t0 lects s))))
     - Z.of_nat (List.length (hojaReporte s))
     = (Z.of_nat (divergentes
                    (comparadas (estado_final (Legado_Cola.bucle drive domain t0 lects s))))
        - Z.of_nat (divergentes (comparadas s)))
       + (Z.of_nat (ciegas drive
                      (traza (estado_final (Legado_Cola.bucle drive domain t0 lects s))))
          - Z.of_nat (ciegas drive (traza s))))%Z.
Proof.
  intros drive domain t0 lects s.
  pose proof (saldo_bucle drive domain t0 lects s) as H.
  unfold saldo in H. lia.
Qed.

End Legado_Recorrido.

(** ** The legacy loop on the small drive *)
Section Testigos_Legado.
Import Cfg_Constantes API_Permisos UI_Menu Ejemplo.

(** X22 on the small drive: both loops complete after visiting A and B. *)
Lemma X22_testigo :
  bucle drive_ej 0 [0%Z; 0%Z]
        (mkEstado (colaInicial "A" "Unidad" "https://a" permisos_base) [] [] [] [] [])
  = Completada
      (estado_final
         (bucle drive_ej 0 [0%Z; 0%Z]
                (mkEstado (colaInicial "A" "Unidad" "https://a" permisos_base)
                          [] [] [] [] [])))
  /\ misma_marcha
       (bucle drive_ej 0 [0%Z; 0%Z]
              (mkEstado (colaInicial "A" "Unidad" "https://a" permisos_base) [] [] [] [] []))
       (Legado_Cola.bucle drive_ej "x.com" 0 [0%Z; 0%Z]
              (mkEstado (Legado_Cola.colaInicial "A" "Unidad" "https://a" permisos_base)
                        [] [] [] [] [])).
Proof.
  split; [vm_compute; reflexivity |].
  apply (X22_mismo_recorrido_que_el_legado drive_ej "x.com" 0%Z [0%Z; 0%Z]
           "A" "Unidad" "https://a" permisos_base [] [] [] [] [] []).
  intros sf err Hf. vm_compute in Hf. discriminate Hf.
Defined.

End Testigos_Legado.

(** ** What the current loop writes in the report *)
Section Filas_De_La_Sesion.
Import Cfg_Constantes API_Permisos UI_Menu.

Lemma solo_avisos_refl (s : Estado) : solo_avisos s s.
Proof. exists []. split; [now rewrite app_nil_r | constructor]. Qed.

Lemma solo_avisos_trans (a b c : Estado) :
  solo_avisos a b -> solo_avisos b c -> solo_avisos a c.
Proof.
  intros (x & Hx & Px) (y & Hy & Py). exists (x ++ y). split.
  - now rewrite Hy, Hx, app_assoc.
  - apply Forall_app. split; assumption.
Qed.

Lemma solo_avisos_marco (s x x' : Estado) :
  hojaReporte x' = hojaReporte x -> solo_avisos s x -> solo_avisos s x'.
Proof. intros E (f & Hf & Pf). exists f. rewrite E. split; assumption. Qed.

Lemma solo_avisos_anexar (s x : Estado) (fs : list Fila) :
  Forall fila_sin_hallazgo fs -> solo_avisos s x -> solo_avisos s (anexar fs x).
Proof.
  intros Pfs H. apply (solo_avisos_trans _ _ _ H).
  exists fs. split; [reflexivity | exact Pfs].
Qed.

Lemma solo_avisos_llamarRegistrar s x padre hijo ruta url tipo :
  solo_avisos s x -> solo_avisos s (fst (llamarRegistrar padre hijo ruta url tipo x)).
Proof.
  intros H. apply (solo_avisos_marco s x); [| exact H].
  unfold llamarRegistrar. rewrite registrar_salida.
  destruct (diferenciasDetectadas padre hijo); cbn; apply app_nil_r.
Qed.

Lemma solo_avisos_revisarDocumento s x ruta local d :
  solo_avisos s x -> solo_avisos s (revisarDocumento ruta local x d).
Proof.
  intros H. unfold revisarDocumento, llamarRegistrar. rewrite registrar_salida.
  destruct (diferenciasDetectadas local _); cbn [fin anexadas registrado].
  - apply solo_avisos_anexar.
    + constructor; [| constructor].
      exists (ruta +++ "/" +++ nombreArchivo d), (urlArchivo d), "". right. reflexivity.
    + apply (solo_avisos_marco s x); [cbn; apply app_nil_r | exact H].
  - apply (solo_avisos_marco s x); [cbn; apply app_nil_r | exact H].
Qed.

Lemma solo_avisos_revisarDocumentos s x ruta local it :
  solo_avisos s x -> solo_avisos s (revisarDocumentos ruta local it x).
Proof.
  intros H. unfold revisarDocumentos.
  assert (Hf : forall l y, solo_avisos s y ->
                           solo_avisos s (fold_left (revisarDocumento ruta local) l y)).
  { induction l as [| d l IH]; intros y Hy; simpl; [exact Hy |].
    apply IH, solo_avisos_revisarDocumento, Hy. }
  destruct (falla it).
  - apply (solo_avisos_marco s (fold_left (revisarDocumento ruta local) (entregados it) x));
      [reflexivity | apply Hf, H].
  - apply Hf, H.
Qed.

Lemma iteracion_solo_avisos (drive : Drive) (s : Estado) :
  solo_avisos s (tras_paso (iteracion drive s)).
Proof.
  unfold iteracion.
  destruct (hojaDeCola s) as [| e resto]; [apply solo_avisos_refl |].
  destruct (JSON_parse (permisosCache e)) as [padre | e1].
  2:{ cbn [tras_paso]. apply (solo_avisos_marco s s); [reflexivity | apply solo_avisos_refl]. }
  destruct (drive (idNode e)) as [carpeta | e2].
  2:{ cbn [tras_paso].
      exists [[rutaArmada e; urlVisita e; "Folder Ciego";
               "ERROR API Carga: Restricción del propio Google sobre la ID oculta: "
               +++ message e2]].
      split; [reflexivity |]. constructor; [| constructor].
      exists (rutaArmada e), (urlVisita e), (message e2). left. reflexivity. }
  set (s0 := eventos [LeeFrente e] s).
  assert (H0 : solo_avisos s s0)
    by (apply (solo_avisos_marco s s); [reflexivity | apply solo_avisos_refl]).
  clearbody s0.
  set (par := if negb (banderaRaiz e)
              then llamarRegistrar padre (obtenerConjuntoPermisos (permisosCarpeta carpeta))
                                   (rutaArmada e) (urlVisita e) "Carpeta Plegable" s0
              else (s0, Normal)).
  assert (H1 : solo_avisos s (fst par)).
  { subst par. destruct (negb (banderaRaiz e)); [| exact H0].
    apply solo_avisos_llamarRegistrar, H0. }
  clearbody par. destruct par as [s1 salida]. cbn [fst] in H1.
  destruct salida; cbn [tras_paso]; [| exact H1].
  eapply solo_avisos_marco;
    [| apply (solo_avisos_revisarDocumentos s s1 (rutaArmada e)
                (obtenerConjuntoPermisos (permisosCarpeta carpeta)) (getFiles carpeta) H1)].
  reflexivity.
Qed.

(** X24: a session of the current loop writes no finding.  However it
    ends, every row it has added to the report is the row of a folder that
    could not be opened or the alert row of a file whose comparison threw;
    no row carries the users and roles of an item. *)
Theorem X24_la_sesion_no_escribe_hallazgos :
  forall (drive : Drive) (t0 : Z) (lects : list Z) (s : Estado),
    exists filas,
      hojaReporte (estado_final (bucle drive t0 lects s)) = hojaReporte s ++ filas
      /\ Forall fila_sin_hallazgo filas.
Proof.
  intros drive t0 lects. change (forall s, solo_avisos s (estado_final (bucle drive t0 lects s))).
  induction lects as [| t lects IH]; intros s;
    destruct (hojaDeCola s) as [| e q] eqn:Hcola.
  - rewrite bucle_vacia by exact Hcola.
    apply (solo_avisos_marco s s); [reflexivity | apply solo_avisos_refl].
  - rewrite bucle_sin_lecturas by (rewrite Hcola; discriminate). apply solo_avisos_refl.
  - rewrite bucle_vacia by exact Hcola.
    apply (solo_avisos_marco s s); [reflexivity | apply solo_avisos_refl].
  - rewrite bucle_paso by (rewrite Hcola; discriminate).
    destruct (TIEMPO_MAXIMO_EJECUCION_MS <? t - t0)%Z;
      [apply (solo_avisos_marco s s); [reflexivity | apply solo_avisos_refl] |].
    pose proof (iteracion_solo_avisos drive s) as Hi.
    destruct (iteracion drive s) as [s' | s' err]; cbn [tras_paso] in Hi.
    + exact (solo_avisos_trans _ _ _ Hi (IH s')).
    + exact Hi.
Qed.

(** *** Accounting of the report rows *)






End Filas_De_La_Sesion.

(** ** The rendered text and the rows of the report *)
Section Texto_Del_Hallazgo.
Import Cfg_Constantes API_Permisos UI_Menu Ejemplo.

Lemma usuariosTexto_no_es_alerta (dominio : string) (hijo : ConjuntoPermisos) :
  usuariosTexto dominio hijo
  <> "Alerta de Lectura en Permisología: hojaReporte is not defined".
Proof.
  destruct (usuariosTexto_segun_spec dominio hijo) as [Heq _].
  rewrite Heq. unfold texto_segun_spec.
  pose proof (entradas_terminan_en_r dominio hijo) as Hr.
  destruct (entradas_segun_spec dominio hijo) as [| x l] eqn:E.
  - discriminate.
  - intros H.
    assert (Hu : ultimo (join ", " (x :: l)) = Some "r"%char)
      by (apply ultimo_join; [discriminate | exact Hr]).
    rewrite H in Hu. vm_compute in Hu. discriminate.
Qed.

Lemma fila_sin_hallazgo_no_lleva_texto (fila : Fila) :
  fila_sin_hallazgo fila ->
  forall (ruta url tipo dominio : string) (hijo : ConjuntoPermisos),
    tipo = "Carpeta Plegable" \/ tipo = "Documento Unitario" ->
    fila <> [ruta; url; tipo; usuariosTexto dominio hijo].
Proof.
  intros (r & u & d & [-> | ->]) ruta url tipo dominio hijo Htipo Heq.
  - injection Heq as _ _ Ht _. destruct Htipo as [-> | ->]; discriminate.
  - injection Heq as _ _ _ Hx. symmetry in Hx.
    exact (usuariosTexto_no_es_alerta dominio hijo Hx).
Qed.

Lemma bucle_solo_avisos (drive : Drive) (t0 : Z) (lects : list Z) :
  forall s, solo_avisos s (estado_final (bucle drive t0 lects s)).
Proof.
  induction lects as [| t lects IH]; intros s;
    destruct (hojaDeCola s) as [| e q] eqn:Hcola.
  - rewrite bucle_vacia by exact Hcola.
    apply (solo_avisos_marco s s); [reflexivity | apply solo_avisos_refl].
  - rewrite bucle_sin_lecturas by (rewrite Hcola; discriminate). apply solo_avisos_refl.
  - rewrite bucle_vacia by exact Hcola.
    apply (solo_avisos_marco s s); [reflexivity | apply solo_avisos_refl].
  - rewrite bucle_paso by (rewrite Hcola; discriminate).
    destruct (TIEMPO_MAXIMO_EJECUCION_MS <? t - t0)%Z;
      [apply (solo_avisos_marco s s); [reflexivity | apply solo_avisos_refl] |].
    pose proof (iteracion_solo_avisos drive s) as Hi.
    destruct (iteracion drive s) as [s' | s' err]; cbn [tras_paso] in Hi.
    + exact (solo_avisos_trans _ _ _ Hi (IH s')).
    + exact Hi.
Qed.

(** C7, on the code as written.  [registrarDiferenciasPermisos] renders the
    text as specified (public access, domain access, editors, viewers, each
    with its level, or the inheritance-only sentence exactly when the child
    has none of them), but the text stays in the local [usuariosTexto]: the
    row that would carry it is appended through the unbound [hojaReporte],
    so no call appends a row and a divergent call ends in the
    ReferenceError.  No row a session adds to the report is a finding with
    the rendered text: a divergent file gets the alert text, a divergent
    folder gets no row.  On the small drive the file [acta.doc], shared
    with anyone who has the link unlike its folder, is reported with the
    alert text, not with its rendered access. *)
Theorem C7_el_texto_rendido_no_se_emite :
  (forall (P C : ConjuntoPermisos) (ruta url tipo dominio : string),
      usuariosTexto dominio C = texto_segun_spec dominio C
      /\ (usuariosTexto dominio C = SOLO_HERENCIA <-> sin_acceso_propio C)
      /\ anexadas (registrarDiferenciasPermisos P C ruta url tipo dominio) = []
      /\ fin (registrarDiferenciasPermisos P C ruta url tipo dominio)
         = if diferenciasDetectadas P C
           then Lanza (ReferenceError "hojaReporte") else Normal)
  /\ (forall (drive : Drive) (t0 : Z) (lects : list Z) (s : Estado),
        exists filas,
          hojaReporte (estado_final (bucle drive t0 lects s)) = hojaReporte s ++ filas
          /\ forall (fila : Fila) (ruta url tipo dominio : string) (hijo : ConjuntoPermisos),
               In fila filas ->
               tipo = "Carpeta Plegable" \/ tipo = "Documento Unitario" ->
               fila <> [ruta; url; tipo; usuariosTexto dominio hijo])
  /\ diferenciasDetectadas (obtenerConjuntoPermisos permisos_base)
                           (obtenerConjuntoPermisos permisos_publicos) = true
  /\ usuariosTexto textoDeHoja (obtenerConjuntoPermisos permisos_publicos)
     = "Público (Cualquiera con enlace) - Visualizador, alice@x.com - Editor, bob@x.com - Visualizador"
  /\ hojaReporte (estado_final (bucle drive_ej 0 [0%Z; 0%Z] estado_ej))
     = [["Unidad/acta.doc"; "https://acta"; "Documento Unitario";
         "Alerta de Lectura en Permisología: hojaReporte is not defined"]].
Proof.
  split; [| split; [| split; [| split]]].
  - intros P C ruta url tipo dominio.
    destruct (usuariosTexto_segun_spec dominio C) as [H1 H2].
    split; [exact H1 |]. split; [exact H2 |].
    rewrite registrar_salida.
    destruct (diferenciasDetectadas P C); split; reflexivity.
  - intros drive t0 lects s.
    destruct (bucle_solo_avisos drive t0 lects s) as (filas & Hf & Pf).
    exists filas. split; [exact Hf |].
    intros fila ruta url tipo dominio hijo Hin Htipo.
    rewrite Forall_forall in Pf.
    exact (fila_sin_hallazgo_no_lleva_texto fila (Pf fila Hin) ruta url tipo dominio hijo Htipo).
  - vm_compute. reflexivity.
  - vm_compute. reflexivity.
  - vm_compute. reflexivity.
Qed.

End Texto_Del_Hallazgo.

(** ** Level order, however the sessions end *)
Section Anchura.
Import Cfg_Constantes API_Permisos UI_Menu Ejemplo.

(** The level order, one level deeper: the pending entries followed by
    the children of the entries of the levels before. *)
Lemma por_niveles_paso (drive : Drive) (n : nat) :
  forall q, por_niveles drive (S n) q = q ++ flat_map (hijos drive) (por_niveles drive n q).
Proof.
  induction n as [| n IH]; intros q.
  - destruct q; cbn; [reflexivity | now rewrite app_nil_r].
  - destruct q as [| e q]; [reflexivity |].
    change (por_niveles drive (S (S n)) (e :: q))
      with ((e :: q) ++ por_niveles drive (S n) (flat_map (hijos drive) (e :: q))).
    rewrite (IH (flat_map (hijos drive) (e :: q))).
    change (por_niveles drive (S n) (e :: q))
      with ((e :: q) ++ por_niveles drive n (flat_map (hijos drive) (e :: q))).
    rewrite flat_map_app. reflexivity.
Qed.

Lemma iterar_ultimo (drive : Drive) (k : nat) :
  forall s s'',
    iterar drive (S k) s = Some s'' ->
    exists s' e resto,
      iterar drive k s = Some s'
      /\ hojaDeCola s' = e :: resto
      /\ iteracion drive s' = Sigue s''.
Proof.
  induction k as [| k IH]; intros s s'' H.
  - cbn [iterar] in H.
    destruct (hojaDeCola s) as [| e resto] eqn:Hcola; [discriminate |].
    destruct (iteracion drive s) as [s1 | s1 err] eqn:Hit; [| discriminate].
    inversion H; subst. exists s, e, resto. cbn [iterar]. auto.
  - change (iterar drive (S (S k)) s)
      with (match hojaDeCola s with
            | [] => None
            | _ :: _ => match iteracion drive s with
                        | Sigue s1 => iterar drive (S k) s1
                        | Aborta _ _ => None
                        end
            end) in H.
    destruct (hojaDeCola s) as [| e0 resto0] eqn:Hcola; [discriminate |].
    destruct (iteracion drive s) as [s1 | s1 err] eqn:Hit; [| discriminate].
    destruct (IH s1 s'' H) as (s' & e & resto & H1 & H2 & H3).
    exists s', e, resto. split; [| auto].
    cbn [iterar]. rewrite Hcola, Hit. exact H1.
Qed.

(** [k] whole visits follow the level order of the queue they start from:
    the entries visited, followed by the rows then pending, are the queue
    followed by the children of the entries visited, and an initial segment
    of the level order. *)
Lemma iterar_por_niveles (drive : Drive) (k : nat) :
  forall s s',
    iterar drive k s = Some s' ->
    exists vis resto,
      List.length vis = k
      /\ traza s' = traza s ++ flat_map (bloque drive) vis
      /\ vis ++ hojaDeCola s' = hojaDeCola s ++ flat_map (hijos drive) vis
      /\ por_niveles drive (S k) (hojaDeCola s) = vis ++ hojaDeCola s' ++ resto.
Proof.
  induction k as [| k IH]; intros s s' H.
  - cbn [iterar] in H. inversion H; subst. exists [], [].
    split; [reflexivity |]. split; [cbn; now rewrite app_nil_r |].
    split; [cbn; now rewrite app_nil_r |].
    rewrite por_niveles_paso. cbn. now rewrite !app_nil_r.
  - destruct (iterar_ultimo drive k s s' H) as (s1 & e & q & H1 & Hcola & Hit).
    destruct (IH s s1 H1) as (vis & resto & Hlen & Ht & Ha & Hn).
    destruct (iteracion_visita drive s1 s' e q Hcola Hit) as [Hq' Ht'].
    rewrite Hcola in Ha, Hn.
    exists (vis ++ [e]), (flat_map (hijos drive) (q ++ resto)).
    split; [rewrite length_app; cbn; lia |].
    split.
    { rewrite Ht', Ht, flat_map_app. cbn [flat_map]. rewrite app_nil_r.
      unfold bloque at 3. rewrite <- !app_assoc. reflexivity. }
    assert (Ha' : (vis ++ [e]) ++ hojaDeCola s'
                  = hojaDeCola s ++ flat_map (hijos drive) (vis ++ [e])).
    { rewrite Hq', flat_map_app. cbn [flat_map]. rewrite app_nil_r.
      rewrite (app_assoc (hojaDeCola s)), <- Ha, <- !app_assoc. reflexivity. }
    split; [exact Ha' |].
    rewrite por_niveles_paso, Hn.
    rewrite (app_assoc (vis ++ [e])), Ha'.
    rewrite !flat_map_app. cbn [flat_map]. rewrite <- !app_assoc. cbn [app].
    reflexivity.
Qed.

(** Every session is a number of whole visits, followed, when it ends by
    an error, by the read of the row it stops at. *)
Lemma bucle_iterar (drive : Drive) (t0 : Z) (lects : list Z) :
  forall s,
    exists k s',
      iterar drive k s = Some s'
      /\ hojaDeCola (estado_final (bucle drive t0 lects s)) = hojaDeCola s'
      /\ traza (estado_final (bucle drive t0 lects s))
         = traza s' ++ lectura_pendiente (bucle drive t0 lects s).
Proof.
  induction lects as [| t lects IH]; intros s;
    destruct (hojaDeCola s) as [| e q] eqn:Hcola.
  - rewrite bucle_vacia by exact Hcola. exists O, s. cbn.
    rewrite app_nil_r. auto.
  - rewrite bucle_sin_lecturas by (rewrite Hcola; discriminate). exists O, s. cbn.
    rewrite app_nil_r. auto.
  - rewrite bucle_vacia by exact Hcola. exists O, s. cbn.
    rewrite app_nil_r. auto.
  - rewrite bucle_paso by (rewrite Hcola; discriminate).
    destruct (TIEMPO_MAXIMO_EJECUCION_MS <? t - t0)%Z.
    + exists O, s. cbn. rewrite app_nil_r. auto.
    + destruct (iteracion drive s) as [s1 | sf err] eqn:Hit.
      * destruct (IH s1) as (k & s' & Hk & Hq & Ht).
        exists (S k), s'. cbn [iterar]. rewrite Hcola, Hit. auto.
      * destruct (iteracion_aborta drive s sf err Hit)
          as (e' & resto & padre & carpeta & Hs & _ & _ & _ & _ & _ & Hqf & _ & Htf).
        exists O, s. cbn [iterar estado_final lectura_pendiente].
        split; [reflexivity |]. split; [exact Hqf |].
        rewrite Hqf, Hs, Htf. reflexivity.
Qed.

(** The same for an audit resumed after each pause. *)
Lemma reanudar_iterar (drive : Drive) (relojes : list (Z * list Z)) :
  forall s,
    exists k s',
      iterar drive k s = Some s'
      /\ hojaDeCola (estado_final (reanudar drive relojes s)) = hojaDeCola s'
      /\ traza (estado_final (reanudar drive relojes s))
         = traza s' ++ lectura_pendiente (reanudar drive relojes s).
Proof.
  induction relojes as [| [t0 lects] relojes IH]; intros s.
  - exists O, s. cbn. rewrite app_nil_r. auto.
  - cbn [reanudar].
    destruct (bucle drive t0 lects s) as [s1 | s1 | s1 err | s1] eqn:Hrun.
    + destruct (bucle_pausada drive t0 lects s s1 Hrun)
        as (k & s' & t & Hk & _ & _ & _ & ->).
      destruct (IH (avisar AlertaPausa s')) as (k2 & s2 & Hk2 & Hq & Ht).
      rewrite iterar_avisar in Hk2.
      destruct (iterar drive k2 s') as [s2' |] eqn:Hk2'; [| discriminate].
      cbn [option_map] in Hk2. inversion Hk2; subst s2.
      exists (k + k2)%nat, s2'.
      rewrite (iterar_suma drive k k2 s s' Hk), Hk2'.
      split; [reflexivity |]. split; [exact Hq | exact Ht].
    + destruct (bucle_iterar drive t0 lects s) as (k & s' & Hk & Hq & Ht).
      rewrite Hrun in Hq, Ht. exists k, s'. auto.
    + destruct (bucle_iterar drive t0 lects s) as (k & s' & Hk & Hq & Ht).
      rewrite Hrun in Hq, Ht. exists k, s'. auto.
    + destruct (bucle_iterar drive t0 lects s) as (k & s' & Hk & Hq & Ht).
      rewrite Hrun in Hq, Ht. exists k, s'. auto.
Qed.

(** C5, as the code has it.  The queue is first-in first-out and the walk is
    breadth-first, but a container's row is only read, not removed, before
    its children are queued: a visit reads the front row, writes the
    children behind every pending row while that row is still in the queue,
    and deletes the front row last.  The level order holds of every
    session, however it ends, and of an audit resumed after each pause:
    the history is the history before it followed by the whole visits of
    the entries visited, in order (and, after an error, the read of the row
    the session stopped at); the entries visited followed by the rows still
    pending are the starting queue followed by the children of the entries
    visited, and are an initial segment of the level order of the starting
    queue.  A session that completes has visited every level. *)
Theorem C5_recorrido_en_anchura :
  forall drive : Drive,
    (forall (s s' : Estado) (e : Entrada) (resto : list Entrada),
        hojaDeCola s = e :: resto ->
        iteracion drive s = Sigue s' ->
        hojaDeCola s' = resto ++ hijos drive e
        /\ traza s' = traza s ++ LeeFrente e :: map Encola (hijos drive e) ++ [BorraFrente e])
    /\ (forall (t0 : Z) (lects : list Z) (s : Estado),
          exists vis resto,
            traza (estado_final (bucle drive t0 lects s))
            = traza s ++ flat_map (bloque drive) vis
              ++ lectura_pendiente (bucle drive t0 lects s)
            /\ vis ++ hojaDeCola (estado_final (bucle drive t0 lects s))
               = hojaDeCola s ++ flat_map (hijos drive) vis
            /\ por_niveles drive (S (List.length vis)) (hojaDeCola s)
               = vis ++ hojaDeCola (estado_final (bucle drive t0 lects s)) ++ resto)
    /\ (forall (relojes : list (Z * list Z)) (s : Estado),
          exists vis resto,
            traza (estado_final (reanudar drive relojes s))
            = traza s ++ flat_map (bloque drive) vis
              ++ lectura_pendiente (reanudar drive relojes s)
            /\ vis ++ hojaDeCola (estado_final (reanudar drive relojes s))
               = hojaDeCola s ++ flat_map (hijos drive) vis
            /\ por_niveles drive (S (List.length vis)) (hojaDeCola s)
               = vis ++ hojaDeCola (estado_final (reanudar drive relojes s)) ++ resto)
    /\ (forall (t0 : Z) (lects : list Z) (s sf : Estado),
          bucle drive t0 lects s = Completada sf ->
          exists n,
            traza sf = traza s
                       ++ flat_map (bloque drive) (por_niveles drive n (hojaDeCola s))).
Proof.
  intros drive. split; [| split; [| split]].
  - intros s s' e resto Hcola Hit. exact (iteracion_visita drive s s' e resto Hcola Hit).
  - intros t0 lects s.
    destruct (bucle_iterar drive t0 lects s) as (k & s' & Hk & Hq & Ht).
    destruct (iterar_por_niveles drive k s s' Hk) as (vis & resto & Hlen & Hv & Ha & Hn).
    exists vis, resto. rewrite Ht, Hq, Hv, Hlen, <- app_assoc. auto.
  - intros relojes s.
    destruct (reanudar_iterar drive relojes s) as (k & s' & Hk & Hq & Ht).
    destruct (iterar_por_niveles drive k s s' Hk) as (vis & resto & Hlen & Hv & Ha & Hn).
    exists vis, resto. rewrite Ht, Hq, Hv, Hlen, <- app_assoc. auto.
  - intros t0 lects s sf Hrun.
    exact (bucle_por_niveles drive t0 (List.length lects) lects s sf (le_n _) Hrun).
Qed.

(** C5 on the small drive: an audit paused after the visit of A and resumed,
    and a session that completes. *)
Lemma C5_testigo :
  (exists vis resto,
      traza (estado_final
               (reanudar drive_ej [(0%Z, [0%Z; 1200001%Z]); (5%Z, [5%Z; 5%Z])] estado_ej))
      = traza estado_ej ++ flat_map (bloque drive_ej) vis
        ++ lectura_pendiente
             (reanudar drive_ej [(0%Z, [0%Z; 1200001%Z]); (5%Z, [5%Z; 5%Z])] estado_ej)
      /\ vis ++ hojaDeCola
                  (estado_final
                     (reanudar drive_ej [(0%Z, [0%Z; 1200001%Z]); (5%Z, [5%Z; 5%Z])]
                               estado_ej))
         = hojaDeCola estado_ej ++ flat_map (hijos drive_ej) vis
      /\ por_niveles drive_ej (S (List.length vis)) (hojaDeCola estado_ej)
         = vis ++ hojaDeCola
                    (estado_final
                       (reanudar drive_ej [(0%Z, [0%Z; 1200001%Z]); (5%Z, [5%Z; 5%Z])]
                                 estado_ej))
               ++ resto)
  /\ bucle drive_ej 0 [0%Z; 0%Z] estado_ej
     = Completada (estado_final (bucle drive_ej 0 [0%Z; 0%Z] estado_ej))
  /\ exists n,
       traza (estado_final (bucle drive_ej 0 [0%Z; 0%Z] estado_ej))
       = traza estado_ej
         ++ flat_map (bloque drive_ej) (por_niveles drive_ej n (hojaDeCola estado_ej)).
Proof.
  assert (H : bucle drive_ej 0 [0%Z; 0%Z] estado_ej
              = Completada (estado_final (bucle drive_ej 0 [0%Z; 0%Z] estado_ej)))
    by (vm_compute; reflexivity).
  split.
  - exact (proj1 (proj2 (proj2 (C5_recorrido_en_anchura drive_ej)))
             [(0%Z, [0%Z; 1200001%Z]); (5%Z, [5%Z; 5%Z])] estado_ej).
  - split; [exact H |].
    exact (proj2 (proj2 (proj2 (C5_recorrido_en_anchura drive_ej))) _ _ _ _ H).
Defined.

End Anchura.
